(** * convert-nuget: packages.config to packages.lock.json

    A shallow embedding of [convert-nuget.js] and the properties of its
    compatibility-narrowing loop.

    JavaScript strings are modelled as [string]: one character stands for
    one UTF-16 code unit below 256, which is where every piece of text the
    script inspects lives (version numbers, the [NU1202] code, the
    [Package ... is not compatible] phrase, file suffixes).  Console text
    is carried verbatim.

    Input and output are modelled by a trace of the operations the script
    performs, in order, and by a world that fixes what each operation
    answers. *)

From Stdlib Require Import String Ascii List Arith Bool Lia Permutation.
From Stdlib Require Import DecimalString.
From Equations Require Import Equations.
From Equations.Prop Require Import Logic.
Import ListNotations.
Open Scope list_scope.
Open Scope string_scope.

Set Implicit Arguments.

(* ===================================================================== *)
(** ** String primitives of the JavaScript runtime *)
(* ===================================================================== *)

Module Js.

(** [s.split(sep)] for a one-character separator: never empty, the
    empty string splits into one empty segment. *)
Fixpoint split (sep : ascii) (s : string) : list string :=
  match s with
  | EmptyString => [EmptyString]
  | String c s' =>
      if Ascii.eqb c sep then EmptyString :: split sep s'
      else match split sep s' with
           | seg :: segs => String c seg :: segs
           | [] => [String c EmptyString]
           end
  end.

(** [arr.join(sep)]. *)
Definition join (sep : string) (arr : list string) : string :=
  String.concat sep arr.

(** [arr.filter((p, i) => f(p, i))], the callback seeing the index. *)
Fixpoint filter_from {A} (f : A -> nat -> bool) (i : nat) (arr : list A)
  : list A :=
  match arr with
  | [] => []
  | p :: rest =>
      if f p i then p :: filter_from f (S i) rest
      else filter_from f (S i) rest
  end.

Definition filteri {A} (f : A -> nat -> bool) (arr : list A) : list A :=
  filter_from f 0 arr.

(** [s.startsWith(p)] and [s.endsWith(p)]. *)
Definition startsWith (s p : string) : bool := String.prefix p s.

Fixpoint drop (n : nat) (s : string) : string :=
  match n, s with
  | 0, _ => s
  | S _, EmptyString => EmptyString
  | S k, String _ s' => drop k s'
  end.

Definition endsWith (s p : string) : bool :=
  (String.length p <=? String.length s)%nat
  && String.eqb (drop (String.length s - String.length p) s) p.

(** [s.includes(p)]. *)
Fixpoint includes (s p : string) : bool :=
  String.prefix p s
  || match s with
     | EmptyString => false
     | String _ s' => includes s' p
     end.

(** [s.replace(p, r)] with a string pattern: the first occurrence only. *)
Fixpoint replace (s p r : string) : string :=
  if String.prefix p s then r ++ drop (String.length p) s
  else match s with
       | EmptyString => EmptyString
       | String c s' => String c (replace s' p r)
       end.

(** [s.replace(/c/g, '')] for a single character [c]. *)
Fixpoint remove_all (c : ascii) (s : string) : string :=
  match s with
  | EmptyString => EmptyString
  | String d s' =>
      if Ascii.eqb d c then remove_all c s' else String d (remove_all c s')
  end.

(** [s.toLowerCase()] on code units below 256: A-Z and the accented
    capitals U+00C0..U+00DE, the multiplication sign U+00D7 apart. *)
Definition lower_char (c : ascii) : ascii :=
  let n := nat_of_ascii c in
  if ((65 <=? n)%nat && (n <=? 90)%nat)
     || ((192 <=? n)%nat && (n <=? 222)%nat && negb (n =? 215)%nat)
  then ascii_of_nat (n + 32)
  else c.

Fixpoint toLowerCase (s : string) : string :=
  match s with
  | EmptyString => EmptyString
  | String c s' => String (lower_char c) (toLowerCase s')
  end.

(** No occurrence of the character [sep] in [s]. *)
Fixpoint free_of (sep : ascii) (s : string) : bool :=
  match s with
  | EmptyString => true
  | String c s' => negb (Ascii.eqb c sep) && free_of sep s'
  end.

(** Truthiness of a string: the empty string is falsy. *)
Definition truthy (s : string) : bool := negb (String.eqb s EmptyString).

(** The characters a string literal cannot hold directly. *)
Definition dquote : string := String "034"%char EmptyString.
Definition nl : string := String "010"%char EmptyString.

(** Rendering of a number inside a template literal. *)
Definition of_nat (n : nat) : string :=
  NilZero.string_of_uint (Nat.to_uint n).

End Js.

(* ===================================================================== *)
(** ** Version normalisation *)
(* ===================================================================== *)

(** [const normalizeVersion = v => v.split('.').filter((p, i, arr) =>
      i < arr.length - 1 || p !== '0').join('.')] *)
Definition normalizeVersion (v : string) : string :=
  let arr := Js.split "." v in
  Js.join "."
    (Js.filteri
       (fun p i => (i <? List.length arr - 1)%nat || negb (String.eqb p "0"))
       arr).

(** The other copy of the script kept in the repository normalises with
    a loop instead:
    [const parts = v.split('.');
     while (parts.length > 1 && parts[parts.length - 1] === '0') parts.pop();
     return parts.join('.');] *)
Module Looping.

(** The [while]/[pop] loop, on the segments taken from the right. *)
Fixpoint pop_zeros (rev_parts : list string) : list string :=
  match rev_parts with
  | last :: ((_ :: _) as rest) =>
      if String.eqb last "0" then pop_zeros rest else rev_parts
  | _ => rev_parts
  end.

Definition normalizeVersion (v : string) : string :=
  Js.join "." (rev (pop_zeros (rev (Js.split "." v)))).

End Looping.

(* ===================================================================== *)
(** ** Packages and the diagnostic parser *)
(* ===================================================================== *)

(** [{ id, version }] *)
Record Package := { id : string; version : string }.

(** The regular expression
    [/Package\s+([^\s]+)\s+([0-9.]+)\s+is\s+not\s+compatible/gi].
    Every two neighbouring pieces of it accept disjoint sets of characters,
    so at a given start position the match is decided by scanning each
    piece as far as it goes: a shorter run always leaves a character the
    next piece refuses. *)
Module Regex.

(** [\s] on code units below 256. *)
Definition is_space (c : ascii) : bool :=
  let n := nat_of_ascii c in
  ((9 <=? n)%nat && (n <=? 13)%nat) || (n =? 32)%nat || (n =? 160)%nat.

(** [[0-9.]] *)
Definition is_version_char (c : ascii) : bool :=
  let n := nat_of_ascii c in
  ((48 <=? n)%nat && (n <=? 57)%nat) || (n =? 46)%nat.

(** The [i] flag on a letter of the pattern: both cases of it. *)
Definition fold_case (c : ascii) : ascii :=
  let n := nat_of_ascii c in
  if (65 <=? n)%nat && (n <=? 90)%nat then ascii_of_nat (n + 32) else c.

(** A literal word of the pattern, case-insensitively; the rest of the
    input after it. *)
Fixpoint word (w s : string) : option string :=
  match w, s with
  | EmptyString, _ => Some s
  | String _ _, EmptyString => None
  | String a w', String c s' =>
      if Ascii.eqb (fold_case a) (fold_case c) then word w' s' else None
  end.

(** The longest run of characters satisfying [p], and what follows. *)
Fixpoint span (p : ascii -> bool) (s : string) : string * string :=
  match s with
  | EmptyString => (EmptyString, EmptyString)
  | String c s' =>
      if p c then let (run, rest) := span p s' in (String c run, rest)
      else (EmptyString, s)
  end.

(** [class+]: one character at least. *)
Definition plus (p : ascii -> bool) (s : string) : option (string * string) :=
  match span p s with
  | (EmptyString, _) => None
  | (run, rest) => Some (run, rest)
  end.

Definition spaces (s : string) : option string :=
  option_map snd (plus is_space s).

Definition and_then {A B} (o : option A) (f : A -> option B) : option B :=
  match o with Some a => f a | None => None end.

(** The match starting exactly at the head of [s]: the two captured
    groups and the number of characters matched. *)
Definition match_here (s : string) : option (Package * nat) :=
  and_then (word "Package" s) (fun s1 =>
  and_then (spaces s1) (fun s2 =>
  and_then (plus (fun c => negb (is_space c)) s2) (fun '(g1, s3) =>
  and_then (spaces s3) (fun s4 =>
  and_then (plus is_version_char s4) (fun '(g2, s5) =>
  and_then (spaces s5) (fun s6 =>
  and_then (word "is" s6) (fun s7 =>
  and_then (spaces s7) (fun s8 =>
  and_then (word "not" s8) (fun s9 =>
  and_then (spaces s9) (fun s10 =>
  and_then (word "compatible" s10) (fun rest =>
  Some ({| id := g1; version := g2 |},
        String.length s - String.length rest)))))))))))).

(** The [while ((match = re.exec(text)) !== null)] loop of a global
    regular expression: the leftmost match from [lastIndex] on, then on
    from its end.  [inside] counts the characters of the previous match
    still to step over. *)
Fixpoint exec_all (inside : nat) (s : string) : list Package :=
  match inside, s with
  | S k, String _ s' => exec_all k s'
  | S _, EmptyString => []
  | 0, EmptyString => []
  | 0, String _ s' =>
      match match_here s with
      | Some (m, len) => m :: exec_all (len - 1) s'
      | None => exec_all 0 s'
      end
  end.

End Regex.

(** [function extractIncompatiblePackages(errorOutput)] *)
Definition extractIncompatiblePackages (errorOutput : string) : list Package :=
  Regex.exec_all 0 errorOutput.

(* ===================================================================== *)
(** ** The generated project descriptor *)
(* ===================================================================== *)

(** [function generatePackageReferences(packages)] *)
Definition generatePackageReferences (packages : list Package) : string :=
  Js.join Js.nl
    (map (fun pkg =>
            "    <PackageReference Include=" ++ Js.dquote ++ id pkg
            ++ Js.dquote ++ " Version=" ++ Js.dquote ++ version pkg
            ++ Js.dquote ++ " />")
         packages).

(** [function generateCsproj(packages, tfm, hasExplicitTfm)] *)
Definition generateCsproj (packages : list Package) (tfm : string)
    (hasExplicitTfm : bool) : string :=
  let packageRefs := generatePackageReferences packages in
  let properties :=
    "    <TargetFramework>" ++ tfm ++ "</TargetFramework>" ++ Js.nl
    ++ "    <RestorePackagesWithLockFile>true</RestorePackagesWithLockFile>" in
  let properties :=
    if hasExplicitTfm && Js.startsWith tfm "net4"
    then properties ++ Js.nl
         ++ "    <AssetTargetFallback>$(AssetTargetFallback);net40;net45;net46;net461;net462;net20</AssetTargetFallback>"
    else properties in
  "<Project Sdk=" ++ Js.dquote ++ "Microsoft.NET.Sdk" ++ Js.dquote ++ ">"
  ++ Js.nl ++ "  <PropertyGroup>"
  ++ Js.nl ++ properties
  ++ Js.nl ++ "  </PropertyGroup>"
  ++ Js.nl ++ "  <ItemGroup>"
  ++ Js.nl ++ packageRefs
  ++ Js.nl ++ "  </ItemGroup>"
  ++ Js.nl ++ "</Project>".

(* ===================================================================== *)
(** ** The manifest as the XML parser returns it *)
(* ===================================================================== *)

(** One [<package .../>] element: [pkg['@_id']], [pkg['@_version']],
    [pkg['@_targetFramework']]; [None] is [undefined]. *)
Record XmlNode := {
  attr_id : option string;
  attr_version : option string;
  attr_targetFramework : option string
}.

(** [result.packages.package]: falsy, one element, or an array. *)
Inductive PackageField :=
| PackageFalsy
| PackageSingle (pkg : XmlNode)
| PackageArray (pkgs : list XmlNode).

(** [result.packages]: falsy, or an object with its [package] field. *)
Inductive XmlResult :=
| PackagesFalsy
| PackagesObject (package : PackageField).

(** Truthiness of a value that is a string, [null] or [undefined]. *)
Definition truthy_opt (a : option string) : bool :=
  match a with Some s => Js.truthy s | None => false end.

(** [x || ''] for such a value, also [x?.toString() || '']. *)
Definition or_empty (o : option string) : string :=
  match o with Some s => s | None => EmptyString end.

(** What [parsePackagesConfig] returns: [{ packages, targetFramework }],
    [targetFramework] being [null] or a string. *)
Record ParsedConfig := {
  packages : list Package;
  targetFramework : option string
}.

(** The body of [for (const pkg of packageList)], on the two variables it
    updates. *)
Definition parse_step (acc : ParsedConfig) (pkg : XmlNode) : ParsedConfig :=
  if truthy_opt (attr_id pkg) && truthy_opt (attr_version pkg) then
    let packages' :=
      (packages acc ++ [ {| id := or_empty (attr_id pkg);
                            version := or_empty (attr_version pkg) |} ])%list in
    if negb (truthy_opt (targetFramework acc))
       && truthy_opt (attr_targetFramework pkg)
    then
      let tf := or_empty (attr_targetFramework pkg) in
      let tf :=
        if Js.startsWith tf "netframework"
        then "net" ++ Js.remove_all "." (Js.replace tf "netframework" EmptyString)
        else tf in
      {| packages := packages'; targetFramework := Some tf |}
    else {| packages := packages'; targetFramework := targetFramework acc |}
  else acc.

(** [Array.isArray(x) ? x : [x]] *)
Definition packageList (f : PackageField) : list XmlNode :=
  match f with
  | PackageFalsy => []
  | PackageSingle pkg => [pkg]
  | PackageArray pkgs => pkgs
  end.

(** The part of [parsePackagesConfig] that follows [parser.parse(xml)]. *)
Definition collectPackages (result : XmlResult) : ParsedConfig :=
  let start := {| packages := []; targetFramework := None |} in
  match result with
  | PackagesFalsy => start
  | PackagesObject PackageFalsy => start
  | PackagesObject f => fold_left parse_step (packageList f) start
  end.

(* ===================================================================== *)
(** ** Effects: errors, the trace of operations, and the world *)
(* ===================================================================== *)

(** A thrown JavaScript error.  [execFileSync] attaches the captured
    [stdout] and [stderr] buffers to the error it throws; [None] is a
    field that is [null] or [undefined]. *)
Record JsError := {
  message : string;
  stdout : option string;
  stderr : option string
}.

(** [new Error(msg)] *)
Definition Error (msg : string) : JsError :=
  {| message := msg; stdout := None; stderr := None |}.

(** Everything the script does to the outside, in the order it does it.
    An operation is recorded when it is started, whether or not it then
    fails. *)
Inductive Event :=
| ConsoleLog (line : string)
| ConsoleError (line : string)
| Readdir (dir : string)
| Stat (path : string)
| Access (path : string)
| ReadFile (path : string)
| Mkdtemp (prefix : string)
| WriteFile (path : string) (data : string)
| CopyFile (src dst : string)
| Rm (path : string)
| ExecFile (file : string) (args : list string) (cwd : option string).

(** A resolver invocation is a run of [dotnet restore ...]. *)
Definition is_restore (e : Event) : bool :=
  match e with
  | ExecFile file (arg :: _) _ =>
      String.eqb file "dotnet" && String.eqb arg "restore"
  | _ => false
  end.

Definition restore_count (t : list Event) : nat :=
  List.length (filter is_restore t).

(** Reading a file. *)
Definition is_read (e : Event) : bool :=
  match e with ReadFile _ => true | _ => false end.

(** A computation that records events and ends either normally ([inr])
    or abruptly ([inl]): with a thrown error, or with an exit status. *)
Definition Eff (X A : Type) : Type := (list Event * (X + A))%type.

Definition ret {X A} (a : A) : Eff X A := ([], inr a).
Definition abort {X A} (x : X) : Eff X A := ([], inl x).

Definition bind {X A B} (m : Eff X A) (k : A -> Eff X B) : Eff X B :=
  match m with
  | (t, inl x) => (t, inl x)
  | (t, inr a) => let (t', r) := k a in ((t ++ t')%list, r)
  end.

Declare Scope eff_scope.
Delimit Scope eff_scope with eff.
Notation "x <- m ;; k" := (bind m (fun x => k))
  (at level 100, m at next level, right associativity) : eff_scope.
Notation "m ;; k" := (bind m (fun _ => k))
  (at level 100, right associativity) : eff_scope.
Open Scope eff_scope.

(** [try { m } catch (err) { h err }] *)
Definition try_catch {X Y A} (m : Eff X A) (h : X -> Eff Y A) : Eff Y A :=
  match m with
  | (t, inl x) => let (t', r) := h x in ((t ++ t')%list, r)
  | (t, inr a) => (t, inr a)
  end.

(** [try { m } finally { f }]: an error thrown by [f] replaces the
    completion of [m]. *)
Definition try_finally {X A} (m : Eff X A) (f : Eff X unit) : Eff X A :=
  let (t, r) := m in
  match f with
  | (t', inl x) => ((t ++ t')%list, inl x)
  | (t', inr _) => ((t ++ t')%list, r)
  end.

(** A [try/catch] whose handler ends normally leaves nothing thrown. *)
Definition catch_all {X A} (m : Eff X A) (h : X -> list Event * A)
  : list Event * A :=
  match m with
  | (t, inl x) => let (t', a) := h x in ((t ++ t')%list, a)
  | (t, inr a) => (t, a)
  end.

(** A computation that cannot end abruptly, inside one that can. *)
Definition lift {X A} (m : list Event * A) : Eff X A :=
  let (t, a) := m in (t, inr a).

(** Events followed by a computation that cannot end abruptly. *)
Definition after {A} (t : list Event) (m : list Event * A) : list Event * A :=
  let (t', a) := m in ((t ++ t')%list, a).

Definition emit {X} (e : Event) : Eff X unit := ([e], inr tt).
Definition console_log {X} (line : string) : Eff X unit := emit (ConsoleLog line).
Definition console_error {X} (line : string) : Eff X unit :=
  emit (ConsoleError line).

(** An operation of the file system or a child process: its event, then
    the answer the world has for it. *)
Definition perform {A} (e : Event) (answer : JsError + A) : Eff JsError A :=
  ([e], answer).

Definition answer_of (failure : option JsError) : JsError + unit :=
  match failure with Some err => inl err | None => inr tt end.

(** [process.exit(code)] *)
Definition process_exit {A} (code : nat) : Eff nat A := abort code.

(** The functions of Node's [path] and [os] modules and of the XML parser
    that the script calls.  [path.join] never returns the empty string (an
    empty result is rendered as a dot). *)
Record NodeApi := {
  path_join : list string -> string;
  path_dirname : string -> string;
  path_basename : string -> string;
  path_resolve : string -> string;
  os_tmpdir : string;
  xml_parse : string -> JsError + XmlResult;
  path_join_truthy : forall parts, Js.truthy (path_join parts) = true
}.

(** [fs.Dirent]: the entry's name and whether it is a regular file. *)
Record Dirent := { name : string; isFile : bool }.

(** What the operations on behalf of one manifest answer.  [None] for an
    operation that may fail means it succeeds.  The generated descriptor is
    written and restored once per attempt; the world answers by the number
    of the attempt and the text of the descriptor. *)
Record ManifestWorld := {
  readdir : JsError + list Dirent;
  restore_existing : option JsError;
  copy_lock : option JsError;
  copy_obj_lock : option JsError;
  readFile : JsError + string;
  mkdtemp : JsError + string;
  writeFile : nat -> string -> option JsError;
  restore_generated : nat -> string -> option JsError;
  copy_generated_lock : option JsError;
  rm : option JsError
}.

(** [{ success, skippedPackages }] *)
Record Result := { success : bool; skippedPackages : list Package }.

Definition failed : Result := {| success := false; skippedPackages := [] |}.
Definition succeeded : Result := {| success := true; skippedPackages := [] |}.

(** The variables of the narrowing loop. *)
Module Vars.
Record t := {
  compatiblePackages : list Package;
  skippedPackages : list Package;
  retryCount : nat;
  restoreSuccess : bool;
  lastError : option JsError
}.
End Vars.

(** How an iteration of the loop ends. *)
Inductive Control := Continue | Break.

(** [const maxRetries = 20; // Prevent infinite loops] *)
Definition maxRetries : nat := 20.

(** The callback of [incompatible.some(...)]. *)
Definition same_package (pkg incomp : Package) : bool :=
  String.eqb (Js.toLowerCase (id incomp)) (Js.toLowerCase (id pkg))
  && String.eqb (normalizeVersion (version incomp))
                (normalizeVersion (version pkg)).

(** The callback of [compatiblePackages.filter(...)]. *)
Definition still_compatible (incompatible : list Package) (pkg : Package)
  : bool :=
  negb (existsb (same_package pkg) incompatible).

(** [skippedPackages.map(p => `${p.id}@${p.version}`).join(', ')] *)
Definition at_version (p : Package) : string := id p ++ "@" ++ version p.
Definition skippedList (skipped : list Package) : string :=
  Js.join ", " (map at_version skipped).

(** [if (x) console.error(x.toString())] for a buffer [x]: an empty buffer
    is an object, hence truthy, and prints an empty line. *)
Definition print_buffer {X} (o : option string) : Eff X unit :=
  match o with Some s => console_error s | None => ret tt end.

(** [const x = b?.toString(); if (x) console.error(x)]: here the test is
    on the string, and an empty one prints nothing. *)
Definition print_text {X} (o : option string) : Eff X unit :=
  match o with
  | Some s => if Js.truthy s then console_error s else ret tt
  | None => ret tt
  end.

(* ===================================================================== *)
(** ** The compatibility-narrowing loop *)
(* ===================================================================== *)

Section Narrowing.

Variable api : NodeApi.
Variable w : ManifestWorld.
Variables (csprojPath workdir tfm : string).
Variables (hasExplicitTfm failOnSkipped : bool).

(** [retryCount < maxRetries && compatiblePackages.length > 0] *)
Definition loop_cond (v : Vars.t) : bool :=
  (Vars.retryCount v <? maxRetries)%nat
  && (0 <? List.length (Vars.compatiblePackages v))%nat.

(** The [catch (err)] clause of the loop body, entered with the
    variables as they are when the error is thrown. *)
Definition catch_block (v : Vars.t) (err : JsError)
  : list Event * (Control * Vars.t) :=
  let errorOutput := or_empty (stdout err) ++ or_empty (stderr err) in
  let shown :=
    if negb (Js.truthy errorOutput) && Js.truthy (message err)
    then [ConsoleError ("  Error: " ++ message err)] else [] in
  let break_with compatible :=
    (shown,
     (Break,
      {| Vars.compatiblePackages := compatible;
         Vars.skippedPackages := Vars.skippedPackages v;
         Vars.retryCount := Vars.retryCount v;
         Vars.restoreSuccess := Vars.restoreSuccess v;
         Vars.lastError := Some err |})) in
  if Js.includes errorOutput "NU1202" then
    let incompatible := extractIncompatiblePackages errorOutput in
    if (0 <? List.length incompatible)%nat then
      let beforeCount := List.length (Vars.compatiblePackages v) in
      let compatible :=
        filter (still_compatible incompatible) (Vars.compatiblePackages v) in
      if (List.length compatible <? beforeCount)%nat then
        (shown,
         (Continue,
          {| Vars.compatiblePackages := compatible;
             Vars.skippedPackages :=
               (Vars.skippedPackages v ++ incompatible)%list;
             Vars.retryCount := S (Vars.retryCount v);
             Vars.restoreSuccess := Vars.restoreSuccess v;
             Vars.lastError := Some err |}))
      else break_with compatible
    else break_with (Vars.compatiblePackages v)
  else break_with (Vars.compatiblePackages v).

(** The two operations of one attempt: write the descriptor, run the
    resolver on it. *)
Definition attempt (v : Vars.t) : Eff JsError unit :=
  let descriptor :=
    generateCsproj (Vars.compatiblePackages v) tfm hasExplicitTfm in
  perform (WriteFile csprojPath descriptor)
          (answer_of (writeFile w (Vars.retryCount v) descriptor)) ;;
  perform (ExecFile "dotnet"
             ["restore"; csprojPath; "--use-lock-file"; "--force-evaluate"]
             (Some workdir))
          (answer_of (restore_generated w (Vars.retryCount v) descriptor)).

(** One iteration of the [while] loop: the [try] block, and the [catch]
    clause for whatever it throws, the error raised under
    [failOnSkipped] included since it is thrown inside the same [try]. *)
Definition loop_body (v : Vars.t) : list Event * (Control * Vars.t) :=
  match attempt v with
  | (t, inl err) => after t (catch_block v err)
  | (t, inr _) =>
      let v1 :=
        {| Vars.compatiblePackages := Vars.compatiblePackages v;
           Vars.skippedPackages := Vars.skippedPackages v;
           Vars.retryCount := Vars.retryCount v;
           Vars.restoreSuccess := true;
           Vars.lastError := Vars.lastError v |} in
      if (0 <? List.length (Vars.skippedPackages v))%nat then
        let names := skippedList (Vars.skippedPackages v) in
        let warning :=
          ConsoleLog ("  Warning: Skipped "
                      ++ Js.of_nat (List.length (Vars.skippedPackages v))
                      ++ " incompatible package(s): " ++ names) in
        if failOnSkipped then
          after (t ++ [warning])
                (catch_block v1 (Error ("Packages were skipped: " ++ names)))
        else ((t ++ [warning])%list, (Break, v1))
      else (t, (Break, v1))
  end.

(** [while (retryCount < maxRetries && compatiblePackages.length > 0)]:
    every iteration that continues has counted one more retry, which is
    what makes the loop end. *)
Equations? while_loop (v : Vars.t) : list Event * Vars.t
  by wf (maxRetries - Vars.retryCount v) lt :=
  while_loop v with inspect (loop_cond v) := {
    | exist _ true Hcond with inspect (loop_body v) := {
        | exist _ (pair t (pair Continue v')) Hbody => after t (while_loop v')
        | exist _ (pair t (pair Break v')) Hbody => (t, v') };
    | exist _ false Hcond => ([], v) }.
Proof.
  assert (Hlt : Vars.retryCount v < maxRetries).
  { unfold loop_cond in Hcond. apply andb_prop in Hcond.
    destruct Hcond as [Hr _]. now apply Nat.ltb_lt in Hr. }
  assert (Hnext : Vars.retryCount v' = S (Vars.retryCount v)).
  { clear while_loop Hcond Hlt. unfold loop_body in Hbody.
    assert (Hcatch : forall u e s r,
               catch_block u e = (s, (Continue, r)) ->
               Vars.retryCount r = S (Vars.retryCount u)).
    { intros u e s r. unfold catch_block.
      repeat match goal with
             | |- context [if ?b then _ else _] => destruct b
             end; intros H; inversion H; reflexivity. }
    destruct (attempt v) as [t0 [err | []]].
    - unfold after in Hbody. destruct (catch_block v err) as [s [c r]] eqn:E.
      injection Hbody as _ Hc Hr. subst c r. exact (Hcatch _ _ _ _ E).
    - repeat match type of Hbody with
             | context [if ?b then _ else _] => destruct b
             end; discriminate. }
  change (maxRetries - Vars.retryCount v' < maxRetries - Vars.retryCount v).
  lia.
Qed.

(** The statements after the loop, up to the [return]. *)
Definition after_loop (lockFilePath : string) (v : Vars.t)
  : Eff JsError Result :=
  if negb (Vars.restoreSuccess v) then
    console_error "  Error: dotnet restore failed:" ;;
    match Vars.lastError v with
    | None => abort (Error "Cannot read properties of null (reading 'stdout')")
    | Some lastError =>
        print_buffer (stdout lastError) ;;
        print_buffer (stderr lastError) ;;
        ret {| success := false;
               skippedPackages := Vars.skippedPackages v |}
    end
  else
    perform (CopyFile (path_join api [workdir; "packages.lock.json"])
                      lockFilePath)
            (answer_of (copy_generated_lock w)) ;;
    console_log ("  ✓ Generated: " ++ lockFilePath) ;;
    ret {| success := true; skippedPackages := Vars.skippedPackages v |}.

(** The variables as they are initialised before the loop. *)
Definition initial (packages : list Package) : Vars.t :=
  {| Vars.compatiblePackages := packages;
     Vars.skippedPackages := [];
     Vars.retryCount := 0;
     Vars.restoreSuccess := false;
     Vars.lastError := None |}.

End Narrowing.

(* ===================================================================== *)
(** ** Processing one manifest *)
(* ===================================================================== *)

Section Processing.

Variable api : NodeApi.
Variable w : ManifestWorld.

(** [e => e.isFile() && e.name.endsWith('.csproj')] *)
Definition is_csproj (e : Dirent) : bool :=
  isFile e && Js.endsWith (name e) ".csproj".

(** [entries.filter(e => e.isFile() && e.name.endsWith('.csproj'))
           .map(e => path.join(dir, e.name))] *)
Definition csprojFiles (dir : string) (entries : list Dirent) : list string :=
  map (fun e => path_join api [dir; name e]) (filter is_csproj entries).

(** [async function findCsprojFile(dir)]; [None] is [null]. *)
Definition findCsprojFile (dir : string) : Eff JsError (option string) :=
  try_catch
    (entries <- perform (Readdir dir) (readdir w) ;;
     let files := csprojFiles dir entries in
     match files with
     | [] => ret None
     | [only] => ret (Some only)
     | _ :: _ :: _ =>
         abort (Error ("Multiple .csproj files found in " ++ dir ++ ": "
                       ++ Js.join ", " (map (path_basename api) files)))
     end)
    (fun err =>
       if Js.includes (message err) "Multiple .csproj files"
       then abort err else ret None).

(** [async function parsePackagesConfig(packagesConfigPath)] *)
Definition parsePackagesConfig (packagesConfigPath : string)
  : Eff JsError ParsedConfig :=
  xml <- perform (ReadFile packagesConfigPath) (readFile w) ;;
  try_catch
    (result <- ([], xml_parse api xml) ;;
     ret (collectPackages result))
    (fun err =>
       abort (Error ("Failed to parse packages.config: " ++ message err))).

(** The branch [if (existingCsproj) { ... }]. *)
Definition use_existing (dir lockFilePath existingCsproj : string)
  : Eff JsError Result :=
  console_log ("  Using existing .csproj: "
               ++ path_basename api existingCsproj) ;;
  try_catch
    (perform (ExecFile "dotnet"
                ["restore"; existingCsproj; "--use-lock-file";
                 "--force-evaluate"]
                (Some dir))
             (answer_of (restore_existing w)) ;;
     let lockPath := path_join api [dir; "packages.lock.json"] in
     let objLockPath := path_join api [dir; "obj"; "packages.lock.json"] in
     try_catch
       (perform (CopyFile lockPath lockFilePath) (answer_of (copy_lock w)) ;;
        console_log ("  ✓ Lock file already exists: " ++ lockFilePath) ;;
        ret succeeded)
       (fun _ =>
          try_catch
            (perform (CopyFile objLockPath lockFilePath)
                     (answer_of (copy_obj_lock w)) ;;
             console_log ("  ✓ Generated: " ++ lockFilePath) ;;
             ret succeeded)
            (fun _ =>
               console_log "  Warning: Lock file not found after restore" ;;
               ret failed)))
    (fun err =>
       console_error "  Error: dotnet restore failed:" ;;
       print_text (stdout err) ;;
       print_text (stderr err) ;;
       ret failed).

(** The fallback: a temporary descriptor generated from the manifest. *)
Definition generate_and_restore
    (packagesConfigPath lockFilePath defaultTfm : string)
    (failOnSkipped : bool) : Eff JsError Result :=
  parsed <- parsePackagesConfig packagesConfigPath ;;
  if (List.length (packages parsed) =? 0)%nat then
    console_log "  Warning: No packages found, skipping" ;;
    ret failed
  else
    let explicit := truthy_opt (targetFramework parsed) in
    let tfm :=
      if explicit then or_empty (targetFramework parsed) else defaultTfm in
    (if explicit && negb (String.eqb tfm defaultTfm)
     then console_log ("  Using targetFramework from packages.config: " ++ tfm)
     else ret tt) ;;
    workdir <- perform (Mkdtemp (path_join api [os_tmpdir api; "convert-nuget-"]))
                       (mkdtemp w) ;;
    let csprojPath := path_join api [workdir; "TempLockProject.csproj"] in
    let hasExplicitTfm :=
      match targetFramework parsed with Some _ => true | None => false end in
    try_finally
      (v <- lift (while_loop w csprojPath workdir tfm hasExplicitTfm
                             failOnSkipped (initial (packages parsed))) ;;
       after_loop api w workdir lockFilePath v)
      (perform (Rm workdir) (answer_of (rm w))).

(** [async function processPackagesConfig(packagesConfigPath, defaultTfm,
    failOnSkipped = false)] *)
Definition processPackagesConfig
    (packagesConfigPath defaultTfm : string) (failOnSkipped : bool)
  : list Event * Result :=
  let lockFilePath :=
    path_join api [path_dirname api packagesConfigPath; "packages.lock.json"] in
  after [ConsoleLog ("Processing: " ++ packagesConfigPath)]
    (catch_all
       (let dir := path_dirname api packagesConfigPath in
        found <- try_catch
                   (existingCsproj <- findCsprojFile dir ;;
                    ret (inr existingCsproj))
                   (fun err =>
                      if Js.includes (message err) "Multiple .csproj files"
                      then console_error ("  Error: " ++ message err) ;;
                           ret (inl failed)
                      else abort err) ;;
        match found with
        | inl early => ret early
        | inr existingCsproj =>
            if truthy_opt existingCsproj
            then use_existing dir lockFilePath (or_empty existingCsproj)
            else generate_and_restore packagesConfigPath lockFilePath
                                      defaultTfm failOnSkipped
        end)
       (fun err =>
          if failOnSkipped && Js.includes (message err) "Packages were skipped"
          then ([ConsoleError ("  Error: " ++ message err)], failed)
          else ([ConsoleError ("  Error: " ++ message err)], failed))).

End Processing.

(* ===================================================================== *)
(** ** The command line and the run over a directory tree *)
(* ===================================================================== *)

(** [const DEFAULT_TFM = 'net472';] *)
Definition DEFAULT_TFM : string := "net472".

(** [{ tfm, rootDir, failOnSkipped }] *)
Record Args := { tfm : string; rootDir : string; failOnSkipped : bool }.

Definition usage : string :=
  "Usage: convert-nuget.js [--tfm <TFM>] [--root <DIR>] [--fail-on-skipped]"
  ++ Js.nl ++ Js.nl
  ++ "Recursively finds all packages.config files starting from the current directory"
  ++ Js.nl
  ++ "(or --root if specified) and generates a packages.lock.json next to each one."
  ++ Js.nl ++ Js.nl
  ++ "Options:" ++ Js.nl
  ++ "  --tfm <TFM>            Target framework moniker (default: "
  ++ DEFAULT_TFM ++ ")" ++ Js.nl
  ++ "  --root <DIR>           Root directory to search (default: current working directory)"
  ++ Js.nl
  ++ "  --fail-on-skipped      Exit with error code if any packages are skipped"
  ++ Js.nl
  ++ "  -h, --help             Show this help message".

(** The [for]/[switch] of [parseArgs] over the arguments still to read. *)
Fixpoint parseArgs_from (args : list string) (acc : Args) : Eff nat Args :=
  match args with
  | [] => ret acc
  | arg :: rest =>
      if String.eqb arg "--tfm" then
        match rest with
        | value :: rest' =>
            if Js.truthy value then
              parseArgs_from rest'
                {| tfm := value; rootDir := rootDir acc;
                   failOnSkipped := failOnSkipped acc |}
            else console_error "Error: --tfm requires a value" ;;
                 process_exit 2
        | [] => console_error "Error: --tfm requires a value" ;;
                process_exit 2
        end
      else if String.eqb arg "--root" then
        match rest with
        | value :: rest' =>
            if Js.truthy value then
              parseArgs_from rest'
                {| tfm := tfm acc; rootDir := value;
                   failOnSkipped := failOnSkipped acc |}
            else console_error "Error: --root requires a value" ;;
                 process_exit 2
        | [] => console_error "Error: --root requires a value" ;;
                process_exit 2
        end
      else if String.eqb arg "--fail-on-skipped" then
        parseArgs_from rest
          {| tfm := tfm acc; rootDir := rootDir acc; failOnSkipped := true |}
      else if String.eqb arg "-h" || String.eqb arg "--help" then
        console_log usage ;; process_exit 0
      else
        console_error ("Error: Unknown option: " ++ arg) ;; process_exit 2
  end.

(** [function parseArgs()], on [process.argv.slice(2)] and
    [process.cwd()]. *)
Definition parseArgs (argv : list string) (cwd : string) : Eff nat Args :=
  parseArgs_from argv
    {| tfm := DEFAULT_TFM; rootDir := cwd; failOnSkipped := false |}.

(** A directory entry of the tree that is searched: a directory with its
    listing ([None] when it cannot be read), or anything else. *)
#[local] Unset Elimination Schemes.
Inductive Entry :=
| DirectoryEntry (entry_name : string) (listing : option (list Entry))
| OtherEntry (entry_name : string).
#[local] Set Elimination Schemes.

(** What the run sees outside the manifests' own directories. *)
Record MainWorld := {
  argv : list string;
  cwd : string;
  HOME : option string;
  DOTNET_ROOT : option string;
  stat_isDirectory : JsError + bool;
  access : string -> option JsError;
  dotnet_version : string -> option JsError;
  root_listing : option (list Entry);
  world_of : string -> ManifestWorld
}.

(** The counters of [main]. *)
Record Tally := {
  successCount : nat;
  failCount : nat;
  totalSkippedPackages : list Package
}.

(** [map.set(key, value)] on a [Map] kept in insertion order. *)
Fixpoint map_set (m : list (string * Package)) (key : string) (value : Package)
  : list (string * Package) :=
  match m with
  | [] => [(key, value)]
  | (k, old) :: rest =>
      if String.eqb k key then (k, value) :: rest
      else (k, old) :: map_set rest key value
  end.

(** [Array.from(new Map(total.map(p => [`${p.id}@${p.version}`, p])).values())] *)
Definition uniqueSkipped (total : list Package) : list Package :=
  map snd (fold_left (fun m p => map_set m (at_version p) p) total []).

Section Run.

Variable api : NodeApi.
Variable mw : MainWorld.

(** The [try] block of [walk(dir)] once [fs.readdir(dir)] has answered:
    the entries in order, a directory walked through at once; a listing
    that cannot be read is skipped silently. *)
Definition walk_listing (walk_entry : Entry -> list Event * list string)
    (dir : string) (listing : option (list Entry))
  : list Event * list string :=
  match listing with
  | None => ([Readdir dir], [])
  | Some entries =>
      let found := map walk_entry entries in
      (Readdir dir :: concat (map fst found), concat (map snd found))
  end.

(** The body of [for (const entry of entries)] in the walk of [dir]. *)
Fixpoint walk_entry (dir : string) (entry : Entry)
  : list Event * list string :=
  match entry with
  | DirectoryEntry n listing =>
      let fullPath := path_join api [dir; n] in
      walk_listing (walk_entry fullPath) fullPath listing
  | OtherEntry n =>
      let fullPath := path_join api [dir; n] in
      ([], if String.eqb n "packages.config" then [fullPath] else [])
  end.

(** [async function findPackagesConfigFiles(rootDir)] *)
Definition findPackagesConfigFiles (rootDir : string)
  : list Event * list string :=
  walk_listing (walk_entry rootDir) rootDir (root_listing mw).

(** The paths tried for the [dotnet] program:
    [[DOTNET_ROOT && path.join(DOTNET_ROOT, 'dotnet'), ...].filter(Boolean)] *)
Definition commonPaths : list string :=
  map or_empty
    (filter truthy_opt
       [ (if truthy_opt (DOTNET_ROOT mw)
          then Some (path_join api [or_empty (DOTNET_ROOT mw); "dotnet"])
          else DOTNET_ROOT mw);
         Some "/usr/bin/dotnet";
         Some "/usr/local/bin/dotnet";
         Some "/usr/share/dotnet/dotnet" ]).

(** [for (const testPath of commonPaths) { try { ...; dotnetFound = true;
    break; } catch { continue; } }], giving [dotnetFound]. *)
Fixpoint probe (paths : list string) : list Event * bool :=
  match paths with
  | [] => ([], false)
  | testPath :: rest =>
      match (perform (Access testPath) (answer_of (access mw testPath)) ;;
             perform (ExecFile testPath ["--version"] None)
                     (answer_of (dotnet_version mw testPath))) with
      | (t, inr _) => (t, true)
      | (t, inl _) => after t (probe rest)
      end
  end.

(** The body of [for (const packagesConfig of packagesConfigFiles)] on
    the counters. *)
Definition count (acc : Tally) (result : Result) : Tally :=
  {| successCount :=
       if success result then S (successCount acc) else successCount acc;
     failCount :=
       if success result then failCount acc else S (failCount acc);
     totalSkippedPackages :=
       if (0 <? List.length (skippedPackages result))%nat
       then (totalSkippedPackages acc ++ skippedPackages result)%list
       else totalSkippedPackages acc |}.

(** The loop over the manifests found, one after the other. *)
Fixpoint process_all (tfm : string) (failOnSkipped : bool)
    (files : list string) (acc : Tally) : list Event * Tally :=
  match files with
  | [] => ([], acc)
  | packagesConfig :: rest =>
      let (t, result) :=
        processPackagesConfig api (world_of mw packagesConfig)
                              packagesConfig tfm failOnSkipped in
      after t (process_all tfm failOnSkipped rest (count acc result))
  end.

Definition no_tally : Tally :=
  {| successCount := 0; failCount := 0; totalSkippedPackages := [] |}.

(** The lines printed under [Summary:]. *)
Definition summary (args : Args) (found : nat) (tally : Tally)
  : list Event :=
  [ ConsoleLog EmptyString;
    ConsoleLog "Summary:";
    ConsoleLog ("  Found: " ++ Js.of_nat found ++ " packages.config file(s)");
    ConsoleLog ("  Success: " ++ Js.of_nat (successCount tally));
    ConsoleLog ("  Failed: " ++ Js.of_nat (failCount tally)) ]
  ++ (if (0 <? List.length (totalSkippedPackages tally))%nat then
        let unique := uniqueSkipped (totalSkippedPackages tally) in
        ConsoleLog ("  Skipped packages: " ++ Js.of_nat (List.length unique)
                    ++ " unique package(s)")
        :: (if failOnSkipped args
            then [ConsoleLog ("  Skipped: " ++ skippedList unique)]
            else [])
      else [])%list.

(** The exit at the end of [main], after the summary. *)
Definition final_exit (args : Args) (tally : Tally) : Eff nat unit :=
  (if (0 <? failCount tally)%nat then process_exit 1 else ret tt) ;;
  (if failOnSkipped args
      && (0 <? List.length (totalSkippedPackages tally))%nat
   then process_exit 2 else ret tt).

(** [async function main()]; ending abruptly is [process.exit(code)]. *)
Definition main_body : Eff nat unit :=
  args <- parseArgs (argv mw) (cwd mw) ;;
  let resolvedRootDir := path_resolve api (rootDir args) in
  (if Js.includes resolvedRootDir ".."
      || (Js.includes resolvedRootDir "~"
          && negb (Js.startsWith resolvedRootDir (or_empty (HOME mw))))
   then console_error ("Error: Invalid root directory path: "
                       ++ resolvedRootDir) ;;
        process_exit 1
   else ret tt) ;;
  emit (Stat resolvedRootDir) ;;
  match stat_isDirectory mw with
  | inr true => ret tt
  | inr false =>
      console_error ("Error: Root directory is not a directory: "
                     ++ resolvedRootDir) ;;
      process_exit 1
  | inl _ =>
      console_error ("Error: Root directory does not exist: "
                     ++ resolvedRootDir) ;;
      process_exit 1
  end ;;
  dotnetFound <- lift (probe commonPaths) ;;
  (if negb dotnetFound then
     emit (ExecFile "dotnet" ["--version"] None) ;;
     match dotnet_version mw "dotnet" with
     | None => ret tt
     | Some _ =>
         console_error "Error: dotnet CLI is required but not installed" ;;
         process_exit 1
     end
   else ret tt) ;;
  console_log "=== NuGet packages.config to packages.lock.json Converter ===" ;;
  console_log ("Root directory: " ++ resolvedRootDir) ;;
  console_log ("Target Framework: " ++ tfm args) ;;
  console_log "Searching for packages.config files..." ;;
  console_log EmptyString ;;
  packagesConfigFiles <- lift (findPackagesConfigFiles resolvedRootDir) ;;
  tally <- lift (process_all (tfm args) (failOnSkipped args)
                             packagesConfigFiles no_tally) ;;
  (if (List.length packagesConfigFiles =? 0)%nat
   then console_log ("No packages.config files found in: " ++ resolvedRootDir)
   else ret tt) ;;
  lift (summary args (List.length packagesConfigFiles) tally, tt) ;;
  final_exit args tally.

(** The run of the script: what it does and the status it exits with. *)
Definition main : list Event * nat :=
  match main_body with
  | (t, inl code) => (t, code)
  | (t, inr _) => (t, 0)
  end.

End Run.

(* ===================================================================== *)
(** ** Vocabulary of the properties *)
(* ===================================================================== *)

Section Runs.

Variable w : ManifestWorld.
Variables (csprojPath workdir tfm : string).
Variables (hasExplicitTfm failOnSkipped : bool).

Let body := loop_body w csprojPath workdir tfm hasExplicitTfm failOnSkipped.

(** A finished execution of the [while] loop from given variables: the
    events of its iterations and the variables it leaves. *)
Inductive runs : Vars.t -> list Event -> Vars.t -> Prop :=
| runs_exit v :
    loop_cond v = false -> runs v [] v
| runs_break v t v' :
    loop_cond v = true -> body v = (t, (Break, v')) -> runs v t v'
| runs_continue v t v1 t' v' :
    loop_cond v = true -> body v = (t, (Continue, v1)) ->
    runs v1 t' v' -> runs v (t ++ t')%list v'.

(** The variables at the head of some iteration of the loop started on
    the candidate set [original]. *)
Inductive at_loop_head (original : list Package) : Vars.t -> Prop :=
| head_first : at_loop_head original (initial original)
| head_next v t v' :
    at_loop_head original v -> loop_cond v = true ->
    body v = (t, (Continue, v')) -> at_loop_head original v'.

End Runs.

(** [l] is [m] with some elements removed, the others in their order. *)
Inductive Subsequence {A} : list A -> list A -> Prop :=
| sub_nil : Subsequence [] []
| sub_keep x l m : Subsequence l m -> Subsequence (x :: l) (x :: m)
| sub_drop x l m : Subsequence l m -> Subsequence l (x :: m).

(** The candidates are the original ones that no entry of the skip list
    matches. *)
Definition narrowed (original : list Package) (v : Vars.t) : Prop :=
  Vars.compatiblePackages v
  = filter (still_compatible (Vars.skippedPackages v)) original.

(** Two states of the loop variables that differ at most in [lastError],
    and only once a restore has succeeded, when [lastError] is no longer
    looked at. *)
Definition alike (v v' : Vars.t) : Prop :=
  Vars.compatiblePackages v = Vars.compatiblePackages v'
  /\ Vars.skippedPackages v = Vars.skippedPackages v'
  /\ Vars.retryCount v = Vars.retryCount v'
  /\ Vars.restoreSuccess v = Vars.restoreSuccess v'
  /\ (Vars.restoreSuccess v = false -> Vars.lastError v = Vars.lastError v').

(** The text the [catch] clause of the loop searches:
    [stdout + stderr]. *)
Definition errorOutput (err : JsError) : string :=
  or_empty (stdout err) ++ or_empty (stderr err).

(** The line the [catch] clause of the loop prints when the error has no
    output of its own. *)
Definition message_line (err : JsError) : list Event :=
  if negb (Js.truthy (errorOutput err)) && Js.truthy (message err)
  then [ConsoleError ("  Error: " ++ message err)] else [].

(** The lines [print_buffer] shows for the buffers of an error. *)
Definition buffer_lines (err : JsError) : list Event :=
  (match stdout err with Some s => [ConsoleError s] | None => [] end
   ++ match stderr err with Some s => [ConsoleError s] | None => [] end)%list.

(** The entries of a manifest that become candidates. *)
Definition is_candidate (pkg : XmlNode) : bool :=
  truthy_opt (attr_id pkg) && truthy_opt (attr_version pkg).

Definition candidate_of (pkg : XmlNode) : Package :=
  {| id := or_empty (attr_id pkg); version := or_empty (attr_version pkg) |}.

(* ===================================================================== *)
(** ** Concrete worlds *)
(* ===================================================================== *)

Module Example.

(** POSIX paths without dots to resolve. *)
Definition join (parts : list string) : string :=
  match Js.join "/" parts with EmptyString => "." | s => s end.

Lemma join_truthy parts : Js.truthy (join parts) = true.
Proof. unfold join. destruct (Js.join "/" parts); reflexivity. Qed.

(** An interface whose XML parser answers [parsed] for the text [xml]
    and rejects any other text. *)
Definition api (xml : string) (parsed : XmlResult) : NodeApi :=
  {| path_join := join;
     path_dirname := fun p => Js.join "/" (removelast (Js.split "/" p));
     path_basename := fun p => last (Js.split "/" p) EmptyString;
     path_resolve := fun p => p;
     os_tmpdir := "/tmp";
     xml_parse := fun text =>
       if String.eqb text xml then inr parsed
       else inl (Error "Unexpected end of input");
     path_join_truthy := join_truthy |}.

Definition node (i v : string) : XmlNode :=
  {| attr_id := Some i; attr_version := Some v;
     attr_targetFramework := None |}.

Definition A1 : Package := {| id := "A"; version := "1.0" |}.
Definition B2 : Package := {| id := "B"; version := "2.0" |}.
Definition C3 : Package := {| id := "C"; version := "3.0" |}.

Definition manifest_text : string :=
  "<packages><package id='A' version='1.0' /><package id='B' version='2.0' /></packages>".
Definition manifest : XmlResult :=
  PackagesObject (PackageArray [node "A" "1.0"; node "B" "2.0"]).

Definition restore_error (out : string) : JsError :=
  {| message := "Command failed: dotnet restore";
     stdout := Some out; stderr := Some EmptyString |}.

(** A directory holding only a manifest, where everything works but the
    resolver, which answers from [responses] attempt after attempt and
    succeeds once they are used up. *)
Definition world (entries : list Dirent) (text : string)
    (responses : list (option JsError)) : ManifestWorld :=
  {| readdir := inr entries;
     restore_existing := None;
     copy_lock := None;
     copy_obj_lock := None;
     readFile := inr text;
     mkdtemp := inr "/tmp/convert-nuget-Xa1";
     writeFile := fun _ _ => None;
     restore_generated := fun n _ => nth n responses None;
     copy_generated_lock := None;
     rm := None |}.

Definition only_manifest : list Dirent :=
  [ {| name := "packages.config"; isFile := true |} ].

(** The resolver refuses B 2.0 and, with it, a package C 3.0 that the
    manifest does not list; the second attempt succeeds. *)
Definition names_a_stranger : ManifestWorld :=
  world only_manifest manifest_text
    [ Some (restore_error
              "error NU1202: Package B 2.0 is not compatible with net472. error NU1202: Package C 3.0 is not compatible with net472.") ].

(** The resolver refuses B 2.0; the second attempt succeeds. *)
Definition refuses_B : ManifestWorld :=
  world only_manifest manifest_text
    [ Some (restore_error
              "error NU1202: Package B 2.0 is not compatible with net472 (.NETFramework,Version=v4.7.2).") ].

(** The resolver fails without the incompatibility code. *)
Definition other_failure : ManifestWorld :=
  world only_manifest manifest_text
    [ Some (restore_error "error NU1101: Unable to find package A.") ].

(** Two project files beside the manifest. *)
Definition two_projects : ManifestWorld :=
  world [ {| name := "packages.config"; isFile := true |};
          {| name := "App.csproj"; isFile := true |};
          {| name := "Lib.csproj"; isFile := true |} ]
        manifest_text [].

(** One project file beside the manifest. *)
Definition one_project (text : string) : ManifestWorld :=
  world [ {| name := "packages.config"; isFile := true |};
          {| name := "App.csproj"; isFile := true |} ]
        text [].

(** A manifest without packages. *)
Definition empty_manifest : ManifestWorld :=
  world only_manifest "<packages />" [].

(** A tree with one manifest in [app], run with [--fail-on-skipped]. *)
Definition strict_run (worlds : string -> ManifestWorld) : MainWorld :=
  {| argv := ["--fail-on-skipped"];
     cwd := "/repo";
     HOME := Some "/root";
     DOTNET_ROOT := None;
     stat_isDirectory := inr true;
     access := fun _ => None;
     dotnet_version := fun _ => None;
     root_listing :=
       Some [ DirectoryEntry "app" (Some [OtherEntry "packages.config"]);
              OtherEntry "README.md" ];
     world_of := worlds |}.

End Example.

(* ===================================================================== *)
(** ** Vocabulary of the further properties *)
(* ===================================================================== *)

(** Listing a directory. *)
Definition is_readdir (e : Event) : bool :=
  match e with Readdir _ => true | _ => false end.

(** Every character of [s] satisfies [p]. *)
Fixpoint every_char (p : ascii -> bool) (s : string) : bool :=
  match s with
  | EmptyString => true
  | String c s' => p c && every_char p s'
  end.

(** A string the first group of the diagnostic pattern can capture: not
    empty, without white space. *)
Definition is_id_text (s : string) : bool :=
  Js.truthy s && every_char (fun c => negb (Regex.is_space c)) s.

(** A string the second group can capture: not empty, of digits and
    dots. *)
Definition is_version_text (s : string) : bool :=
  Js.truthy s && every_char Regex.is_version_char s.

(** The phrase of the resolver that the pattern looks for, with single
    spaces. *)
Definition incompatible_phrase (i v : string) : string :=
  "Package " ++ i ++ " " ++ v ++ " is not compatible".

(** The line of the descriptor that refers to one package, as
    [generatePackageReferences] writes it. *)
Definition reference_line (pkg : Package) : string :=
  "    <PackageReference Include=" ++ Js.dquote ++ id pkg
  ++ Js.dquote ++ " Version=" ++ Js.dquote ++ version pkg
  ++ Js.dquote ++ " />".

(** A package whose id and version hold no line break. *)
Definition on_one_line (pkg : Package) : bool :=
  Js.free_of "010" (id pkg) && Js.free_of "010" (version pkg).

(** The rewriting of a framework tag of the manifest: the long form
    [netframework4.5] becomes [net45]; any other tag is kept. *)
Definition short_tfm (tf : string) : string :=
  if Js.startsWith tf "netframework"
  then "net" ++ Js.remove_all "." (Js.replace tf "netframework" EmptyString)
  else tf.

(** An entry of the manifest that becomes a candidate and states a
    framework. *)
Definition states_framework (pkg : XmlNode) : bool :=
  is_candidate pkg && truthy_opt (attr_targetFramework pkg).

(** The entries of a parsed manifest. *)
Definition entries_of (result : XmlResult) : list XmlNode :=
  match result with
  | PackagesFalsy => []
  | PackagesObject f => packageList f
  end.

(** Creating or removing a directory. *)
Definition is_temp (e : Event) : bool :=
  match e with Mkdtemp _ | Rm _ => true | _ => false end.

(** What an iteration of the narrowing loop does to the outside: it
    writes the descriptor, runs a program, prints. *)
Definition is_loop_event (e : Event) : bool :=
  match e with
  | WriteFile _ _ | ExecFile _ _ _ | ConsoleLog _ | ConsoleError _ => true
  | _ => false
  end.

(** [lockFilePath] of [processPackagesConfig]. *)
Definition lock_path (api : NodeApi) (packagesConfigPath : string) : string :=
  path_join api [path_dirname api packagesConfigPath; "packages.lock.json"].

(** The prefix given to [fs.mkdtemp]. *)
Definition temp_prefix (api : NodeApi) : string :=
  path_join api [os_tmpdir api; "convert-nuget-"].

(** The lines [print_text] shows for the buffers of an error: the
    non-empty ones. *)
Definition text_lines (err : JsError) : list Event :=
  ((if truthy_opt (stdout err) then [ConsoleError (or_empty (stdout err))]
    else [])
   ++ (if truthy_opt (stderr err) then [ConsoleError (or_empty (stderr err))]
       else []))%list.

(** What the outer [catch] of [processPackagesConfig] does with an error:
    one line, and the manifest has failed. *)
Definition reported (err : JsError) : list Event * Result :=
  ([ConsoleError ("  Error: " ++ message err)], failed).

(** The world [w] with a directory that lists nothing. *)
Definition no_entries (w : ManifestWorld) : ManifestWorld :=
  {| readdir := inr [];
     restore_existing := restore_existing w;
     copy_lock := copy_lock w;
     copy_obj_lock := copy_obj_lock w;
     readFile := readFile w;
     mkdtemp := mkdtemp w;
     writeFile := writeFile w;
     restore_generated := restore_generated w;
     copy_generated_lock := copy_generated_lock w;
     rm := rm w |}.

(** The framework the generated descriptor targets: the one the manifest
    states, when it states one, or else the default. *)
Definition framework_of (parsed : ParsedConfig) (defaultTfm : string) : string :=
  if truthy_opt (targetFramework parsed)
  then or_empty (targetFramework parsed) else defaultTfm.

(** The line printed when the manifest states a framework other than the
    default. *)
Definition framework_note (parsed : ParsedConfig) (defaultTfm : string)
  : list Event :=
  if truthy_opt (targetFramework parsed)
     && negb (String.eqb (framework_of parsed defaultTfm) defaultTfm)
  then [ConsoleLog ("  Using targetFramework from packages.config: "
                    ++ framework_of parsed defaultTfm)]
  else [].

(** [targetFramework !== null] *)
Definition stated (parsed : ParsedConfig) : bool :=
  match targetFramework parsed with Some _ => true | None => false end.

(** Further concrete worlds. *)
Module Sample.

(** A manifest that cannot be read, in a directory without descriptor. *)
Definition unreadable : ManifestWorld :=
  {| readdir := inr Example.only_manifest;
     restore_existing := None;
     copy_lock := None;
     copy_obj_lock := None;
     readFile := inl (Error "EACCES: permission denied, open '/repo/app/packages.config'");
     mkdtemp := inr "/tmp/convert-nuget-Xa1";
     writeFile := fun _ _ => None;
     restore_generated := fun _ _ => None;
     copy_generated_lock := None;
     rm := None |}.

(** A manifest that is cut short. *)
Definition malformed : ManifestWorld :=
  Example.world Example.only_manifest "<packages><package id=" [].

(** A directory whose listing fails with [msg]. *)
Definition unlisted (msg : string) : ManifestWorld :=
  {| readdir := inl (Error msg);
     restore_existing := None;
     copy_lock := None;
     copy_obj_lock := None;
     readFile := inr Example.manifest_text;
     mkdtemp := inr "/tmp/convert-nuget-Xa1";
     writeFile := fun _ _ => None;
     restore_generated := fun _ _ => None;
     copy_generated_lock := None;
     rm := None |}.

(** One project file beside the manifest; the restore leaves the lock
    file under [obj] only. *)
Definition restored_into_obj : ManifestWorld :=
  {| readdir := inr [ {| name := "packages.config"; isFile := true |};
                      {| name := "App.csproj"; isFile := true |} ];
     restore_existing := None;
     copy_lock := Some (Error "ENOENT: no such file or directory, copyfile");
     copy_obj_lock := None;
     readFile := inr Example.manifest_text;
     mkdtemp := inr "/tmp/convert-nuget-Xa1";
     writeFile := fun _ _ => None;
     restore_generated := fun _ _ => None;
     copy_generated_lock := None;
     rm := None |}.

End Sample.

(** Worlds in which the last steps of the fallback fail. *)
Module Ending.

(** Everything works but the copy of the generated lock file. *)
Definition copy_fails : ManifestWorld :=
  {| readdir := inr Example.only_manifest;
     restore_existing := None;
     copy_lock := None;
     copy_obj_lock := None;
     readFile := inr Example.manifest_text;
     mkdtemp := inr "/tmp/convert-nuget-Xa1";
     writeFile := fun _ _ => None;
     restore_generated := fun _ _ => None;
     copy_generated_lock := Some (Error "ENOENT: no such file or directory, copyfile");
     rm := None |}.

(** Everything works but the removal of the temporary directory. *)
Definition cleanup_fails : ManifestWorld :=
  {| readdir := inr Example.only_manifest;
     restore_existing := None;
     copy_lock := None;
     copy_obj_lock := None;
     readFile := inr Example.manifest_text;
     mkdtemp := inr "/tmp/convert-nuget-Xa1";
     writeFile := fun _ _ => None;
     restore_generated := fun _ _ => None;
     copy_generated_lock := None;
     rm := Some (Error "EBUSY: resource busy or locked, rm") |}.

End Ending.

(** A map from [id@version] to packages in which every package is under
    its own [id@version]. *)
Definition keyed (m : list (string * Package)) : Prop :=
  forall k v, In (k, v) m -> at_version v = k.

(** The test of [main] on the resolved root directory. *)
Definition suspicious (mw : MainWorld) (root : string) : bool :=
  Js.includes root ".."
  || (Js.includes root "~"
      && negb (Js.startsWith root (or_empty (HOME mw)))).

(** [fs.stat] answers, and with a directory. *)
Definition is_directory (mw : MainWorld) : bool :=
  match stat_isDirectory mw with inr true => true | _ => false end.

(** A path at which the [dotnet] program is found: it can be accessed
    and [--version] runs. *)
Definition works (mw : MainWorld) (testPath : string) : bool :=
  match access mw testPath, dotnet_version mw testPath with
  | None, None => true
  | _, _ => false
  end.

(** The program is found at a common path, or else through [PATH]. *)
Definition dotnet_found (api : NodeApi) (mw : MainWorld) : bool :=
  snd (probe mw (commonPaths api mw))
  || match dotnet_version mw "dotnet" with None => true | Some _ => false end.

(** The checks of [main] before the search. *)
Definition ready (api : NodeApi) (mw : MainWorld) (args : Args) : bool :=
  negb (suspicious mw (path_resolve api (rootDir args)))
  && is_directory mw && dotnet_found api mw.

(** What the checks do to the outside: they look at the root, look for
    the program, run it for its version, print errors. *)
Definition is_check_event (e : Event) : bool :=
  match e with
  | Stat _ | Access _ | ConsoleError _ => true
  | ExecFile _ _ _ => negb (is_restore e)
  | _ => false
  end.

(** The status the counters give at the end of [main]. *)
Definition status_of (args : Args) (tally : Tally) : nat :=
  if (0 <? failCount tally)%nat then 1
  else if failOnSkipped args
          && (0 <? List.length (totalSkippedPackages tally))%nat
       then 2 else 0.

(** Runs of the whole script. *)
Module Runs.

(** A tree with one manifest in [app]; the root is as [stat] says and
    the arguments are [arguments]. *)
Definition tree (arguments : list string) (stat : JsError + bool)
    (worlds : string -> ManifestWorld) : MainWorld :=
  {| argv := arguments;
     cwd := "/repo";
     HOME := Some "/root";
     DOTNET_ROOT := None;
     stat_isDirectory := stat;
     access := fun _ => None;
     dotnet_version := fun _ => None;
     root_listing :=
       Some [ DirectoryEntry "app" (Some [OtherEntry "packages.config"]);
              OtherEntry "README.md" ];
     world_of := worlds |}.

(** The program is installed under [/usr/local/bin] only. *)
Definition local_dotnet : MainWorld :=
  {| argv := [];
     cwd := "/repo";
     HOME := Some "/root";
     DOTNET_ROOT := None;
     stat_isDirectory := inr true;
     access := fun p =>
       if String.eqb p "/usr/local/bin/dotnet" then None
       else Some (Error "ENOENT: no such file or directory, access");
     dotnet_version := fun _ => None;
     root_listing := Some [];
     world_of := fun _ => Example.empty_manifest |}.

End Runs.

(** Worlds in which the loop does not get to a lock file. *)
Module Stuck.

(** The descriptor cannot be written. *)
Definition write_fails : ManifestWorld :=
  {| readdir := inr Example.only_manifest;
     restore_existing := None;
     copy_lock := None;
     copy_obj_lock := None;
     readFile := inr Example.manifest_text;
     mkdtemp := inr "/tmp/convert-nuget-Xa1";
     writeFile := fun _ _ => Some (Error "ENOSPC: no space left on device, write");
     restore_generated := fun _ _ => None;
     copy_generated_lock := None;
     rm := None |}.

(** The resolver refuses both packages of the manifest at once. *)
Definition refuses_all : ManifestWorld :=
  Example.world Example.only_manifest Example.manifest_text
    [ Some (Example.restore_error
              "error NU1202: Package A 1.0 is not compatible with net472. error NU1202: Package B 2.0 is not compatible with net472.") ].

End Stuck.

(** ** What the skip list holds *)

Section Diagnostics.

Variable w : ManifestWorld.
Variables (csprojPath workdir tfm : string).
Variables (hasExplicitTfm failOnSkipped : bool).

(** A finished execution of the [while] loop from given variables, with
    the errors caught in the iterations that go on to another attempt, in
    the order of these iterations. *)
Inductive narrows : Vars.t -> list JsError -> Vars.t -> Prop :=
| narrows_exit v :
    loop_cond v = false -> narrows v [] v
| narrows_break v t v' :
    loop_cond v = true ->
    loop_body w csprojPath workdir tfm hasExplicitTfm failOnSkipped v
    = (t, (Break, v')) ->
    narrows v [] v'
| narrows_continue v t v1 err errs v' :
    loop_cond v = true ->
    loop_body w csprojPath workdir tfm hasExplicitTfm failOnSkipped v
    = (t, (Continue, v1)) ->
    snd (attempt w csprojPath workdir tfm hasExplicitTfm v) = inl err ->
    narrows v1 errs v' -> narrows v (err :: errs) v'.

End Diagnostics.

(** The entries that the outputs of a series of errors name, in order:
    what [skippedPackages.push(...incompatible)] gathers. *)
Definition named (errs : list JsError) : list Package :=
  concat (map (fun err => extractIncompatiblePackages (errorOutput err)) errs).

(** A resolver that prints its diagnostic for [B 2.0] twice and names
    [C 3.0], which the manifest does not list, between the two; the
    second attempt succeeds. *)
Module Resolver.

Definition repeats_itself : ManifestWorld :=
  Example.world Example.only_manifest Example.manifest_text
    [ Some (Example.restore_error
              "error NU1202: Package B 2.0 is not compatible with net472. error NU1202: Package C 3.0 is not compatible with net472. error NU1202: Package B 2.0 is not compatible with net472.") ].

End Resolver.

(* ===================================================================== *)
(** * Properties *)
(* ===================================================================== *)

(** ** Version normalisation *)

Lemma split_not_nil sep s : Js.split sep s <> [].
Proof.
  destruct s as [| c s]; simpl; [discriminate |].
  destruct (Ascii.eqb c sep); [discriminate |].
  destruct (Js.split sep s); discriminate.
Qed.

(** The filter of [normalizeVersion] looks at the last index only: it
    drops the last element when that is ["0"] and keeps everything else. *)
Lemma filter_last_index (l : list string) (i n : nat) :
  l <> [] -> n = i + List.length l ->
  Js.filter_from
    (fun p j => (j <? n - 1)%nat || negb (String.eqb p "0")) i l
  = if String.eqb (last l EmptyString) "0" then removelast l else l.
Proof.
  revert i. induction l as [| x l IH]; intros i Hne Hn; [congruence |].
  destruct l as [| y l].
  - simpl in *. replace (i <? n - 1)%nat with false
      by (symmetry; apply Nat.ltb_ge; lia).
    simpl. destruct (String.eqb x "0"); reflexivity.
  - assert (Hi : (i <? n - 1)%nat = true) by (apply Nat.ltb_lt; simpl in Hn; lia).
    change (Js.filter_from _ i (x :: y :: l))
      with (if ((i <? n - 1)%nat || negb (String.eqb x "0"))
            then x :: Js.filter_from
                        (fun p j => (j <? n - 1)%nat || negb (String.eqb p "0"))
                        (S i) (y :: l)
            else Js.filter_from
                   (fun p j => (j <? n - 1)%nat || negb (String.eqb p "0"))
                   (S i) (y :: l)).
    rewrite Hi. cbn [orb]. rewrite IH by (try discriminate; simpl in *; lia).
    change (last (x :: y :: l) EmptyString) with (last (y :: l) EmptyString).
    destruct (String.eqb (last (y :: l) EmptyString) "0"); reflexivity.
Qed.

(** What [normalizeVersion] computes: the version without its last
    segment when that segment is ["0"], the version itself otherwise. *)
Lemma normalizeVersion_unfold (v : string) :
  normalizeVersion v
  = let parts := Js.split "." v in
    Js.join "." (if String.eqb (last parts EmptyString) "0"
                 then removelast parts else parts).
Proof.
  unfold normalizeVersion, Js.filteri. cbv zeta.
  rewrite filter_last_index; [reflexivity | apply split_not_nil | reflexivity].
Qed.

(** C1 (the code departs from it).  The claim has every trailing ["0"]
    segment stripped, down to one segment: [1.0.0.0] becomes [1].  The
    function strips the last segment alone, and only when it is ["0"]:
    [1.0.0.0] becomes [1.0.0], and the single segment of [0] is stripped
    too, leaving the empty string.  The claim's two other examples hold. *)
Theorem normalizeVersion_strips_one_segment :
  (forall v,
      normalizeVersion v
      = let parts := Js.split "." v in
        Js.join "." (if String.eqb (last parts EmptyString) "0"
                     then removelast parts else parts))
  /\ normalizeVersion "1.0.0.0" = "1.0.0"
  /\ normalizeVersion "1.0.0.0" <> "1"
  /\ normalizeVersion "0" = EmptyString
  /\ normalizeVersion "2.3.0" = "2.3"
  /\ normalizeVersion "1.0.1" = "1.0.1".
Proof.
  split; [exact normalizeVersion_unfold |].
  repeat split; try reflexivity. vm_compute. discriminate.
Qed.

(** C2 (the code departs from it).  Normalising twice strips two
    segments: [1.0.0] becomes [1.0], and [1.0] becomes [1]. *)
Theorem normalizeVersion_not_idempotent :
  normalizeVersion "1.0.0" = "1.0"
  /\ normalizeVersion (normalizeVersion "1.0.0") = "1"
  /\ normalizeVersion (normalizeVersion "1.0.0") <> normalizeVersion "1.0.0".
Proof.
  repeat split; try reflexivity. vm_compute. discriminate.
Qed.

(** With one segment stripped on each side, two spellings of a version
    that differ by more than one trailing zero, or a version that is [0],
    are not told equal: a package listed as [A 1.0.0.0] and refused as
    [A 1.0] stays a candidate. *)
Lemma trailing_zeros_defeat_matching :
  same_package {| id := "A"; version := "1.0.0.0" |}
               {| id := "a"; version := "1.0" |} = false
  /\ still_compatible [ {| id := "a"; version := "1.0" |} ]
                      {| id := "A"; version := "1.0.0.0" |} = true
  /\ same_package {| id := "A"; version := "1.0.0" |}
                  {| id := "a"; version := "1.0" |} = false.
Proof. repeat split; reflexivity. Qed.

(** *** The looping variant does what the claims say *)

Lemma split_free sep s :
  Forall (fun seg => Js.free_of sep seg = true) (Js.split sep s).
Proof.
  induction s as [| c s IH]; simpl.
  - constructor; [reflexivity | constructor].
  - destruct (Ascii.eqb c sep) eqn:E.
    + constructor; [reflexivity | exact IH].
    + destruct (Js.split sep s) as [| seg segs].
      * constructor; [simpl; now rewrite E | constructor].
      * inversion IH; subst. constructor; [simpl; now rewrite E | assumption].
Qed.

Lemma split_free_id sep s :
  Js.free_of sep s = true -> Js.split sep s = [s].
Proof.
  induction s as [| c s IH]; simpl; [reflexivity |].
  intros H. apply andb_prop in H. destruct H as [Hc Hs].
  apply negb_true_iff in Hc. rewrite Hc, (IH Hs). reflexivity.
Qed.

Lemma split_append sep s rest :
  Js.free_of sep s = true ->
  Js.split sep (s ++ String sep rest) = s :: Js.split sep rest.
Proof.
  induction s as [| c s IH]; simpl.
  - intros _. now rewrite Ascii.eqb_refl.
  - intros H. apply andb_prop in H. destruct H as [Hc Hs].
    apply negb_true_iff in Hc. rewrite Hc, (IH Hs). reflexivity.
Qed.

(** Splitting undoes joining when no segment holds the separator. *)
Lemma split_join sep l :
  l <> [] -> Forall (fun seg => Js.free_of sep seg = true) l ->
  Js.split sep (Js.join (String sep EmptyString) l) = l.
Proof.
  induction l as [| x l IH]; intros Hne Hfree; [congruence |].
  inversion Hfree as [| ? ? Hx Hl]; subst.
  destruct l as [| y l].
  - simpl. now apply split_free_id.
  - change (Js.join (String sep EmptyString) (x :: y :: l))
      with (x ++ String sep (Js.join (String sep EmptyString) (y :: l))).
    rewrite split_append by assumption.
    rewrite IH; [reflexivity | discriminate | assumption].
Qed.

Lemma pop_zeros_not_nil l : l <> [] -> Looping.pop_zeros l <> [].
Proof.
  induction l as [| x l IH]; [congruence |]. intros _.
  destruct l as [| y l]; [discriminate |].
  simpl. destruct (String.eqb x "0"); [apply IH |]; discriminate.
Qed.

Lemma pop_zeros_Forall (P : string -> Prop) l :
  Forall P l -> Forall P (Looping.pop_zeros l).
Proof.
  induction l as [| x l IH]; intros H; [exact H |].
  destruct l as [| y l]; [exact H |].
  simpl. destruct (String.eqb x "0"); [| exact H].
  inversion H; subst. now apply IH.
Qed.

Lemma pop_zeros_twice l :
  Looping.pop_zeros (Looping.pop_zeros l) = Looping.pop_zeros l.
Proof.
  induction l as [| x l IH]; [reflexivity |].
  destruct l as [| y l]; [reflexivity |].
  simpl. destruct (String.eqb x "0") eqn:E; [exact IH |].
  simpl. now rewrite E.
Qed.

(** The loop of the other copy strips every trailing ["0"] segment down
    to one segment: it maps [1.0.0.0] to [1], [2.3.0] to [2.3], leaves
    [1.0.1] alone, and is idempotent. *)
Lemma looping_normalizeVersion_meets_claims :
  Looping.normalizeVersion "1.0.0.0" = "1"
  /\ Looping.normalizeVersion "2.3.0" = "2.3"
  /\ Looping.normalizeVersion "1.0.1" = "1.0.1"
  /\ forall v,
      Looping.normalizeVersion (Looping.normalizeVersion v)
      = Looping.normalizeVersion v.
Proof.
  repeat split; try reflexivity.
  intros v. unfold Looping.normalizeVersion.
  set (kept := Looping.pop_zeros (rev (Js.split "." v))).
  assert (Hne : rev kept <> []).
  { intros H. apply (f_equal (@rev string)) in H. rewrite rev_involutive in H.
    revert H. apply pop_zeros_not_nil.
    intros H. apply (f_equal (@rev string)) in H. rewrite rev_involutive in H.
    revert H. apply split_not_nil. }
  assert (Hfree : Forall (fun seg => Js.free_of "." seg = true) (rev kept)).
  { apply Forall_rev, pop_zeros_Forall, Forall_rev, split_free. }
  rewrite split_join by assumption. rewrite rev_involutive.
  unfold kept. now rewrite pop_zeros_twice.
Qed.

(** ** The narrowing loop *)

Lemma restore_count_app (t t' : list Event) :
  restore_count (t ++ t') = restore_count t + restore_count t'.
Proof. unfold restore_count. now rewrite filter_app, length_app. Qed.

(** A filter that does not shorten a list leaves it as it is. *)
Lemma filter_same_length {A} (f : A -> bool) (l : list A) :
  (List.length (filter f l) <? List.length l)%nat = false -> filter f l = l.
Proof.
  intros H. apply Nat.ltb_ge in H.
  apply forallb_filter_id, filter_length_forallb.
  pose proof (filter_length_le f l). lia.
Qed.

Lemma still_compatible_nil (p : Package) : still_compatible [] p = true.
Proof. reflexivity. Qed.

Lemma still_compatible_app (l l' : list Package) (p : Package) :
  still_compatible (l ++ l') p = still_compatible l p && still_compatible l' p.
Proof. unfold still_compatible. now rewrite existsb_app, negb_orb. Qed.

Lemma filter_filter {A} (f g : A -> bool) (l : list A) :
  filter g (filter f l) = filter (fun x => f x && g x) l.
Proof.
  induction l as [| x l IH]; [reflexivity |]. simpl.
  destruct (f x); simpl; [destruct (g x) |]; now rewrite IH.
Qed.

Lemma filter_Subsequence {A} (f : A -> bool) (l : list A) :
  Subsequence (filter f l) l.
Proof.
  induction l as [| x l IH]; simpl; [constructor |].
  destruct (f x); now constructor.
Qed.

Section LoopFacts.

Variable w : ManifestWorld.
Variables (csprojPath workdir tfm : string).
Variables (hasExplicitTfm failOnSkipped : bool).

Local Notation "'body'" :=
  (loop_body w csprojPath workdir tfm hasExplicitTfm failOnSkipped).
Local Notation "'loop'" :=
  (while_loop w csprojPath workdir tfm hasExplicitTfm failOnSkipped).
Local Notation "'running'" :=
  (runs w csprojPath workdir tfm hasExplicitTfm failOnSkipped).

(** The loop, one iteration unrolled. *)
Lemma while_loop_unroll (v : Vars.t) :
  loop v
  = if loop_cond v then
      match body v with
      | (t, (Continue, v')) => after t (loop v')
      | (t, (Break, v')) => (t, v')
      end
    else ([], v).
Proof.
  funelim (loop v).
  - now rewrite Hcond.
  - now rewrite Hcond, Hbody.
  - now rewrite Hcond, Hbody.
Qed.

(** What the [catch] clause leaves, by the way it ends. *)
Lemma catch_block_inv (v : Vars.t) (err : JsError) s c v' :
  catch_block v err = (s, (c, v')) ->
  restore_count s = 0
  /\ Vars.restoreSuccess v' = Vars.restoreSuccess v
  /\ Vars.lastError v' = Some err
  /\ match c with
     | Continue =>
         let incompatible := extractIncompatiblePackages (errorOutput err) in
         Vars.compatiblePackages v'
         = filter (still_compatible incompatible) (Vars.compatiblePackages v)
         /\ List.length (Vars.compatiblePackages v')
            < List.length (Vars.compatiblePackages v)
         /\ Vars.skippedPackages v'
            = (Vars.skippedPackages v ++ incompatible)%list
         /\ Vars.retryCount v' = S (Vars.retryCount v)
     | Break =>
         Vars.compatiblePackages v' = Vars.compatiblePackages v
         /\ Vars.skippedPackages v' = Vars.skippedPackages v
         /\ Vars.retryCount v' = Vars.retryCount v
     end.
Proof.
  unfold catch_block. fold (errorOutput err).
  set (shown := if negb (Js.truthy (errorOutput err)) && Js.truthy (message err)
                then _ else _).
  assert (Hshown : restore_count shown = 0).
  { unfold shown. now destruct (_ && _). }
  destruct (Js.includes (errorOutput err) "NU1202");
    [destruct (0 <? _)%nat;
     [destruct (List.length (filter _ _) <? _)%nat eqn:Hless |] |];
    intros H; injection H as <- <- <-; cbn;
    repeat split; try assumption; try reflexivity.
  - now apply Nat.ltb_lt in Hless.
  - now apply filter_same_length.
Qed.

(** One attempt starts the resolver once at most. *)
Lemma attempt_restore_count (v : Vars.t) :
  restore_count (fst (attempt w csprojPath workdir tfm hasExplicitTfm v)) <= 1.
Proof.
  unfold attempt, perform, bind, answer_of.
  destruct (writeFile w _ _); [cbn; lia |].
  destruct (restore_generated w _ _); cbn; lia.
Qed.

(** What one iteration leaves, by the way it ends. *)
Lemma loop_body_inv (v : Vars.t) t c v' :
  body v = (t, (c, v')) ->
  restore_count t <= 1
  /\ match c with
     | Continue =>
         Vars.restoreSuccess v' = Vars.restoreSuccess v
         /\ exists incompatible,
             Vars.compatiblePackages v'
             = filter (still_compatible incompatible)
                      (Vars.compatiblePackages v)
             /\ List.length (Vars.compatiblePackages v')
                < List.length (Vars.compatiblePackages v)
             /\ Vars.skippedPackages v'
                = (Vars.skippedPackages v ++ incompatible)%list
             /\ Vars.retryCount v' = S (Vars.retryCount v)
     | Break =>
         Vars.compatiblePackages v' = Vars.compatiblePackages v
         /\ Vars.skippedPackages v' = Vars.skippedPackages v
         /\ Vars.retryCount v' = Vars.retryCount v
     end.
Proof.
  unfold loop_body. pose proof (attempt_restore_count v) as Hone.
  destruct (attempt w csprojPath workdir tfm hasExplicitTfm v)
    as [t0 [err | []]]; cbn [fst] in Hone.
  - unfold after. destruct (catch_block v err) as [s [c0 r]] eqn:E.
    intros H; injection H as <- <- <-.
    apply catch_block_inv in E. destruct E as (Hs & Hr & _ & Hc).
    split; [rewrite restore_count_app; lia |].
    destruct c0; [split; [exact Hr | eexists; exact Hc] | exact Hc].
  - destruct (0 <? _)%nat; [destruct failOnSkipped |].
    + unfold after.
      match goal with
      | |- context [catch_block ?u ?e] =>
          destruct (catch_block u e) as [s [c0 r]] eqn:E
      end.
      intros H; injection H as <- <- <-.
      pose proof E as E'. apply catch_block_inv in E'.
      destruct E' as (Hs & Hr & _ & Hc).
      split; [rewrite !restore_count_app; cbn; lia |].
      destruct c0; [| exact Hc].
      vm_compute in E. discriminate.
    + intros H; injection H as <- <- <-.
      split; [rewrite restore_count_app; cbn; lia |]. now cbn.
    + intros H; injection H as <- <- <-. split; [exact Hone | now cbn].
Qed.

(** The loop ends, and [while_loop] gives the execution that ends it. *)
Lemma while_loop_runs (v : Vars.t) : running v (fst (loop v)) (snd (loop v)).
Proof.
  funelim (loop v); cbn [fst snd].
  - now apply runs_exit.
  - unfold after. destruct (loop v') as [t' v'']. cbn [fst snd] in *.
    eapply runs_continue; eassumption.
  - now apply runs_break.
Qed.

(** An execution of the loop is the one [while_loop] computes. *)
Lemma runs_while_loop (v : Vars.t) t v' : running v t v' -> loop v = (t, v').
Proof.
  induction 1 as [v Hc | v t v' Hc Hb | v t v1 t' v' Hc Hb _ IH];
    rewrite while_loop_unroll, Hc; [reflexivity | now rewrite Hb |].
  rewrite Hb, IH. reflexivity.
Qed.

(** At most [maxRetries] minus the retries already counted resolver
    invocations are left in any execution. *)
Lemma runs_restore_count (v : Vars.t) t v' :
  running v t v' -> restore_count t <= maxRetries - Vars.retryCount v.
Proof.
  induction 1 as [v Hc | v t v' Hc Hb | v t v1 t' v' Hc Hb _ IH].
  - cbn. lia.
  - apply loop_body_inv in Hb. destruct Hb as [Hone _].
    unfold loop_cond in Hc. apply andb_prop in Hc. destruct Hc as [Hr _].
    apply Nat.ltb_lt in Hr. lia.
  - apply loop_body_inv in Hb. destruct Hb as (Hone & _ & inc & _ & _ & _ & Hn).
    unfold loop_cond in Hc. apply andb_prop in Hc. destruct Hc as [Hr _].
    apply Nat.ltb_lt in Hr. rewrite restore_count_app. lia.
Qed.

Lemma narrowed_initial (original : list Package) :
  narrowed original (initial original).
Proof.
  unfold narrowed, initial; cbn.
  rewrite (filter_ext _ (fun _ => true) still_compatible_nil).
  now rewrite filter_true.
Qed.

Lemma narrowed_body (original : list Package) (v : Vars.t) t c v' :
  body v = (t, (c, v')) -> narrowed original v -> narrowed original v'.
Proof.
  intros Hb Hv. apply loop_body_inv in Hb. destruct Hb as [_ Hb].
  unfold narrowed in *. destruct c.
  - destruct Hb as (_ & inc & Hc & _ & Hs & _).
    rewrite Hc, Hs, Hv, filter_filter.
    apply filter_ext. intros p. now rewrite still_compatible_app.
  - destruct Hb as (Hc & Hs & _). now rewrite Hc, Hs.
Qed.

Lemma narrowed_runs (original : list Package) (v : Vars.t) t v' :
  running v t v' -> narrowed original v -> narrowed original v'.
Proof.
  induction 1 as [v Hc | v t v' Hc Hb | v t v1 t' v' Hc Hb _ IH]; intros Hv.
  - exact Hv.
  - eapply narrowed_body; eassumption.
  - apply IH. eapply narrowed_body; eassumption.
Qed.

(** At the head of an iteration no restore has succeeded yet. *)
Lemma at_loop_head_restoreSuccess (original : list Package) (v : Vars.t) :
  at_loop_head w csprojPath workdir tfm hasExplicitTfm failOnSkipped
               original v ->
  Vars.restoreSuccess v = false.
Proof.
  induction 1 as [| v t v' _ IH _ Hb]; [reflexivity |].
  apply loop_body_inv in Hb. destruct Hb as (_ & Hr & _). congruence.
Qed.

(** The loop started on the original set gets to the head of each of its
    iterations and goes on from there. *)
Lemma at_loop_head_resumes (original : list Package) (v : Vars.t) :
  at_loop_head w csprojPath workdir tfm hasExplicitTfm failOnSkipped
               original v ->
  exists before, loop (initial original) = after before (loop v).
Proof.
  induction 1 as [| v t v' _ [before IH] Hc Hb].
  - exists []. unfold after. now destruct (loop (initial original)).
  - exists (before ++ t)%list. rewrite IH.
    rewrite (while_loop_unroll v), Hc, Hb. unfold after.
    destruct (loop v') as [t' r]. now rewrite app_assoc.
Qed.

End LoopFacts.

Section LoopClaims.

Variable api : NodeApi.
Variable w : ManifestWorld.
Variables (csprojPath workdir tfm : string).
Variables (hasExplicitTfm failOnSkipped : bool).

Local Notation "'body'" :=
  (loop_body w csprojPath workdir tfm hasExplicitTfm failOnSkipped).
Local Notation "'loop'" :=
  (while_loop w csprojPath workdir tfm hasExplicitTfm failOnSkipped).
Local Notation "'running'" :=
  (runs w csprojPath workdir tfm hasExplicitTfm failOnSkipped).

Lemma same_package_refl (p : Package) : same_package p p = true.
Proof. unfold same_package. now rewrite !String.eqb_refl. Qed.

Lemma still_compatible_not_in (l : list Package) (p : Package) :
  still_compatible l p = true -> ~ In p l.
Proof.
  unfold still_compatible. intros H Hin. apply negb_true_iff in H.
  assert (existsb (same_package p) l = true); [| congruence].
  apply existsb_exists. exists p. split; [exact Hin | apply same_package_refl].
Qed.

(** An iteration that goes on to another attempt has caught an error of
    the attempt whose output carries the code, and has put the entries
    this output names behind the skip list. *)
Lemma catch_block_continue (v : Vars.t) (err : JsError) s v' :
  catch_block v err = (s, (Continue, v')) ->
  Js.includes (errorOutput err) "NU1202" = true
  /\ Vars.skippedPackages v'
     = (Vars.skippedPackages v
        ++ extractIncompatiblePackages (errorOutput err))%list.
Proof.
  unfold catch_block. fold (errorOutput err).
  destruct (Js.includes (errorOutput err) "NU1202"); [| discriminate].
  destruct (0 <? _)%nat; [| discriminate].
  destruct (_ <? _)%nat; [| discriminate].
  intros H; injection H as _ <-. now split.
Qed.

Lemma loop_body_continue (v : Vars.t) t v1 :
  body v = (t, (Continue, v1)) ->
  exists err,
    snd (attempt w csprojPath workdir tfm hasExplicitTfm v) = inl err
    /\ Js.includes (errorOutput err) "NU1202" = true
    /\ Vars.skippedPackages v1
       = (Vars.skippedPackages v
          ++ extractIncompatiblePackages (errorOutput err))%list.
Proof.
  unfold loop_body.
  destruct (attempt w csprojPath workdir tfm hasExplicitTfm v)
    as [t0 [err | []]].
  - unfold after. destruct (catch_block v err) as [s [c r]] eqn:E.
    intros H; injection H as _ -> ->.
    exists err. split; [reflexivity |]. exact (catch_block_continue _ _ E).
  - destruct (0 <? _)%nat; [destruct failOnSkipped |]; discriminate.
Qed.

(** An execution of the loop puts behind the skip list the entries that
    the errors of its continuing iterations name. *)
Lemma runs_narrows (v : Vars.t) t v' :
  running v t v' ->
  exists errs,
    narrows w csprojPath workdir tfm hasExplicitTfm failOnSkipped v errs v'
    /\ Forall (fun err => Js.includes (errorOutput err) "NU1202" = true) errs
    /\ Vars.skippedPackages v' = (Vars.skippedPackages v ++ named errs)%list.
Proof.
  induction 1 as [v Hc | v t v' Hc Hb | v t v1 t' v' Hc Hb _ IH].
  - exists []. split; [now apply narrows_exit |]. split; [constructor |].
    unfold named. cbn. now rewrite app_nil_r.
  - exists []. split; [eapply narrows_break; eassumption |].
    split; [constructor |].
    apply loop_body_inv in Hb. destruct Hb as (_ & _ & Hs & _).
    unfold named. cbn. now rewrite app_nil_r.
  - destruct IH as (errs & Hn & Hall & Hs).
    destruct (loop_body_continue _ Hb) as (err & Ha & Hcode & Hs1).
    exists (err :: errs). split; [eapply narrows_continue; eassumption |].
    split; [now constructor |].
    rewrite Hs, Hs1. unfold named. cbn [map concat]. now rewrite app_assoc.
Qed.

(** C3 (amended).  However the loop ends, the candidates left are the
    original packages that no entry of the skip list matches (same id up
    to case, same normalised version), in their original order.  So they
    all come from the original set, none of them is in the skip list, every
    original package is either still a candidate or matched by the skip
    list, and they have no duplicates when the original set has none.
    The skip list holds what the resolver named: it is, in order, the
    entries named by the outputs of the errors caught in the iterations
    that went on to another attempt, outputs that all carry the code
    [NU1202]. *)
Theorem narrowing_splits_original_by_skip_list (original : list Package) :
  let v := snd (loop (initial original)) in
  Vars.compatiblePackages v
  = filter (still_compatible (Vars.skippedPackages v)) original
  /\ incl (Vars.compatiblePackages v) original
  /\ (forall p, In p (Vars.compatiblePackages v) ->
                ~ In p (Vars.skippedPackages v))
  /\ (forall p, In p original ->
                In p (Vars.compatiblePackages v)
                \/ existsb (same_package p) (Vars.skippedPackages v) = true)
  /\ (NoDup original -> NoDup (Vars.compatiblePackages v))
  /\ exists errs,
      narrows w csprojPath workdir tfm hasExplicitTfm failOnSkipped
              (initial original) errs v
      /\ Forall (fun err => Js.includes (errorOutput err) "NU1202" = true)
                errs
      /\ Vars.skippedPackages v = named errs.
Proof.
  intros v.
  assert (Hv : narrowed original v).
  { eapply narrowed_runs; [apply while_loop_runs | apply narrowed_initial]. }
  unfold narrowed in Hv. split; [exact Hv |].
  assert (Hskip : exists errs,
             narrows w csprojPath workdir tfm hasExplicitTfm failOnSkipped
                     (initial original) errs v
             /\ Forall (fun err => Js.includes (errorOutput err) "NU1202"
                                   = true) errs
             /\ Vars.skippedPackages v = named errs).
  { destruct (runs_narrows (while_loop_runs w csprojPath workdir tfm
                              hasExplicitTfm failOnSkipped (initial original)))
      as (errs & Hn & Hall & Hs).
    exists errs. split; [exact Hn |]. split; [exact Hall | exact Hs]. }
  rewrite Hv.
  split; [apply incl_filter |]. split; [| split; [| split; [| exact Hskip]]].
  - intros p Hp. apply filter_In in Hp. destruct Hp as [_ Hp].
    now apply still_compatible_not_in.
  - intros p Hp.
    destruct (existsb (same_package p) (Vars.skippedPackages v)) eqn:E;
      [now right | left].
    apply filter_In. split; [exact Hp |]. unfold still_compatible. now rewrite E.
  - apply NoDup_filter.
Qed.

(** The loop ends: [while_loop] is total and gives a finished execution.
    That execution starts the resolver [maxRetries] = 20 times at most, and
    an iteration that continues leaves strictly fewer candidates than it
    found and has counted one more retry. *)
Lemma loop_terminates_within_maxRetries (original : list Package) :
  let run := loop (initial original) in
  maxRetries = 20
  /\ running (initial original) (fst run) (snd run)
  /\ restore_count (fst run) <= maxRetries
  /\ (forall v t v',
         body v = (t, (Continue, v')) ->
         List.length (Vars.compatiblePackages v')
         < List.length (Vars.compatiblePackages v)
         /\ Vars.retryCount v' = S (Vars.retryCount v)).
Proof.
  intros run. split; [reflexivity |].
  split; [apply while_loop_runs |]. split.
  - pose proof (runs_restore_count (while_loop_runs w csprojPath workdir tfm
                  hasExplicitTfm failOnSkipped (initial original))) as H.
    cbn in H. exact H.
  - intros v t v' Hb. apply loop_body_inv in Hb.
    destruct Hb as (_ & _ & inc & _ & Hlen & _ & Hn). now split.
Qed.

(** The candidates left by the loop are the original sequence with some
    elements removed, the others in their original order; it is so at the
    head of every iteration too. *)
Lemma narrowing_keeps_order (original : list Package) :
  Subsequence (Vars.compatiblePackages (snd (loop (initial original)))) original
  /\ forall v,
      at_loop_head w csprojPath workdir tfm hasExplicitTfm failOnSkipped
                   original v ->
      Subsequence (Vars.compatiblePackages v) original.
Proof.
  split.
  - assert (Hv : narrowed original (snd (loop (initial original)))).
    { eapply narrowed_runs; [apply while_loop_runs | apply narrowed_initial]. }
    rewrite Hv. apply filter_Subsequence.
  - intros v Hv. assert (Hn : narrowed original v).
    { induction Hv as [| v t v' _ IH _ Hb]; [apply narrowed_initial |].
      eapply narrowed_body; eassumption. }
    rewrite Hn. apply filter_Subsequence.
Qed.

End LoopClaims.

(** ** Processing one manifest *)

Section Counting.

Context {X A B : Type}.

Lemma bind_restore_count (m : Eff X A) (k : A -> Eff X B) (n : nat) :
  (forall a, restore_count (fst (k a)) <= n) ->
  restore_count (fst (bind m k)) <= restore_count (fst m) + n.
Proof.
  intros Hk. destruct m as [t [x | a]]; cbn [bind fst]; [lia |].
  specialize (Hk a). destruct (k a) as [t' r]. cbn [fst] in *.
  rewrite restore_count_app. lia.
Qed.

Lemma try_catch_restore_count {Y} (m : Eff X A) (h : X -> Eff Y A) (n : nat) :
  (forall x, restore_count (fst (h x)) <= n) ->
  restore_count (fst (try_catch m h)) <= restore_count (fst m) + n.
Proof.
  intros Hh. destruct m as [t [x | a]]; cbn [try_catch fst]; [| lia].
  specialize (Hh x). destruct (h x) as [t' r]. cbn [fst] in *.
  rewrite restore_count_app. lia.
Qed.

Lemma try_finally_restore_count (m : Eff X A) (f : Eff X unit) :
  restore_count (fst (try_finally m f))
  = restore_count (fst m) + restore_count (fst f).
Proof.
  destruct m as [t r], f as [t' [x | u]]; cbn [try_finally fst];
    now rewrite restore_count_app.
Qed.

Lemma catch_all_restore_count (m : Eff X A) (h : X -> list Event * A) (n : nat) :
  (forall x, restore_count (fst (h x)) <= n) ->
  restore_count (fst (catch_all m h)) <= restore_count (fst m) + n.
Proof.
  intros Hh. destruct m as [t [x | a]]; cbn [catch_all fst]; [| lia].
  specialize (Hh x). destruct (h x) as [t' r]. cbn [fst] in *.
  rewrite restore_count_app. lia.
Qed.

Lemma after_restore_count (t : list Event) (m : list Event * A) :
  restore_count (fst (after t m)) = restore_count t + restore_count (fst m).
Proof. destruct m as [t' a]. cbn [after fst]. apply restore_count_app. Qed.

Lemma lift_fst (m : list Event * A) : fst (lift (X := X) m) = fst m.
Proof. now destruct m. Qed.

End Counting.

Section ManifestFacts.

Variable api : NodeApi.
Variable w : ManifestWorld.

(** What [findCsprojFile] answers, by the number of project files. *)
Lemma findCsprojFile_none (dir : string) (entries : list Dirent) :
  readdir w = inr entries -> filter is_csproj entries = [] ->
  findCsprojFile api w dir = ([Readdir dir], inr None).
Proof.
  intros Hr Hf. unfold findCsprojFile, csprojFiles, perform.
  rewrite Hr. cbn [bind try_catch]. rewrite Hf. reflexivity.
Qed.

Lemma findCsprojFile_one (dir : string) (entries : list Dirent) (e : Dirent) :
  readdir w = inr entries -> filter is_csproj entries = [e] ->
  findCsprojFile api w dir
  = ([Readdir dir], inr (Some (path_join api [dir; name e]))).
Proof.
  intros Hr Hf. unfold findCsprojFile, csprojFiles, perform.
  rewrite Hr. cbn [bind try_catch]. rewrite Hf. reflexivity.
Qed.

Lemma findCsprojFile_many (dir : string) (entries : list Dirent) :
  readdir w = inr entries -> 1 < List.length (filter is_csproj entries) ->
  findCsprojFile api w dir
  = ([Readdir dir],
     inl (Error ("Multiple .csproj files found in " ++ dir ++ ": "
                 ++ Js.join ", " (map (path_basename api)
                                      (csprojFiles api dir entries))))).
Proof.
  intros Hr Hf. unfold findCsprojFile, perform. rewrite Hr.
  cbn [bind try_catch]. unfold csprojFiles.
  destruct (filter is_csproj entries) as [| a [| b l]];
    cbn [List.length] in Hf; try lia.
  reflexivity.
Qed.

Lemma findCsprojFile_restore_count (dir : string) :
  restore_count (fst (findCsprojFile api w dir)) = 0.
Proof.
  unfold findCsprojFile, perform.
  destruct (readdir w) as [err | entries]; cbn.
  - now destruct (Js.includes (message err) "Multiple .csproj files").
  - destruct (csprojFiles api dir entries) as [| a [| b l]]; reflexivity.
Qed.

Lemma use_existing_restore_count (dir lockFilePath existingCsproj : string) :
  restore_count (fst (use_existing api w dir lockFilePath existingCsproj)) <= 1.
Proof.
  unfold use_existing, perform, answer_of.
  destruct (restore_existing w) as [err |]; cbn.
  - destruct (stdout err) as [o |], (stderr err) as [e |]; cbn;
      repeat match goal with
             | |- context [Js.truthy ?s] => destruct (Js.truthy s); cbn
             end; lia.
  - destruct (copy_lock w); [destruct (copy_obj_lock w) |]; cbn; lia.
Qed.

Lemma parsePackagesConfig_restore_count (packagesConfigPath : string) :
  restore_count (fst (parsePackagesConfig api w packagesConfigPath)) = 0.
Proof.
  unfold parsePackagesConfig, perform.
  destruct (readFile w) as [err | xml]; cbn; [reflexivity |].
  now destruct (xml_parse api xml).
Qed.

Lemma after_loop_restore_count (workdir lockFilePath : string) (v : Vars.t) :
  restore_count (fst (after_loop api w workdir lockFilePath v)) = 0.
Proof.
  unfold after_loop, perform, answer_of.
  destruct (Vars.restoreSuccess v); cbn.
  - now destruct (copy_generated_lock w).
  - destruct (Vars.lastError v) as [[m [o |] [e |]] |]; reflexivity.
Qed.

Lemma generate_and_restore_restore_count
    (packagesConfigPath lockFilePath defaultTfm : string) (failOnSkipped : bool) :
  restore_count
    (fst (generate_and_restore api w packagesConfigPath lockFilePath
                               defaultTfm failOnSkipped))
  <= maxRetries.
Proof.
  unfold generate_and_restore.
  eapply Nat.le_trans; [apply bind_restore_count with (n := maxRetries) |
                        rewrite parsePackagesConfig_restore_count; lia].
  intros parsed.
  destruct (List.length (packages parsed) =? 0)%nat; [cbn; lia |].
  eapply Nat.le_trans; [apply bind_restore_count with (n := maxRetries) |].
  2: { match goal with
       | |- context [if ?c then _ else _] => destruct c; cbn; lia
       end. }
  intros _.
  eapply Nat.le_trans; [apply bind_restore_count with (n := maxRetries) |
                        cbn; lia].
  intros workdir. rewrite try_finally_restore_count.
  replace (restore_count (fst (perform (Rm workdir) (answer_of (rm w)))))
    with 0 by reflexivity.
  rewrite Nat.add_0_r.
  eapply Nat.le_trans; [apply bind_restore_count with (n := 0) |].
  - intros v. now rewrite after_loop_restore_count.
  - rewrite lift_fst, Nat.add_0_r.
    match goal with
    | |- restore_count (fst (while_loop ?a ?b ?c ?d ?e ?f ?v)) <= _ =>
        exact (runs_restore_count (while_loop_runs a b c d e f v))
    end.
Qed.

(** A manifest is processed with [maxRetries] resolver invocations at
    most. *)
Lemma processPackagesConfig_restore_count
    (packagesConfigPath defaultTfm : string) (failOnSkipped : bool) :
  restore_count
    (fst (processPackagesConfig api w packagesConfigPath defaultTfm
                                failOnSkipped))
  <= maxRetries.
Proof.
  unfold processPackagesConfig. rewrite after_restore_count.
  change (restore_count [ConsoleLog _]) with 0. rewrite Nat.add_0_l.
  eapply Nat.le_trans; [apply catch_all_restore_count with (n := 0) |].
  { intros err. now destruct (_ && _). }
  rewrite Nat.add_0_r.
  eapply Nat.le_trans; [apply bind_restore_count with (n := maxRetries) |].
  - intros [early | existingCsproj]; [cbn; lia |].
    destruct (truthy_opt existingCsproj).
    + eapply Nat.le_trans; [apply use_existing_restore_count |].
      unfold maxRetries. lia.
    + apply generate_and_restore_restore_count.
  - match goal with
    | |- restore_count (fst ?m) + _ <= _ =>
        assert (H : restore_count (fst m) <= 0); [| lia]
    end.
    eapply Nat.le_trans; [apply try_catch_restore_count with (n := 0) |].
    + intros err. now destruct (Js.includes _ _).
    + rewrite Nat.add_0_r.
      eapply Nat.le_trans; [apply bind_restore_count with (n := 0) |].
      * intros a. cbn. lia.
      * rewrite findCsprojFile_restore_count. lia.
Qed.

End ManifestFacts.

(** C7.  For every candidate set and every world, that is whatever the
    resolver answers at each attempt, the loop ends: [while_loop] is total
    and gives a finished execution.  That execution starts the resolver
    [maxRetries] = 20 times at most, and so does the processing of a whole
    manifest; an iteration that continues leaves strictly fewer candidates
    than it found. *)
Theorem narrowing_terminates_within_maxRetries
    (api : NodeApi) (w : ManifestWorld)
    (csprojPath workdir tfm : string) (hasExplicitTfm failOnSkipped : bool)
    (original : list Package) (packagesConfigPath defaultTfm : string) :
  let run :=
    while_loop w csprojPath workdir tfm hasExplicitTfm failOnSkipped
               (initial original) in
  maxRetries = 20
  /\ runs w csprojPath workdir tfm hasExplicitTfm failOnSkipped
          (initial original) (fst run) (snd run)
  /\ restore_count (fst run) <= maxRetries
  /\ restore_count
       (fst (processPackagesConfig api w packagesConfigPath defaultTfm
                                   failOnSkipped))
     <= maxRetries
  /\ (forall v t v',
         loop_body w csprojPath workdir tfm hasExplicitTfm failOnSkipped v
         = (t, (Continue, v')) ->
         List.length (Vars.compatiblePackages v')
         < List.length (Vars.compatiblePackages v)).
Proof.
  intros run.
  destruct (loop_terminates_within_maxRetries w csprojPath workdir tfm
              hasExplicitTfm failOnSkipped original) as (H20 & Hrun & Hcount & Hstep).
  repeat split; try assumption.
  - apply processPackagesConfig_restore_count.
  - intros v t v' Hb. now apply Hstep in Hb.
Qed.

(** C4.  A manifest with no project file found beside it and whose parsed
    package list is empty: processing it reads the manifest, prints the
    no-packages warning and fails with an empty skip list, without starting
    the resolver. *)
Theorem empty_manifest_fails_without_restore
    (api : NodeApi) (w : ManifestWorld)
    (packagesConfigPath defaultTfm : string) (failOnSkipped : bool)
    (xml : string) (result : XmlResult) :
  snd (findCsprojFile api w (path_dirname api packagesConfigPath)) = inr None ->
  readFile w = inr xml ->
  xml_parse api xml = inr result ->
  packages (collectPackages result) = [] ->
  processPackagesConfig api w packagesConfigPath defaultTfm failOnSkipped
  = (([ConsoleLog ("Processing: " ++ packagesConfigPath)]
      ++ fst (findCsprojFile api w (path_dirname api packagesConfigPath))
      ++ [ReadFile packagesConfigPath;
          ConsoleLog "  Warning: No packages found, skipping"])%list,
     failed)
  /\ restore_count
       (fst (processPackagesConfig api w packagesConfigPath defaultTfm
                                   failOnSkipped)) = 0.
Proof.
  intros Hnone Hread Hparse Hempty.
  assert (E : processPackagesConfig api w packagesConfigPath defaultTfm
                                    failOnSkipped
              = (([ConsoleLog ("Processing: " ++ packagesConfigPath)]
                  ++ fst (findCsprojFile api w
                            (path_dirname api packagesConfigPath))
                  ++ [ReadFile packagesConfigPath;
                      ConsoleLog "  Warning: No packages found, skipping"])%list,
                 failed)).
  { unfold processPackagesConfig.
    destruct (findCsprojFile api w (path_dirname api packagesConfigPath))
      as [t0 r0]. cbn [snd fst] in *. subst r0.
    cbn [bind try_catch ret truthy_opt].
    unfold generate_and_restore, parsePackagesConfig, perform.
    rewrite Hread. cbn [bind]. rewrite Hparse. cbn [bind try_catch ret].
    rewrite Hempty. cbn. now rewrite !app_nil_r. }
  split; [exact E |]. rewrite E. cbn [fst].
  rewrite !restore_count_app, findCsprojFile_restore_count. reflexivity.
Qed.

(** The [catch] clause on an error that makes no progress: without the
    code [NU1202], or naming nothing that removes a candidate. *)
Lemma catch_block_no_progress (v : Vars.t) (err : JsError) :
  Js.includes (errorOutput err) "NU1202" = false
  \/ filter (still_compatible (extractIncompatiblePackages (errorOutput err)))
            (Vars.compatiblePackages v)
     = Vars.compatiblePackages v ->
  catch_block v err
  = (message_line err,
     (Break,
      {| Vars.compatiblePackages := Vars.compatiblePackages v;
         Vars.skippedPackages := Vars.skippedPackages v;
         Vars.retryCount := Vars.retryCount v;
         Vars.restoreSuccess := Vars.restoreSuccess v;
         Vars.lastError := Some err |})).
Proof.
  intros H. unfold catch_block. fold (errorOutput err). fold (message_line err).
  destruct (Js.includes (errorOutput err) "NU1202"); [| reflexivity].
  destruct H as [H | H]; [discriminate |].
  destruct (0 <? _)%nat; [| reflexivity].
  rewrite H, Nat.ltb_irrefl. reflexivity.
Qed.

(** C6.  At the head of an iteration, let the resolver fail with an error
    whose output lacks the code [NU1202], or names nothing that removes a
    candidate.  Then the loop ends with this one invocation, which is the
    last of the whole loop, the candidates, skip list and retry count
    unchanged; what follows the loop prints the restore-failed line and the
    raw output of the resolver and returns a failure carrying the skip list
    gathered so far. *)
Theorem unrecognised_failure_ends_loop
    (api : NodeApi) (w : ManifestWorld)
    (csprojPath workdir tfm : string) (hasExplicitTfm failOnSkipped : bool)
    (lockFilePath : string) (original : list Package)
    (v : Vars.t) (err : JsError) :
  let descriptor :=
    generateCsproj (Vars.compatiblePackages v) tfm hasExplicitTfm in
  let loop :=
    while_loop w csprojPath workdir tfm hasExplicitTfm failOnSkipped in
  let last_attempt :=
    ([WriteFile csprojPath descriptor;
      ExecFile "dotnet"
        ["restore"; csprojPath; "--use-lock-file"; "--force-evaluate"]
        (Some workdir)]
     ++ message_line err)%list in
  let stopped :=
    {| Vars.compatiblePackages := Vars.compatiblePackages v;
       Vars.skippedPackages := Vars.skippedPackages v;
       Vars.retryCount := Vars.retryCount v;
       Vars.restoreSuccess := false;
       Vars.lastError := Some err |} in
  at_loop_head w csprojPath workdir tfm hasExplicitTfm failOnSkipped
               original v ->
  loop_cond v = true ->
  writeFile w (Vars.retryCount v) descriptor = None ->
  restore_generated w (Vars.retryCount v) descriptor = Some err ->
  Js.includes (errorOutput err) "NU1202" = false
  \/ filter (still_compatible (extractIncompatiblePackages (errorOutput err)))
            (Vars.compatiblePackages v)
     = Vars.compatiblePackages v ->
  loop v = (last_attempt, stopped)
  /\ restore_count (fst (loop v)) = 1
  /\ (exists before,
         loop (initial original) = ((before ++ last_attempt)%list, stopped))
  /\ after_loop api w workdir lockFilePath stopped
     = ((ConsoleError "  Error: dotnet restore failed:" :: buffer_lines err),
        inr {| success := false;
               skippedPackages := Vars.skippedPackages v |}).
Proof.
  intros descriptor loop last_attempt stopped Hhead Hcond Hwrite Hrestore Hstuck.
  pose proof (at_loop_head_restoreSuccess Hhead) as Hfalse.
  assert (Hbody : loop_body w csprojPath workdir tfm hasExplicitTfm
                            failOnSkipped v
                  = (last_attempt, (Break, stopped))).
  { unfold loop_body, attempt, perform. fold descriptor.
    rewrite Hwrite, Hrestore. cbn [answer_of bind app].
    rewrite (catch_block_no_progress v err Hstuck), Hfalse. reflexivity. }
  assert (Hloop : loop v = (last_attempt, stopped)).
  { unfold loop. now rewrite while_loop_unroll, Hcond, Hbody. }
  split; [exact Hloop |]. split; [| split].
  - rewrite Hloop. cbn [fst]. unfold last_attempt.
    rewrite restore_count_app.
    replace (restore_count (message_line err)) with 0; [reflexivity |].
    unfold message_line.
    now destruct (negb (Js.truthy (errorOutput err)) && Js.truthy (message err)).
  - destruct (at_loop_head_resumes Hhead) as [before Hbefore].
    exists before. fold loop in Hbefore. now rewrite Hbefore, Hloop.
  - unfold after_loop, stopped, buffer_lines. cbn.
    destruct (stdout err), (stderr err); reflexivity.
Qed.

(** The loop over the manifests, cut in two. *)
Lemma process_all_app (api : NodeApi) (mw : MainWorld) (tfm : string)
    (failOnSkipped : bool) (files files' : list string) (acc : Tally) :
  process_all api mw tfm failOnSkipped (files ++ files') acc
  = let (t, mid) := process_all api mw tfm failOnSkipped files acc in
    after t (process_all api mw tfm failOnSkipped files' mid).
Proof.
  revert acc. induction files as [| f files IH]; intros acc; cbn.
  - unfold after. now destruct (process_all api mw tfm failOnSkipped files' acc).
  - destruct (processPackagesConfig api (world_of mw f) f tfm failOnSkipped)
      as [t r]. rewrite IH. unfold after.
    destruct (process_all api mw tfm failOnSkipped files (count acc r))
      as [t1 mid].
    destruct (process_all api mw tfm failOnSkipped files' mid) as [t2 fin].
    now rewrite app_assoc.
Qed.

(** C8.  A manifest with more than one project file beside it: processing
    it lists the directory, prints the error naming the files, and fails.
    In the run over all manifests it adds one to the failure count and
    nothing else, and the manifests before and after it are processed as
    they are without it. *)
Theorem ambiguous_descriptor_fails_that_manifest_only
    (api : NodeApi) (mw : MainWorld) (tfm : string) (failOnSkipped : bool)
    (packagesConfig : string) (entries : list Dirent) :
  let dir := path_dirname api packagesConfig in
  let reported :=
    [ConsoleLog ("Processing: " ++ packagesConfig);
     Readdir dir;
     ConsoleError
       ("  Error: Multiple .csproj files found in " ++ dir ++ ": "
        ++ Js.join ", " (map (path_basename api)
                             (csprojFiles api dir entries)))] in
  readdir (world_of mw packagesConfig) = inr entries ->
  1 < List.length (filter is_csproj entries) ->
  processPackagesConfig api (world_of mw packagesConfig) packagesConfig tfm
                        failOnSkipped
  = (reported, failed)
  /\ forall (before later : list string) (acc : Tally),
      process_all api mw tfm failOnSkipped
                  (before ++ packagesConfig :: later) acc
      = let (t1, mid) := process_all api mw tfm failOnSkipped before acc in
        let (t2, fin) :=
          process_all api mw tfm failOnSkipped later
            {| successCount := successCount mid;
               failCount := S (failCount mid);
               totalSkippedPackages := totalSkippedPackages mid |} in
        ((t1 ++ reported ++ t2)%list, fin).
Proof.
  intros dir reported Hread Hmany.
  assert (E : processPackagesConfig api (world_of mw packagesConfig)
                packagesConfig tfm failOnSkipped = (reported, failed)).
  { unfold processPackagesConfig. fold dir.
    rewrite (findCsprojFile_many api (world_of mw packagesConfig) dir Hread Hmany).
    reflexivity. }
  split; [exact E |]. intros before later acc.
  rewrite process_all_app.
  destruct (process_all api mw tfm failOnSkipped before acc) as [t1 mid].
  cbn [process_all]. rewrite E.
  change (count mid failed)
    with {| successCount := successCount mid;
            failCount := S (failCount mid);
            totalSkippedPackages := totalSkippedPackages mid |}.
  destruct (process_all api mw tfm failOnSkipped later _) as [t2 fin].
  reflexivity.
Qed.

(** C10.  With exactly one project file beside the manifest, processing
    restores that project and copies its lock file: the result is decided
    by the restore and the two copies, no file is read, and two worlds that
    differ only in what the manifest holds (or in anything else of the
    fallback) are processed alike. *)
Theorem existing_descriptor_ignores_manifest
    (api : NodeApi) (w w' : ManifestWorld)
    (packagesConfigPath defaultTfm : string) (failOnSkipped : bool)
    (entries : list Dirent) (e : Dirent) :
  readdir w = inr entries ->
  filter is_csproj entries = [e] ->
  readdir w' = readdir w ->
  restore_existing w' = restore_existing w ->
  copy_lock w' = copy_lock w ->
  copy_obj_lock w' = copy_obj_lock w ->
  let run :=
    processPackagesConfig api w packagesConfigPath defaultTfm failOnSkipped in
  processPackagesConfig api w' packagesConfigPath defaultTfm failOnSkipped = run
  /\ existsb is_read (fst run) = false
  /\ snd run
     = {| success :=
            match restore_existing w, copy_lock w, copy_obj_lock w with
            | None, None, _ => true
            | None, Some _, None => true
            | _, _, _ => false
            end;
          skippedPackages := [] |}.
Proof.
  intros Hread Hone Hread' Hrestore Hcopy Hobj run.
  assert (Hrun : forall u,
             readdir u = inr entries ->
             processPackagesConfig api u packagesConfigPath defaultTfm
                                   failOnSkipped
             = after [ConsoleLog ("Processing: " ++ packagesConfigPath);
                      Readdir (path_dirname api packagesConfigPath)]
                 (catch_all
                    (use_existing api u (path_dirname api packagesConfigPath)
                       (path_join api [path_dirname api packagesConfigPath;
                                       "packages.lock.json"])
                       (path_join api [path_dirname api packagesConfigPath;
                                       name e]))
                    (fun err => ([ConsoleError ("  Error: " ++ message err)],
                                 failed)))).
  { intros u Hu. unfold processPackagesConfig.
    rewrite (findCsprojFile_one api u _ Hu Hone).
    cbn [bind try_catch ret truthy_opt or_empty app].
    rewrite path_join_truthy.
    destruct (use_existing _ _ _ _ _) as [t [err | r]]; cbn;
      [destruct (_ && _) |]; reflexivity. }
  assert (Hsame : processPackagesConfig api w' packagesConfigPath defaultTfm
                                        failOnSkipped = run).
  { unfold run. rewrite !Hrun by congruence.
    unfold use_existing. now rewrite Hrestore, Hcopy, Hobj. }
  split; [exact Hsame |]. unfold run. rewrite (Hrun w Hread).
  unfold use_existing, perform, answer_of.
  destruct (restore_existing w) as [err |].
  - cbn. unfold print_text.
    destruct (stdout err) as [o |], (stderr err) as [s |]; cbn;
      repeat match goal with
             | |- context [Js.truthy ?x] => destruct (Js.truthy x); cbn
             end; now split.
  - destruct (copy_lock w); [destruct (copy_obj_lock w) |]; cbn; now split.
Qed.

(** ** The candidate set *)

Lemma parse_step_packages (acc : ParsedConfig) (pkg : XmlNode) :
  packages (parse_step acc pkg)
  = (packages acc
     ++ (if is_candidate pkg then [candidate_of pkg] else []))%list.
Proof.
  unfold parse_step, is_candidate, candidate_of.
  destruct (truthy_opt (attr_id pkg) && truthy_opt (attr_version pkg));
    [| now rewrite app_nil_r].
  now destruct (negb (truthy_opt (targetFramework acc))
                && truthy_opt (attr_targetFramework pkg)).
Qed.

Lemma fold_parse_step_packages (l : list XmlNode) (acc : ParsedConfig) :
  packages (fold_left parse_step l acc)
  = (packages acc ++ map candidate_of (filter is_candidate l))%list.
Proof.
  revert acc. induction l as [| pkg l IH]; intros acc; cbn [fold_left filter].
  - now rewrite app_nil_r.
  - rewrite IH, parse_step_packages.
    destruct (is_candidate pkg); cbn [map]; now rewrite <- app_assoc.
Qed.

(** C9 (amended).  The candidate set built from a parsed manifest lists, in
    the order of the manifest, every entry that has an id and a version;
    entries sharing an id are all kept.  Narrowing only removes elements:
    the candidates left by the loop, and those at the head of each
    iteration, are the original sequence with some elements dropped and the
    others in their original order. *)
Theorem candidates_follow_manifest_order
    (result : XmlResult) (w : ManifestWorld)
    (csprojPath workdir tfm : string) (hasExplicitTfm failOnSkipped : bool)
    (original : list Package) :
  packages (collectPackages result)
  = map candidate_of
        (filter is_candidate
                match result with
                | PackagesFalsy => []
                | PackagesObject f => packageList f
                end)
  /\ Subsequence
       (Vars.compatiblePackages
          (snd (while_loop w csprojPath workdir tfm hasExplicitTfm
                           failOnSkipped (initial original))))
       original
  /\ forall v,
      at_loop_head w csprojPath workdir tfm hasExplicitTfm failOnSkipped
                   original v ->
      Subsequence (Vars.compatiblePackages v) original.
Proof.
  split; [| apply narrowing_keeps_order].
  destruct result as [| [| pkg | pkgs]]; try reflexivity;
    unfold collectPackages; now rewrite fold_parse_step_packages.
Qed.

(** C9 fails as stated: a manifest listing the id [A] twice gives two
    candidates with that id. *)
Lemma repeated_id_gives_two_candidates :
  let parsed :=
    collectPackages
      (PackagesObject
         (PackageArray [Example.node "A" "1.0"; Example.node "A" "2.0"])) in
  packages parsed
  = [ {| id := "A"; version := "1.0" |}; {| id := "A"; version := "2.0" |} ]
  /\ ~ NoDup (map id (packages parsed)).
Proof.
  split; [reflexivity |]. cbn. intros H. inversion H as [| x l Hin _]; subst.
  apply Hin. now left.
Qed.

(** C3 fails as stated: the resolver refuses [B 2.0], printing its
    diagnostic twice, and names [C 3.0] with it; the second attempt
    succeeds with [A 1.0] alone.  The loop has converged, and the skip
    list holds [C 3.0], which the original set never held, and [B 2.0]
    twice, though the original set has no duplicates. *)
Lemma skip_list_holds_strangers_and_repeats :
  let original := [Example.A1; Example.B2] in
  let v :=
    snd (while_loop Resolver.repeats_itself
           "/tmp/convert-nuget-Xa1/TempLockProject.csproj"
           "/tmp/convert-nuget-Xa1" "net472" false false
           (initial original)) in
  NoDup original
  /\ Vars.restoreSuccess v = true
  /\ Vars.compatiblePackages v = [Example.A1]
  /\ Vars.skippedPackages v = [Example.B2; Example.C3; Example.B2]
  /\ ~ incl (Vars.skippedPackages v) original
  /\ ~ NoDup (Vars.skippedPackages v).
Proof.
  cbv zeta.
  assert (Hskip : Vars.skippedPackages
                    (snd (while_loop Resolver.repeats_itself
                            "/tmp/convert-nuget-Xa1/TempLockProject.csproj"
                            "/tmp/convert-nuget-Xa1" "net472" false false
                            (initial [Example.A1; Example.B2])))
                  = [Example.B2; Example.C3; Example.B2])
    by (vm_compute; reflexivity).
  split; [| split; [| split; [| split; [| split]]]].
  - constructor; [cbn; intros [H | []]; discriminate |].
    constructor; [intros [] | constructor].
  - vm_compute. reflexivity.
  - vm_compute. reflexivity.
  - exact Hskip.
  - rewrite Hskip. intros H.
    assert (Hin : In Example.C3 [Example.A1; Example.B2])
      by (apply H; right; left; reflexivity).
    destruct Hin as [Hc | [Hc | []]]; discriminate.
  - rewrite Hskip. intros H. inversion H as [| x l Hnotin _]; subst.
    apply Hnotin. right. left. reflexivity.
Qed.

(** ** The strict flag *)

Section Outcomes.

Context {X A B : Type}.

Lemma snd_bind (m : Eff X A) (k : A -> Eff X B) :
  snd (bind m k) = match snd m with inl x => inl x | inr a => snd (k a) end.
Proof. destruct m as [t [x | a]]; cbn; [reflexivity |]. now destruct (k a). Qed.

Lemma snd_bind_inr (m : Eff X A) (k : A -> Eff X B) (a : A) :
  snd m = inr a -> snd (bind m k) = snd (k a).
Proof. intros H. now rewrite snd_bind, H. Qed.

Lemma snd_try_finally (m : Eff X A) (f : Eff X unit) :
  snd (try_finally m f) = match snd f with inl x => inl x | inr _ => snd m end.
Proof. now destruct m as [t r], f as [t' [x | u]]. Qed.

Lemma snd_catch_all (m : Eff X A) (h : X -> list Event * A) :
  snd (catch_all m h) = match snd m with inl x => snd (h x) | inr a => a end.
Proof. destruct m as [t [x | a]]; cbn; [| reflexivity]. now destruct (h x). Qed.

Lemma snd_after (t : list Event) (m : list Event * A) : snd (after t m) = snd m.
Proof. now destruct m. Qed.

Lemma snd_lift (m : list Event * A) : snd (lift (X := X) m) = inr (snd m).
Proof. now destruct m. Qed.

End Outcomes.

Lemma alike_refl (v : Vars.t) : alike v v.
Proof. unfold alike. tauto. Qed.

Section Strict.

Variable api : NodeApi.
Variable w : ManifestWorld.
Variables (csprojPath workdir tfm : string) (hasExplicitTfm : bool).

Local Notation "'body'" := (loop_body w csprojPath workdir tfm hasExplicitTfm).
Local Notation "'loop'" := (while_loop w csprojPath workdir tfm hasExplicitTfm).

(** Under the strict flag an iteration ends the way it ends without it,
    and leaves the same variables up to [lastError] after a successful
    restore: the error raised for the skipped packages is caught by the
    iteration's own [catch] clause. *)
Lemma loop_body_strict (v : Vars.t) :
  fst (snd (body true v)) = fst (snd (body false v))
  /\ alike (snd (snd (body true v))) (snd (snd (body false v)))
  /\ (fst (snd (body true v)) = Continue ->
      snd (snd (body true v)) = snd (snd (body false v))).
Proof.
  unfold loop_body.
  destruct (attempt w csprojPath workdir tfm hasExplicitTfm v)
    as [t0 [err | []]].
  - split; [reflexivity |]. split; [apply alike_refl | reflexivity].
  - destruct (0 <? List.length (Vars.skippedPackages v))%nat.
    + rewrite catch_block_no_progress by (left; reflexivity).
      cbn. repeat split; try reflexivity; discriminate.
    + split; [reflexivity |]. split; [apply alike_refl | reflexivity].
Qed.

Lemma while_loop_strict (v : Vars.t) :
  alike (snd (loop true v)) (snd (loop false v)).
Proof.
  pose proof (while_loop_runs w csprojPath workdir tfm hasExplicitTfm true v) as H.
  destruct (loop true v) as [t v']. cbn [fst snd] in *.
  induction H as [v Hc | v t v' Hc Hb | v t v1 t' v' Hc Hb _ IH];
    rewrite (while_loop_unroll w csprojPath workdir tfm hasExplicitTfm false v), Hc.
  - apply alike_refl.
  - destruct (loop_body_strict v) as (Hctl & Hal & _). rewrite Hb in *.
    destruct (body false v) as [t2 [c2 v2]]. cbn [fst snd] in *. subst c2.
    exact Hal.
  - destruct (loop_body_strict v) as (Hctl & _ & Hsame). rewrite Hb in *.
    destruct (body false v) as [t2 [c2 v2]]. cbn [fst snd] in *. subst c2.
    rewrite <- (Hsame eq_refl), snd_after. exact IH.
Qed.

Lemma after_loop_alike (lockFilePath : string) (v v' : Vars.t) :
  alike v v' ->
  snd (after_loop api w workdir lockFilePath v)
  = snd (after_loop api w workdir lockFilePath v').
Proof.
  intros (_ & Hs & _ & Hr & Hl). unfold after_loop.
  rewrite <- Hr, <- Hs. destruct (Vars.restoreSuccess v); cbn [negb].
  - reflexivity.
  - now rewrite <- (Hl eq_refl).
Qed.

End Strict.

(** The strict flag changes nothing in the result of processing a
    manifest. *)
Lemma processPackagesConfig_strict (api : NodeApi) (w : ManifestWorld)
    (packagesConfigPath defaultTfm : string) :
  snd (processPackagesConfig api w packagesConfigPath defaultTfm true)
  = snd (processPackagesConfig api w packagesConfigPath defaultTfm false).
Proof.
  assert (Hcatch : forall (m m' : Eff JsError Result) flag flag',
             snd m = snd m' ->
             snd (catch_all m (fun err =>
                    if flag && Js.includes (message err) "Packages were skipped"
                    then ([ConsoleError ("  Error: " ++ message err)], failed)
                    else ([ConsoleError ("  Error: " ++ message err)], failed)))
             = snd (catch_all m' (fun err =>
                    if flag' && Js.includes (message err) "Packages were skipped"
                    then ([ConsoleError ("  Error: " ++ message err)], failed)
                    else ([ConsoleError ("  Error: " ++ message err)], failed)))).
  { intros m m' flag flag' E. rewrite !snd_catch_all, E.
    destruct (snd m') as [err | r]; [| reflexivity].
    now destruct (flag && _), (flag' && _). }
  unfold processPackagesConfig. rewrite !snd_after. apply Hcatch.
  rewrite !snd_bind.
  destruct (snd (try_catch _ _)) as [err | [early | existingCsproj]];
    try reflexivity.
  destruct (truthy_opt existingCsproj); [reflexivity |].
  unfold generate_and_restore. rewrite !snd_bind.
  destruct (snd (parsePackagesConfig api w packagesConfigPath))
    as [err | parsed]; [reflexivity |].
  destruct (List.length (packages parsed) =? 0)%nat; [reflexivity |].
  rewrite !snd_bind.
  match goal with
  | |- context [snd (if ?c then _ else _)] => destruct c
  end; cbn [snd console_log emit ret];
    (destruct (snd (perform _ (mkdtemp w))) as [err | dir]; [reflexivity |];
     rewrite !snd_try_finally, !snd_bind, !snd_lift;
     rewrite (after_loop_alike api w dir _
                (while_loop_strict w _ dir _ _ (initial (packages parsed))));
     reflexivity).
Qed.

(** ** The run and its exit status *)

Section RunFacts.

Variable api : NodeApi.
Variable mw : MainWorld.

(** The counters after the loop over the manifests: each result counted in
    turn. *)
Lemma process_all_tally (tfm : string) (strict : bool) (files : list string)
    (acc : Tally) :
  snd (process_all api mw tfm strict files acc)
  = fold_left count
      (map (fun f => snd (processPackagesConfig api (world_of mw f) f tfm strict))
           files)
      acc.
Proof.
  revert acc. induction files as [| f files IH]; intros acc; [reflexivity |].
  cbn [process_all map fold_left].
  destruct (processPackagesConfig api (world_of mw f) f tfm strict) as [t r].
  now rewrite snd_after, IH.
Qed.

Lemma count_all_succeeded (results : list Result) (acc : Tally) :
  Forall (fun r => success r = true) results ->
  failCount (fold_left count results acc) = failCount acc.
Proof.
  intros H. revert acc. induction H as [| r results Hr _ IH]; intros acc;
    [reflexivity |].
  cbn [fold_left]. rewrite IH. unfold count. cbn [failCount]. now rewrite Hr.
Qed.

Lemma count_keeps_skipped (results : list Result) (acc : Tally) :
  List.length (totalSkippedPackages acc)
  <= List.length (totalSkippedPackages (fold_left count results acc)).
Proof.
  revert acc. induction results as [| r results IH]; intros acc; [cbn; lia |].
  cbn [fold_left]. eapply Nat.le_trans; [| apply IH].
  unfold count. cbn [totalSkippedPackages].
  destruct (0 <? List.length (skippedPackages r))%nat;
    [rewrite length_app |]; lia.
Qed.

Lemma count_some_skipped (results : list Result) (acc : Tally) :
  Exists (fun r => skippedPackages r <> []) results ->
  0 < List.length (totalSkippedPackages (fold_left count results acc)).
Proof.
  intros H. revert acc. induction H as [r results Hr | r results _ IH];
    intros acc; cbn [fold_left]; [| apply IH].
  eapply Nat.lt_le_trans; [| apply count_keeps_skipped].
  unfold count. cbn [totalSkippedPackages].
  destruct (skippedPackages r) as [| p l]; [congruence |].
  cbn [List.length Nat.ltb Nat.leb]. rewrite length_app. cbn [List.length]. lia.
Qed.

(** The status of a run that gets as far as the manifests is decided by
    the counters. *)
Lemma main_exit_status (args : Args) :
  snd (parseArgs (argv mw) (cwd mw)) = inr args ->
  Js.includes (path_resolve api (rootDir args)) ".."
  || (Js.includes (path_resolve api (rootDir args)) "~"
      && negb (Js.startsWith (path_resolve api (rootDir args))
                             (or_empty (HOME mw)))) = false ->
  stat_isDirectory mw = inr true ->
  snd (probe mw (commonPaths api mw)) = true
  \/ dotnet_version mw "dotnet" = None ->
  snd (main api mw)
  = let tally :=
      snd (process_all api mw (tfm args) (failOnSkipped args)
             (snd (findPackagesConfigFiles api mw
                     (path_resolve api (rootDir args))))
             no_tally) in
    if (0 <? failCount tally)%nat then 1
    else if failOnSkipped args
            && (0 <? List.length (totalSkippedPackages tally))%nat
         then 2 else 0.
Proof.
  intros Hargs Hroot Hstat Hdotnet. unfold main.
  assert (E : snd (main_body api mw)
              = snd (final_exit args
                       (snd (process_all api mw (tfm args) (failOnSkipped args)
                               (snd (findPackagesConfigFiles api mw
                                       (path_resolve api (rootDir args))))
                               no_tally)))).
  { unfold main_body.
    rewrite (snd_bind_inr _ _ Hargs). rewrite snd_bind, Hroot.
    cbn [snd ret]. rewrite snd_bind. cbn [snd emit].
    rewrite snd_bind, Hstat. cbn [snd ret].
    rewrite (snd_bind_inr _ _ (snd_lift _)).
    assert (Hfound : snd (if negb (snd (probe mw (commonPaths api mw)))
                          then emit (X := nat) (ExecFile "dotnet" ["--version"] None) ;;
                               match dotnet_version mw "dotnet" with
                               | None => ret tt
                               | Some _ =>
                                   console_error
                                     "Error: dotnet CLI is required but not installed" ;;
                                   process_exit 1
                               end
                          else ret tt) = inr tt).
    { destruct (snd (probe mw (commonPaths api mw))); [reflexivity |].
      destruct Hdotnet as [H | H]; [discriminate |]. now rewrite H. }
    rewrite (snd_bind_inr _ _ Hfound).
    do 5 (rewrite snd_bind; cbn [snd console_log emit]).
    rewrite (snd_bind_inr _ _ (snd_lift _)).
    rewrite (snd_bind_inr _ _ (snd_lift _)).
    rewrite snd_bind.
    match goal with
    | |- match snd (if ?c then _ else _) with _ => _ end = _ => destruct c
    end; cbn [snd console_log emit ret]; now rewrite snd_bind. }
  destruct (main_body api mw) as [t r]. cbn [snd] in E. subst r.
  cbv zeta. unfold final_exit. rewrite snd_bind.
  destruct (0 <? failCount _)%nat; [reflexivity |]. cbn [snd ret].
  now destruct (failOnSkipped args && _).
Qed.

End RunFacts.

(** C5.  With the strict flag set, when the run gets to the manifests,
    every manifest is resolved successfully as it would be without the
    flag, and one of them has skipped a package, the process exits with
    status 2. *)
Theorem strict_flag_with_skips_exits_2
    (api : NodeApi) (mw : MainWorld) (args : Args) :
  let root := path_resolve api (rootDir args) in
  let files := snd (findPackagesConfigFiles api mw root) in
  let outcome f :=
    snd (processPackagesConfig api (world_of mw f) f (tfm args) false) in
  snd (parseArgs (argv mw) (cwd mw)) = inr args ->
  failOnSkipped args = true ->
  Js.includes root ".."
  || (Js.includes root "~"
      && negb (Js.startsWith root (or_empty (HOME mw)))) = false ->
  stat_isDirectory mw = inr true ->
  snd (probe mw (commonPaths api mw)) = true
  \/ dotnet_version mw "dotnet" = None ->
  (forall f, In f files -> success (outcome f) = true) ->
  (exists f, In f files /\ skippedPackages (outcome f) <> []) ->
  snd (main api mw) = 2.
Proof.
  intros root files outcome Hargs Hflag Hroot Hstat Hdotnet Hall Hsome.
  rewrite (main_exit_status api mw Hargs Hroot Hstat Hdotnet).
  cbv zeta. fold root. fold files. rewrite Hflag, process_all_tally.
  rewrite (map_ext _ outcome)
    by (intros f; apply processPackagesConfig_strict).
  rewrite count_all_succeeded.
  - assert (H : 0 < List.length
                      (totalSkippedPackages
                         (fold_left count (map outcome files) no_tally))).
    { apply count_some_skipped. apply Exists_exists.
      destruct Hsome as (f & Hin & Hskip).
      exists (outcome f). split; [now apply in_map | exact Hskip]. }
    apply Nat.ltb_lt in H. rewrite H. reflexivity.
  - apply Forall_forall. intros r Hr. apply in_map_iff in Hr.
    destruct Hr as (f & <- & Hin). now apply Hall.
Qed.

(** ** Scenarios *)

(** The manifest lists [A 1.0] and [B 2.0]; the resolver refuses [B 2.0];
    the second attempt, with [A 1.0] alone, succeeds: the manifest is a
    success and its skip list is [B 2.0], in two resolver invocations. *)
Lemma one_package_skipped :
  let run :=
    processPackagesConfig
      (Example.api Example.manifest_text Example.manifest)
      Example.refuses_B "/repo/app/packages.config" "net472" false in
  snd run = {| success := true; skippedPackages := [Example.B2] |}
  /\ restore_count (fst run) = 2.
Proof. cbv zeta. split; vm_compute; reflexivity. Qed.

(** ** The theorems at concrete worlds *)

(** The split of C3 at the world where the resolver names a package the
    manifest does not list. *)
Lemma narrowing_splits_at_stranger :
  let original := [Example.A1; Example.B2] in
  let v :=
    snd (while_loop Example.names_a_stranger
           "/tmp/convert-nuget-Xa1/TempLockProject.csproj"
           "/tmp/convert-nuget-Xa1" "net472" false false
           (initial original)) in
  NoDup original
  /\ Vars.compatiblePackages v
     = filter (still_compatible (Vars.skippedPackages v)) original
  /\ NoDup (Vars.compatiblePackages v)
  /\ exists errs,
      Forall (fun err => Js.includes (errorOutput err) "NU1202" = true) errs
      /\ Vars.skippedPackages v = named errs.
Proof.
  cbv zeta.
  assert (Hnodup : NoDup [Example.A1; Example.B2]).
  { constructor; [cbn; intros [H | []]; discriminate |].
    constructor; [intros [] | constructor]. }
  destruct (narrowing_splits_original_by_skip_list Example.names_a_stranger
              "/tmp/convert-nuget-Xa1/TempLockProject.csproj"
              "/tmp/convert-nuget-Xa1" "net472" false false
              [Example.A1; Example.B2])
    as (Heq & _ & _ & _ & Hkeep & errs & _ & Hall & Hskip).
  split; [exact Hnodup |]. split; [exact Heq |].
  split; [exact (Hkeep Hnodup) |].
  exists errs. split; [exact Hall | exact Hskip].
Defined.

(** C4 at a manifest without packages. *)
Lemma empty_manifest_at_example :
  let api := Example.api "<packages />" PackagesFalsy in
  let w := Example.empty_manifest in
  let path := "/repo/app/packages.config" in
  (snd (findCsprojFile api w (path_dirname api path)) = inr None
   /\ readFile w = inr "<packages />"
   /\ xml_parse api "<packages />" = inr PackagesFalsy
   /\ packages (collectPackages PackagesFalsy) = [])
  /\ snd (processPackagesConfig api w path "net472" false) = failed
  /\ restore_count (fst (processPackagesConfig api w path "net472" false)) = 0.
Proof.
  cbv zeta.
  assert (H1 : snd (findCsprojFile (Example.api "<packages />" PackagesFalsy)
                      Example.empty_manifest
                      (path_dirname (Example.api "<packages />" PackagesFalsy)
                                    "/repo/app/packages.config")) = inr None)
    by reflexivity.
  assert (H2 : readFile Example.empty_manifest = inr "<packages />")
    by reflexivity.
  assert (H3 : xml_parse (Example.api "<packages />" PackagesFalsy)
                         "<packages />" = inr PackagesFalsy)
    by reflexivity.
  assert (H4 : packages (collectPackages PackagesFalsy) = []) by reflexivity.
  destruct (empty_manifest_fails_without_restore
              (Example.api "<packages />" PackagesFalsy) Example.empty_manifest
              "/repo/app/packages.config" "net472" false H1 H2 H3 H4)
    as [Hrun Hcount].
  split; [now repeat split |]. split; [now rewrite Hrun | exact Hcount].
Defined.

(** C5 at a tree with one manifest, whose resolver refuses one package and
    then succeeds, run with [--fail-on-skipped]. *)
Lemma strict_run_exits_2 :
  let api := Example.api Example.manifest_text Example.manifest in
  let mw := Example.strict_run (fun _ => Example.names_a_stranger) in
  let args :=
    {| tfm := "net472"; rootDir := "/repo"; failOnSkipped := true |} in
  snd (parseArgs (argv mw) (cwd mw)) = inr args
  /\ snd (findPackagesConfigFiles api mw "/repo") = ["/repo/app/packages.config"]
  /\ snd (main api mw) = 2.
Proof.
  cbv zeta. split; [reflexivity |]. split; [reflexivity |].
  apply (strict_flag_with_skips_exits_2
           (Example.api Example.manifest_text Example.manifest)
           (Example.strict_run (fun _ => Example.names_a_stranger))
           (args := {| tfm := "net472"; rootDir := "/repo";
                       failOnSkipped := true |})).
  - reflexivity.
  - reflexivity.
  - reflexivity.
  - reflexivity.
  - left. reflexivity.
  - intros f [<- | []]. vm_compute. reflexivity.
  - exists "/repo/app/packages.config". split; [now left |].
    vm_compute. discriminate.
Defined.

(** C6 at a resolver failing without the incompatibility code. *)
Lemma unrecognised_failure_at_example :
  let api := Example.api Example.manifest_text Example.manifest in
  let w := Example.other_failure in
  let err := Example.restore_error "error NU1101: Unable to find package A." in
  let v := initial [Example.A1; Example.B2] in
  (loop_cond v = true
   /\ Js.includes (errorOutput err) "NU1202" = false)
  /\ restore_count
       (fst (while_loop w "/tmp/convert-nuget-Xa1/TempLockProject.csproj"
                        "/tmp/convert-nuget-Xa1" "net472" false false v)) = 1.
Proof.
  cbv zeta. split; [split; reflexivity |].
  refine (proj1 (proj2 (@unrecognised_failure_ends_loop
                   (Example.api Example.manifest_text Example.manifest)
                   Example.other_failure
                   "/tmp/convert-nuget-Xa1/TempLockProject.csproj"
                   "/tmp/convert-nuget-Xa1" "net472" false false
                   "/repo/app/packages.lock.json"
                   [Example.A1; Example.B2]
                   (initial [Example.A1; Example.B2])
                   (Example.restore_error
                      "error NU1101: Unable to find package A.")
                   _ _ _ _ _))).
  - apply head_first.
  - reflexivity.
  - reflexivity.
  - reflexivity.
  - left. reflexivity.
Defined.

(** C7 at the world where the resolver refuses one package: the iteration
    that continues goes from two candidates to one. *)
Lemma narrowing_terminates_at_stranger :
  let w := Example.names_a_stranger in
  let v := initial [Example.A1; Example.B2] in
  let step :=
    loop_body w "/tmp/convert-nuget-Xa1/TempLockProject.csproj"
              "/tmp/convert-nuget-Xa1" "net472" false false v in
  fst (snd step) = Continue
  /\ List.length (Vars.compatiblePackages (snd (snd step)))
     < List.length (Vars.compatiblePackages v).
Proof.
  cbv zeta. split; [reflexivity |].
  destruct (narrowing_terminates_within_maxRetries
              (Example.api Example.manifest_text Example.manifest)
              Example.names_a_stranger
              "/tmp/convert-nuget-Xa1/TempLockProject.csproj"
              "/tmp/convert-nuget-Xa1" "net472" false false
              [Example.A1; Example.B2] "/repo/app/packages.config" "net472")
    as (_ & _ & _ & _ & Hstep).
  eapply Hstep. vm_compute. reflexivity.
Defined.

(** C8 at a directory with two project files. *)
Lemma ambiguous_descriptor_at_example :
  let api := Example.api Example.manifest_text Example.manifest in
  let mw := Example.strict_run (fun _ => Example.two_projects) in
  let entries :=
    [ {| name := "packages.config"; isFile := true |};
      {| name := "App.csproj"; isFile := true |};
      {| name := "Lib.csproj"; isFile := true |} ] in
  (readdir (world_of mw "/repo/app/packages.config") = inr entries
   /\ 1 < List.length (filter is_csproj entries))
  /\ processPackagesConfig api (world_of mw "/repo/app/packages.config")
       "/repo/app/packages.config" "net472" false
     = ([ConsoleLog "Processing: /repo/app/packages.config";
         Readdir "/repo/app";
         ConsoleError
           "  Error: Multiple .csproj files found in /repo/app: App.csproj, Lib.csproj"],
        failed).
Proof.
  cbv zeta.
  assert (H1 : readdir (world_of (Example.strict_run (fun _ => Example.two_projects))
                                 "/repo/app/packages.config")
               = inr [ {| name := "packages.config"; isFile := true |};
                       {| name := "App.csproj"; isFile := true |};
                       {| name := "Lib.csproj"; isFile := true |} ])
    by reflexivity.
  assert (H2 : 1 < List.length
                     (filter is_csproj
                        [ {| name := "packages.config"; isFile := true |};
                          {| name := "App.csproj"; isFile := true |};
                          {| name := "Lib.csproj"; isFile := true |} ]))
    by (vm_compute; lia).
  split; [split; [exact H1 | exact H2] |].
  exact (proj1 (ambiguous_descriptor_fails_that_manifest_only
                  (Example.api Example.manifest_text Example.manifest)
                  (Example.strict_run (fun _ => Example.two_projects))
                  "net472" false "/repo/app/packages.config" H1 H2)).
Defined.

(** C9 at the world where the resolver refuses one package. *)
Lemma candidates_follow_order_at_stranger :
  let original := [Example.A1; Example.B2] in
  at_loop_head Example.names_a_stranger
    "/tmp/convert-nuget-Xa1/TempLockProject.csproj"
    "/tmp/convert-nuget-Xa1" "net472" false false original (initial original)
  /\ Subsequence (Vars.compatiblePackages (initial original)) original.
Proof.
  cbv zeta.
  assert (H : at_loop_head Example.names_a_stranger
                "/tmp/convert-nuget-Xa1/TempLockProject.csproj"
                "/tmp/convert-nuget-Xa1" "net472" false false
                [Example.A1; Example.B2] (initial [Example.A1; Example.B2]))
    by apply head_first.
  split; [exact H |].
  exact (proj2 (proj2 (candidates_follow_manifest_order
                         Example.manifest Example.names_a_stranger
                         "/tmp/convert-nuget-Xa1/TempLockProject.csproj"
                         "/tmp/convert-nuget-Xa1" "net472" false false
                         [Example.A1; Example.B2])) _ H).
Defined.

(** C10 at a directory with one project file: a manifest the parser
    rejects is processed as the well-formed one is. *)
Lemma existing_descriptor_at_example :
  let api := Example.api Example.manifest_text Example.manifest in
  let w := Example.one_project Example.manifest_text in
  let w' := Example.one_project "<packages><package id=" in
  let path := "/repo/app/packages.config" in
  (readdir w = inr [ {| name := "packages.config"; isFile := true |};
                     {| name := "App.csproj"; isFile := true |} ]
   /\ filter is_csproj [ {| name := "packages.config"; isFile := true |};
                         {| name := "App.csproj"; isFile := true |} ]
      = [ {| name := "App.csproj"; isFile := true |} ])
  /\ processPackagesConfig api w' path "net472" false
     = processPackagesConfig api w path "net472" false.
Proof.
  cbv zeta. split; [split; reflexivity |].
  refine (proj1 (@existing_descriptor_ignores_manifest
                   (Example.api Example.manifest_text Example.manifest)
                   (Example.one_project Example.manifest_text)
                   (Example.one_project "<packages><package id=")
                   "/repo/app/packages.config" "net472" false
                   [ {| name := "packages.config"; isFile := true |};
                     {| name := "App.csproj"; isFile := true |} ]
                   {| name := "App.csproj"; isFile := true |}
                   _ _ _ _ _ _)); reflexivity.
Defined.

(* ===================================================================== *)
(** * Further properties *)
(* ===================================================================== *)

(** ** The command line *)

(** How [parseArgs_from] ends, whatever settings it starts from: quietly
    with settings taken from the arguments, or with the usage text and
    status 0, or with one error line and status 2. *)
Lemma parseArgs_from_outcome (n : nat) :
  forall (args : list string) (acc : Args),
    List.length args <= n ->
    match parseArgs_from args acc with
    | (t, inr r) =>
        t = []
        /\ (tfm r = tfm acc \/ (Js.truthy (tfm r) = true /\ In (tfm r) args))
        /\ (rootDir r = rootDir acc
            \/ (Js.truthy (rootDir r) = true /\ In (rootDir r) args))
        /\ (failOnSkipped r = true ->
            failOnSkipped acc = true \/ In "--fail-on-skipped" args)
    | (t, inl code) =>
        (code = 0 /\ t = [ConsoleLog usage]
         /\ (In "-h" args \/ In "--help" args))
        \/ (code = 2 /\ exists msg, t = [ConsoleError msg])
    end.
Proof.
  induction n as [| n IH]; intros args acc Hlen.
  - destruct args; [| cbn in Hlen; lia]. cbn. tauto.
  - destruct args as [| arg rest]; [cbn; tauto |].
    cbn [parseArgs_from].
    destruct (String.eqb arg "--tfm") eqn:Etfm;
      [| destruct (String.eqb arg "--root") eqn:Eroot;
         [| destruct (String.eqb arg "--fail-on-skipped") eqn:Estrict;
            [| destruct (String.eqb arg "-h" || String.eqb arg "--help") eqn:Ehelp]]].
    + destruct rest as [| value rest']; [right; split; [reflexivity | eexists; reflexivity] |].
      destruct (Js.truthy value) eqn:Ev;
        [| right; split; [reflexivity | eexists; reflexivity]].
      specialize (IH rest' {| tfm := value; rootDir := rootDir acc;
                              failOnSkipped := failOnSkipped acc |}).
      destruct (parseArgs_from rest' _) as [t [code | r]].
      * destruct IH as [(-> & -> & Hh) | (-> & msg & ->)]; [cbn in *; lia | |].
        -- left. repeat split; try reflexivity. cbn. tauto.
        -- right. split; [reflexivity | now exists msg].
      * destruct IH as (-> & Ht & Hr & Hs); [cbn in *; lia |]. cbn in *.
        split; [reflexivity |]. split; [| split].
        -- right. destruct Ht as [-> | [Ht1 Ht2]]; [split; [exact Ev | tauto] |].
           split; [exact Ht1 | tauto].
        -- destruct Hr as [-> | [Hr1 Hr2]]; [now left | right]. tauto.
        -- intros Hf. destruct (Hs Hf) as [H | H]; [now left | right; tauto].
    + destruct rest as [| value rest']; [right; split; [reflexivity | eexists; reflexivity] |].
      destruct (Js.truthy value) eqn:Ev;
        [| right; split; [reflexivity | eexists; reflexivity]].
      specialize (IH rest' {| tfm := tfm acc; rootDir := value;
                              failOnSkipped := failOnSkipped acc |}).
      destruct (parseArgs_from rest' _) as [t [code | r]].
      * destruct IH as [(-> & -> & Hh) | (-> & msg & ->)]; [cbn in *; lia | |].
        -- left. repeat split; try reflexivity. cbn. tauto.
        -- right. split; [reflexivity | now exists msg].
      * destruct IH as (-> & Ht & Hr & Hs); [cbn in *; lia |]. cbn in *.
        split; [reflexivity |]. split; [| split].
        -- destruct Ht as [-> | [Ht1 Ht2]]; [now left | right]. tauto.
        -- right. destruct Hr as [-> | [Hr1 Hr2]]; [split; [exact Ev | tauto] |].
           split; [exact Hr1 | tauto].
        -- intros Hf. destruct (Hs Hf) as [H | H]; [now left | right; tauto].
    + apply String.eqb_eq in Estrict. subst arg.
      specialize (IH rest {| tfm := tfm acc; rootDir := rootDir acc;
                             failOnSkipped := true |}).
      destruct (parseArgs_from rest _) as [t [code | r]].
      * destruct IH as [(-> & -> & Hh) | (-> & msg & ->)]; [cbn in *; lia | |].
        -- left. repeat split; try reflexivity. cbn. tauto.
        -- right. split; [reflexivity | now exists msg].
      * destruct IH as (-> & Ht & Hr & Hs); [cbn in *; lia |]. cbn in *.
        split; [reflexivity |]. split; [| split].
        -- destruct Ht as [-> | [Ht1 Ht2]]; [now left | right]. tauto.
        -- destruct Hr as [-> | [Hr1 Hr2]]; [now left | right]. tauto.
        -- intros _. right. now left.
    + left. split; [reflexivity |]. split; [reflexivity |].
      apply orb_true_iff in Ehelp. cbn.
      destruct Ehelp as [H | H]; apply String.eqb_eq in H; subst; tauto.
    + right. split; [reflexivity | eexists; reflexivity].
Qed.

(** X1.  When [parseArgs] returns, it has printed nothing; the target
    framework is the default or a non-empty argument, the root directory is
    the working directory or a non-empty argument, and the strict flag is
    set only if [--fail-on-skipped] is among the arguments. *)
Theorem parseArgs_returns_settings_from_arguments
    (argv : list string) (cwd : string) (t : list Event) (args : Args) :
  parseArgs argv cwd = (t, inr args) ->
  t = []
  /\ (tfm args = DEFAULT_TFM
      \/ (Js.truthy (tfm args) = true /\ In (tfm args) argv))
  /\ (rootDir args = cwd
      \/ (Js.truthy (rootDir args) = true /\ In (rootDir args) argv))
  /\ (failOnSkipped args = true -> In "--fail-on-skipped" argv).
Proof.
  intros H. unfold parseArgs in H.
  pose proof (parseArgs_from_outcome
                argv {| tfm := DEFAULT_TFM; rootDir := cwd;
                        failOnSkipped := false |} (Nat.le_refl _)) as Hout.
  rewrite H in Hout. cbn in Hout. destruct Hout as (Ht & Htfm & Hroot & Hs).
  repeat split; try assumption.
  intros Hf. destruct (Hs Hf) as [Hd | Hin]; [discriminate | exact Hin].
Qed.

(** X2.  When [parseArgs] ends the process, the status is 0 or 2, never 1:
    0 with the usage text alone on the output, and only if [-h] or
    [--help] is among the arguments; 2 with one line on the error
    output. *)
Theorem parseArgs_exits_with_0_or_2
    (argv : list string) (cwd : string) (t : list Event) (code : nat) :
  parseArgs argv cwd = (t, inl code) ->
  (code = 0 /\ t = [ConsoleLog usage] /\ (In "-h" argv \/ In "--help" argv))
  \/ (code = 2 /\ exists msg, t = [ConsoleError msg]).
Proof.
  intros H. unfold parseArgs in H.
  pose proof (parseArgs_from_outcome
                argv {| tfm := DEFAULT_TFM; rootDir := cwd;
                        failOnSkipped := false |} (Nat.le_refl _)) as Hout.
  now rewrite H in Hout.
Qed.

(** Arguments that are read to the end leave settings from which the
    arguments after them are read. *)
Lemma parseArgs_from_app (n : nat) :
  forall (args more : list string) (acc mid : Args),
    List.length args <= n ->
    parseArgs_from args acc = ([], inr mid) ->
    parseArgs_from (args ++ more) acc = parseArgs_from more mid.
Proof.
  induction n as [| n IH]; intros args more acc mid Hlen Hargs.
  - destruct args; [| cbn in Hlen; lia]. cbn in Hargs.
    injection Hargs as <-. reflexivity.
  - destruct args as [| arg rest].
    { cbn in Hargs. injection Hargs as <-. reflexivity. }
    cbn [parseArgs_from app] in *.
    destruct (String.eqb arg "--tfm");
      [| destruct (String.eqb arg "--root");
         [| destruct (String.eqb arg "--fail-on-skipped");
            [| destruct (String.eqb arg "-h" || String.eqb arg "--help")]]];
      try discriminate.
    + destruct rest as [| value rest']; [discriminate |]. cbn [app].
      destruct (Js.truthy value); [| discriminate].
      apply IH; [cbn in Hlen; lia | exact Hargs].
    + destruct rest as [| value rest']; [discriminate |]. cbn [app].
      destruct (Js.truthy value); [| discriminate].
      apply IH; [cbn in Hlen; lia | exact Hargs].
    + apply IH; [cbn in Hlen; lia | exact Hargs].
Qed.

(** The same arguments read from two settings end alike: with the same
    output and status when they end the process, and otherwise with
    settings that the arguments have set to the same values or left as
    they found them. *)
Lemma parseArgs_from_settings (n : nat) :
  forall (args : list string) (acc acc' : Args),
    List.length args <= n ->
    match parseArgs_from args acc, parseArgs_from args acc' with
    | (t, inl code), (t', inl code') => t = t' /\ code = code'
    | (t, inr r), (t', inr r') =>
        t = [] /\ t' = []
        /\ ((tfm r = tfm acc /\ tfm r' = tfm acc') \/ tfm r = tfm r')
        /\ ((rootDir r = rootDir acc /\ rootDir r' = rootDir acc')
            \/ rootDir r = rootDir r')
        /\ ((failOnSkipped r = failOnSkipped acc
             /\ failOnSkipped r' = failOnSkipped acc')
            \/ (failOnSkipped r = true /\ failOnSkipped r' = true))
    | _, _ => False
    end.
Proof.
  induction n as [| n IH]; intros args acc acc' Hlen.
  - destruct args; [| cbn in Hlen; lia]. cbn. tauto.
  - destruct args as [| arg rest]; [cbn; tauto |].
    cbn [parseArgs_from].
    destruct (String.eqb arg "--tfm");
      [| destruct (String.eqb arg "--root");
         [| destruct (String.eqb arg "--fail-on-skipped");
            [| destruct (String.eqb arg "-h" || String.eqb arg "--help")]]];
      try (cbn; now split).
    + destruct rest as [| value rest']; [cbn; now split |].
      destruct (Js.truthy value); [| cbn; now split].
      specialize (IH rest'
                     {| tfm := value; rootDir := rootDir acc;
                        failOnSkipped := failOnSkipped acc |}
                     {| tfm := value; rootDir := rootDir acc';
                        failOnSkipped := failOnSkipped acc' |}).
      destruct (parseArgs_from rest' _) as [t [code | r]],
               (parseArgs_from rest' _) as [t' [code' | r']];
        try (apply IH; cbn in Hlen; lia).
      destruct IH as (Ht & Ht' & Htfm & Hroot & Hflag); [cbn in Hlen; lia |].
      cbn in Htfm, Hroot, Hflag. repeat split; try assumption.
      right. destruct Htfm as [[-> ->] | H]; [reflexivity | exact H].
    + destruct rest as [| value rest']; [cbn; now split |].
      destruct (Js.truthy value); [| cbn; now split].
      specialize (IH rest'
                     {| tfm := tfm acc; rootDir := value;
                        failOnSkipped := failOnSkipped acc |}
                     {| tfm := tfm acc'; rootDir := value;
                        failOnSkipped := failOnSkipped acc' |}).
      destruct (parseArgs_from rest' _) as [t [code | r]],
               (parseArgs_from rest' _) as [t' [code' | r']];
        try (apply IH; cbn in Hlen; lia).
      destruct IH as (Ht & Ht' & Htfm & Hroot & Hflag); [cbn in Hlen; lia |].
      cbn in Htfm, Hroot, Hflag. repeat split; try assumption.
      right. destruct Hroot as [[-> ->] | H]; [reflexivity | exact H].
    + specialize (IH rest
                     {| tfm := tfm acc; rootDir := rootDir acc;
                        failOnSkipped := true |}
                     {| tfm := tfm acc'; rootDir := rootDir acc';
                        failOnSkipped := true |}).
      destruct (parseArgs_from rest _) as [t [code | r]],
               (parseArgs_from rest _) as [t' [code' | r']];
        try (apply IH; cbn in Hlen; lia).
      destruct IH as (Ht & Ht' & Htfm & Hroot & Hflag); [cbn in Hlen; lia |].
      cbn in Htfm, Hroot, Hflag. repeat split; try assumption.
      right. destruct Hflag as [[-> ->] | H]; [now split | exact H].
Qed.

(** X3.  The arguments are read from left to right.  When a first group
    of arguments is read to the end, the arguments after it are read from
    the settings the group leaves.  So a later [--tfm] replaces the
    framework and a later [--root] the root directory, each leaving the
    other settings as they are, and a later [--fail-on-skipped] sets the
    strict flag.  Arguments that end the process when they are alone on
    the command line end it with the same output and status behind the
    group.  Arguments that are read to the end when alone are read to the
    end behind the group, and give the framework and the root they give
    alone, or those of the group where alone they give the default and
    the working directory; the strict flag is set if the group or they
    set it. *)
Theorem parseArgs_reads_left_to_right
    (args more : list string) (cwd : string) (mid : Args) :
  parseArgs args cwd = ([], inr mid) ->
  parseArgs (args ++ more) cwd = parseArgs_from more mid
  /\ (forall value,
        Js.truthy value = true ->
        parseArgs (args ++ ["--tfm"; value]) cwd
        = ([], inr {| tfm := value; rootDir := rootDir mid;
                      failOnSkipped := failOnSkipped mid |}))
  /\ (forall value,
        Js.truthy value = true ->
        parseArgs (args ++ ["--root"; value]) cwd
        = ([], inr {| tfm := tfm mid; rootDir := value;
                      failOnSkipped := failOnSkipped mid |}))
  /\ parseArgs (args ++ ["--fail-on-skipped"]) cwd
     = ([], inr {| tfm := tfm mid; rootDir := rootDir mid;
                   failOnSkipped := true |})
  /\ (forall t code,
        parseArgs more cwd = (t, inl code) ->
        parseArgs (args ++ more) cwd = (t, inl code))
  /\ (forall later,
        snd (parseArgs more cwd) = inr later ->
        exists r,
          parseArgs (args ++ more) cwd = ([], inr r)
          /\ (tfm r = tfm later
              \/ (tfm later = DEFAULT_TFM /\ tfm r = tfm mid))
          /\ (rootDir r = rootDir later
              \/ (rootDir later = cwd /\ rootDir r = rootDir mid))
          /\ failOnSkipped r = failOnSkipped mid || failOnSkipped later).
Proof.
  intros H. unfold parseArgs in *.
  assert (Happ : forall later,
             parseArgs_from (args ++ later)
               {| tfm := DEFAULT_TFM; rootDir := cwd; failOnSkipped := false |}
             = parseArgs_from later mid).
  { intros later.
    exact (@parseArgs_from_app (List.length args) args later _ _
             (Nat.le_refl _) H). }
  split; [apply Happ |]. split; [| split; [| split; [| split]]].
  - intros value Hv. rewrite Happ. cbn. now rewrite Hv.
  - intros value Hv. rewrite Happ. cbn. now rewrite Hv.
  - rewrite Happ. reflexivity.
  - intros t code Hmore. rewrite Happ.
    pose proof (@parseArgs_from_settings (List.length more) more
                  {| tfm := DEFAULT_TFM; rootDir := cwd;
                     failOnSkipped := false |} mid (Nat.le_refl _)) as Hs.
    rewrite Hmore in Hs.
    destruct (parseArgs_from more mid) as [t' [code' | r']]; [| destruct Hs].
    destruct Hs as [-> ->]. reflexivity.
  - intros later Hmore. rewrite Happ.
    pose proof (@parseArgs_from_settings (List.length more) more
                  {| tfm := DEFAULT_TFM; rootDir := cwd;
                     failOnSkipped := false |} mid (Nat.le_refl _)) as Hs.
    destruct (parseArgs_from more _) as [t [code | r0]] in Hmore, Hs;
      cbn [snd] in Hmore; [discriminate |].
    injection Hmore as ->.
    destruct (parseArgs_from more mid) as [t' [code' | r]]; [destruct Hs |].
    destruct Hs as (_ & -> & Htfm & Hroot & Hflag).
    cbn [tfm rootDir failOnSkipped] in Htfm, Hroot, Hflag.
    exists r. split; [reflexivity |]. split; [| split].
    + destruct Htfm as [[H1 H2] | H3]; [right; now split | left; now symmetry].
    + destruct Hroot as [[H1 H2] | H3]; [right; now split | left; now symmetry].
    + destruct Hflag as [[H1 H2] | [H1 H2]]; rewrite H1, H2.
      * now rewrite orb_false_r.
      * now rewrite orb_true_r.
Qed.

(** X1 at a command line setting the framework and the strict flag. *)
Lemma parseArgs_returns_at_example :
  parseArgs ["--tfm"; "net48"; "--fail-on-skipped"] "/repo"
  = ([], inr {| tfm := "net48"; rootDir := "/repo"; failOnSkipped := true |})
  /\ In "--fail-on-skipped" ["--tfm"; "net48"; "--fail-on-skipped"].
Proof.
  assert (H : parseArgs ["--tfm"; "net48"; "--fail-on-skipped"] "/repo"
              = ([], inr {| tfm := "net48"; rootDir := "/repo";
                            failOnSkipped := true |})) by reflexivity.
  split; [exact H |].
  exact (proj2 (proj2 (proj2 (@parseArgs_returns_settings_from_arguments
                                _ _ _ _ H))) eq_refl).
Defined.

(** X2 at a command line with a value missing. *)
Lemma parseArgs_exits_at_example :
  parseArgs ["--root"] "/repo"
  = ([ConsoleError "Error: --root requires a value"], inl 2)
  /\ ((2 = 0 /\ [ConsoleError "Error: --root requires a value"]
               = [ConsoleLog usage]
       /\ (In "-h" ["--root"] \/ In "--help" ["--root"]))
      \/ (2 = 2 /\ exists msg,
             [ConsoleError "Error: --root requires a value"]
             = [ConsoleError msg])).
Proof.
  assert (H : parseArgs ["--root"] "/repo"
              = ([ConsoleError "Error: --root requires a value"], inl 2))
    by reflexivity.
  split; [exact H |]. exact (@parseArgs_exits_with_0_or_2 _ _ _ _ H).
Defined.

(** X3 at a command line whose second [--tfm] and second [--root] replace
    the first ones. *)
Lemma parseArgs_left_to_right_at_example :
  let args := ["--tfm"; "net48"; "--root"; "/repo/a"] in
  let mid := {| tfm := "net48"; rootDir := "/repo/a";
                failOnSkipped := false |} in
  parseArgs args "/repo" = ([], inr mid)
  /\ parseArgs (args ++ ["--tfm"; "net472"]) "/repo"
     = ([], inr {| tfm := "net472"; rootDir := "/repo/a";
                   failOnSkipped := false |})
  /\ parseArgs (args ++ ["--root"; "/repo/b"]) "/repo"
     = ([], inr {| tfm := "net48"; rootDir := "/repo/b";
                   failOnSkipped := false |})
  /\ parseArgs (args ++ ["--fail-on-skipped"]) "/repo"
     = ([], inr {| tfm := "net48"; rootDir := "/repo/a";
                   failOnSkipped := true |}).
Proof.
  cbv zeta.
  assert (H : parseArgs ["--tfm"; "net48"; "--root"; "/repo/a"] "/repo"
              = ([], inr {| tfm := "net48"; rootDir := "/repo/a";
                            failOnSkipped := false |})) by reflexivity.
  split; [exact H |].
  destruct (@parseArgs_reads_left_to_right
              ["--tfm"; "net48"; "--root"; "/repo/a"] [] "/repo" _ H)
    as (_ & Htfm & Hroot & Hflag & _).
  split; [exact (Htfm "net472" eq_refl) |].
  split; [exact (Hroot "/repo/b" eq_refl) | exact Hflag].
Defined.

(** ** The search for manifests *)




(** ** The diagnostic parser *)

Lemma string_app_assoc (a b c : string) : (a ++ b) ++ c = a ++ b ++ c.
Proof. induction a as [| x a IH]; cbn; [reflexivity | now rewrite IH]. Qed.

Lemma string_length_app (a b : string) :
  String.length (a ++ b) = String.length a + String.length b.
Proof. induction a as [| x a IH]; cbn; [reflexivity | now rewrite IH]. Qed.

(** [span] cuts its input in two: a run of characters satisfying [p], and
    a rest that is empty or begins with a character refusing [p]. *)
Lemma span_inv (p : ascii -> bool) (s : string) :
  s = fst (Regex.span p s) ++ snd (Regex.span p s)
  /\ every_char p (fst (Regex.span p s)) = true
  /\ match snd (Regex.span p s) with
     | EmptyString => True
     | String c _ => p c = false
     end.
Proof.
  induction s as [| c s IH]; cbn; [tauto |].
  destruct (p c) eqn:E.
  - destruct (Regex.span p s) as [run rest]. cbn in *.
    destruct IH as (Hs & Hrun & Hrest). rewrite E. repeat split; try assumption.
    now rewrite <- Hs.
  - cbn. now rewrite E.
Qed.

Lemma plus_inv (p : ascii -> bool) (s run rest : string) :
  Regex.plus p s = Some (run, rest) ->
  s = run ++ rest /\ Js.truthy run = true /\ every_char p run = true.
Proof.
  unfold Regex.plus. pose proof (span_inv p s) as H.
  destruct (Regex.span p s) as [r0 r1]. cbn [fst snd] in H.
  destruct r0 as [| c r0]; [discriminate |].
  intros E. injection E as <- <-. destruct H as (Hs & Hrun & _). now repeat split.
Qed.

Lemma spaces_inv (s rest : string) :
  Regex.spaces s = Some rest -> String.length rest < String.length s.
Proof.
  unfold Regex.spaces. destruct (Regex.plus Regex.is_space s) as [[run r] |] eqn:E;
    [| discriminate].
  cbn. intros H. injection H as <-. apply plus_inv in E.
  destruct E as (-> & Hrun & _). rewrite string_length_app.
  destruct run; [discriminate | cbn; lia].
Qed.

Lemma word_inv (w s rest : string) :
  Regex.word w s = Some rest ->
  String.length s = String.length w + String.length rest.
Proof.
  revert s. induction w as [| a w IH]; intros s; cbn.
  - intros H. now injection H as ->.
  - destruct s as [| c s]; [discriminate |].
    destruct (Ascii.eqb _ _); [| discriminate].
    intros H. apply IH in H. cbn. lia.
Qed.

(** A match captures an id without white space and a version of digits
    and dots, both non-empty, and takes 29 characters at least, from the
    input. *)
Lemma match_here_inv (s : string) (m : Package) (len : nat) :
  Regex.match_here s = Some (m, len) ->
  is_id_text (id m) = true /\ is_version_text (version m) = true
  /\ 29 <= len <= String.length s.
Proof.
  unfold Regex.match_here, Regex.and_then.
  destruct (Regex.word "Package" s) as [s1 |] eqn:E1; [| discriminate].
  destruct (Regex.spaces s1) as [s2 |] eqn:E2; [| discriminate].
  destruct (Regex.plus _ s2) as [[g1 s3] |] eqn:E3; [| discriminate].
  destruct (Regex.spaces s3) as [s4 |] eqn:E4; [| discriminate].
  destruct (Regex.plus _ s4) as [[g2 s5] |] eqn:E5; [| discriminate].
  destruct (Regex.spaces s5) as [s6 |] eqn:E6; [| discriminate].
  destruct (Regex.word "is" s6) as [s7 |] eqn:E7; [| discriminate].
  destruct (Regex.spaces s7) as [s8 |] eqn:E8; [| discriminate].
  destruct (Regex.word "not" s8) as [s9 |] eqn:E9; [| discriminate].
  destruct (Regex.spaces s9) as [s10 |] eqn:E10; [| discriminate].
  destruct (Regex.word "compatible" s10) as [rest |] eqn:E11; [| discriminate].
  intros H. injection H as <- <-. cbn [id version].
  apply word_inv in E1, E7, E9, E11. apply spaces_inv in E2, E4, E6, E8, E10.
  apply plus_inv in E3, E5.
  destruct E3 as (-> & Hg1 & Hp1), E5 as (-> & Hg2 & Hp2).
  rewrite string_length_app in *. unfold is_id_text, is_version_text.
  rewrite Hg1, Hp1, Hg2, Hp2.
  assert (0 < String.length g1) by (destruct g1; [discriminate | cbn; lia]).
  assert (0 < String.length g2) by (destruct g2; [discriminate | cbn; lia]).
  cbn [String.length] in *. repeat split; lia.
Qed.

Lemma exec_all_inv (s : string) :
  forall inside,
    Forall (fun m => is_id_text (id m) = true
                     /\ is_version_text (version m) = true)
           (Regex.exec_all inside s)
    /\ 29 * List.length (Regex.exec_all inside s) <= String.length s - inside.
Proof.
  induction s as [| c s IH]; intros inside.
  - destruct inside; cbn; split; try constructor; lia.
  - destruct inside as [| k]; [| cbn [Regex.exec_all]; destruct (IH k); split;
                                  [assumption | cbn; lia]].
    cbn [Regex.exec_all].
    destruct (Regex.match_here (String c s)) as [[m len] |] eqn:E.
    + apply match_here_inv in E. destruct E as (Hi & Hv & Hlen).
      destruct (IH (len - 1)) as [Hall Hcount].
      split; [constructor; [now split | exact Hall] |].
      cbn [List.length String.length] in *. lia.
    + destruct (IH 0) as [Hall Hcount]. split; [exact Hall |].
      cbn [String.length]. lia.
Qed.

(** X5.  Every package [extractIncompatiblePackages] reports has a
    non-empty id without white space and a non-empty version made of
    digits and dots. *)
Theorem extracted_packages_are_well_formed (errorOutput : string) (m : Package) :
  In m (extractIncompatiblePackages errorOutput) ->
  is_id_text (id m) = true /\ is_version_text (version m) = true.
Proof.
  intros H. unfold extractIncompatiblePackages in H.
  pose proof (proj1 (exec_all_inv errorOutput 0)) as Hall.
  rewrite Forall_forall in Hall. now apply Hall.
Qed.

(** X6.  The matches do not overlap and take 29 characters each at least:
    a text has at most one package reported per 29 characters, and a text
    shorter than that, the empty one included, reports none. *)
Theorem extracted_packages_need_29_characters (errorOutput : string) :
  29 * List.length (extractIncompatiblePackages errorOutput)
  <= String.length errorOutput
  /\ (String.length errorOutput < 29 ->
      extractIncompatiblePackages errorOutput = []).
Proof.
  pose proof (proj2 (exec_all_inv errorOutput 0)) as H.
  unfold extractIncompatiblePackages. split; [lia |].
  intros Hshort. destruct (Regex.exec_all 0 errorOutput); [reflexivity |].
  cbn [List.length] in H. lia.
Qed.

Lemma word_app (w rest : string) : Regex.word w (w ++ rest) = Some rest.
Proof.
  induction w as [| a w IH]; cbn; [reflexivity |].
  now rewrite Ascii.eqb_refl.
Qed.

Lemma span_app (p : ascii -> bool) (run rest : string) :
  every_char p run = true ->
  match rest with EmptyString => True | String c _ => p c = false end ->
  Regex.span p (run ++ rest) = (run, rest).
Proof.
  intros Hrun Hrest. induction run as [| c run IH]; cbn in *.
  - destruct rest as [| c rest]; [reflexivity |]. cbn. now rewrite Hrest.
  - apply andb_prop in Hrun. destruct Hrun as [Hc Hrun].
    now rewrite Hc, (IH Hrun).
Qed.

Lemma plus_app (p : ascii -> bool) (run rest : string) :
  Js.truthy run = true -> every_char p run = true ->
  match rest with EmptyString => True | String c _ => p c = false end ->
  Regex.plus p (run ++ rest) = Some (run, rest).
Proof.
  intros Hne Hrun Hrest. unfold Regex.plus. rewrite span_app by assumption.
  destruct run; [discriminate | reflexivity].
Qed.

Lemma one_space (rest : string) :
  match rest with
  | EmptyString => True
  | String c _ => Regex.is_space c = false
  end ->
  Regex.spaces (" " ++ rest) = Some rest.
Proof.
  intros H. unfold Regex.spaces.
  now rewrite (plus_app Regex.is_space " " rest eq_refl eq_refl H).
Qed.

Lemma version_char_is_not_space (c : ascii) :
  Regex.is_version_char c = true -> Regex.is_space c = false.
Proof.
  destruct c as [[] [] [] [] [] [] [] []]; vm_compute; congruence.
Qed.

(** After a match, the search goes on from the end of the match. *)
Lemma exec_all_steps_over (matched rest : string) :
  Regex.exec_all (String.length matched) (matched ++ rest)
  = Regex.exec_all 0 rest.
Proof.
  induction matched as [| c matched IH]; cbn; [| exact IH].
  now destruct rest.
Qed.

(** X7.  The phrase of the resolver, [Package <id> <version> is not
    compatible], at the head of a text is recognised with the id and the
    version it carries, for every id without white space and every version
    of digits and dots, and the search goes on in the text after it. *)
Theorem phrase_is_recognised (i v rest : string) :
  is_id_text i = true -> is_version_text v = true ->
  extractIncompatiblePackages (incompatible_phrase i v ++ rest)
  = {| id := i; version := v |} :: extractIncompatiblePackages rest.
Proof.
  intros Hi Hv. unfold is_id_text, is_version_text in *.
  apply andb_prop in Hi, Hv. destruct Hi as [Hi1 Hi2], Hv as [Hv1 Hv2].
  assert (Hhere : Regex.match_here (incompatible_phrase i v ++ rest)
                  = Some ({| id := i; version := v |},
                          String.length (incompatible_phrase i v))).
  { assert (Hnorm : incompatible_phrase i v ++ rest
                    = "Package"
                      ++ " " ++ i ++ " " ++ v ++ " " ++ "is" ++ " " ++ "not"
                      ++ " " ++ "compatible" ++ rest).
    { unfold incompatible_phrase. rewrite !string_app_assoc. reflexivity. }
    assert (Hlen : String.length (incompatible_phrase i v ++ rest)
                   - String.length rest
                   = String.length (incompatible_phrase i v))
      by (rewrite string_length_app; lia).
    rewrite <- Hlen, Hnorm. clear Hlen Hnorm.
    unfold Regex.match_here.
    assert (Hi0 : match i ++ " " ++ v ++ " " ++ "is" ++ " " ++ "not" ++ " "
                        ++ "compatible" ++ rest with
                  | EmptyString => True
                  | String c _ => Regex.is_space c = false
                  end).
    { destruct i as [| c i]; [discriminate |]. cbn in *.
      apply andb_prop in Hi2. destruct Hi2 as [Hc _].
      now apply negb_true_iff in Hc. }
    assert (Hv0 : match v ++ " " ++ "is" ++ " " ++ "not" ++ " "
                        ++ "compatible" ++ rest with
                  | EmptyString => True
                  | String c _ => Regex.is_space c = false
                  end).
    { destruct v as [| c v]; [discriminate |]. cbn in *.
      apply andb_prop in Hv2. destruct Hv2 as [Hc _].
      now apply version_char_is_not_space. }
    rewrite word_app. cbn [Regex.and_then].
    rewrite (one_space _ Hi0). cbn [Regex.and_then].
    rewrite plus_app; [| exact Hi1 | exact Hi2 | reflexivity].
    cbn [Regex.and_then].
    rewrite (one_space _ Hv0). cbn [Regex.and_then].
    rewrite plus_app; [| exact Hv1 | exact Hv2 | reflexivity].
    cbn [Regex.and_then].
    rewrite (one_space ("is" ++ " " ++ "not" ++ " " ++ "compatible" ++ rest)
                       eq_refl).
    cbn [Regex.and_then]. rewrite word_app. cbn [Regex.and_then].
    rewrite (one_space ("not" ++ " " ++ "compatible" ++ rest) eq_refl).
    cbn [Regex.and_then]. rewrite word_app. cbn [Regex.and_then].
    rewrite (one_space ("compatible" ++ rest) eq_refl).
    cbn [Regex.and_then]. rewrite word_app. reflexivity. }
  unfold extractIncompatiblePackages.
  remember (incompatible_phrase i v) as phrase eqn:Hphrase.
  destruct phrase as [| c phrase];
    [unfold incompatible_phrase in Hphrase; discriminate |].
  cbn [append Regex.exec_all]. cbn [append] in Hhere. rewrite Hhere.
  cbn [String.length]. rewrite Nat.sub_succ, Nat.sub_0_r.
  now rewrite exec_all_steps_over.
Qed.

(** X5 at a diagnostic of the resolver. *)
Lemma extracted_well_formed_at_example :
  let text :=
    "error NU1202: Package recaptcha 1.0.5 is not compatible with net47" in
  In {| id := "recaptcha"; version := "1.0.5" |}
     (extractIncompatiblePackages text)
  /\ is_id_text "recaptcha" = true /\ is_version_text "1.0.5" = true.
Proof.
  cbv zeta.
  assert (H : In {| id := "recaptcha"; version := "1.0.5" |}
                (extractIncompatiblePackages
                   "error NU1202: Package recaptcha 1.0.5 is not compatible with net47"))
    by (vm_compute; now left).
  split; [exact H |].
  exact (@extracted_packages_are_well_formed _ _ H).
Defined.

(** X6 at a text too short to hold the phrase. *)
Lemma extracted_none_at_short_text :
  String.length "Package a 1 is not compatibl" < 29
  /\ extractIncompatiblePackages "Package a 1 is not compatibl" = [].
Proof.
  assert (H : String.length "Package a 1 is not compatibl" < 29)
    by (vm_compute; lia).
  split; [exact H |].
  exact (proj2 (extracted_packages_need_29_characters
                  "Package a 1 is not compatibl") H).
Defined.

(** X7 at the phrase for [B 2.0], followed by the rest of the line. *)
Lemma phrase_recognised_at_example :
  (is_id_text "B" = true /\ is_version_text "2.0" = true)
  /\ extractIncompatiblePackages
       (incompatible_phrase "B" "2.0" ++ " with net472.")
     = [ {| id := "B"; version := "2.0" |} ].
Proof.
  split; [split; reflexivity |].
  exact (@phrase_is_recognised "B" "2.0" " with net472." eq_refl eq_refl).
Defined.

(** ** The generated descriptor *)

Lemma free_of_app (sep : ascii) (a b : string) :
  Js.free_of sep (a ++ b) = Js.free_of sep a && Js.free_of sep b.
Proof.
  induction a as [| c a IH]; cbn; [reflexivity |].
  now rewrite IH, andb_assoc.
Qed.

Lemma prefix_app (p rest : string) : String.prefix p (p ++ rest) = true.
Proof.
  induction p as [| c p IH]; cbn; [now destruct rest |].
  destruct (ascii_dec c c); [exact IH | congruence].
Qed.

Lemma prefix_app_l (p a b : string) :
  String.prefix p a = true -> String.prefix p (a ++ b) = true.
Proof.
  revert a. induction p as [| c p IH]; intros a; cbn.
  - intros _. now destruct (a ++ b).
  - destruct a as [| x a]; [discriminate |]. cbn.
    destruct (ascii_dec c x); [apply IH | discriminate].
Qed.

Lemma includes_prefix (s p : string) :
  String.prefix p s = true -> Js.includes s p = true.
Proof.
  intros H. destruct s as [| c s].
  - destruct p; [reflexivity | discriminate H].
  - cbn [Js.includes]. now rewrite H.
Qed.

Lemma includes_here (p rest : string) : Js.includes (p ++ rest) p = true.
Proof. apply includes_prefix, prefix_app. Qed.

Lemma includes_app_l (a b p : string) :
  Js.includes a p = true -> Js.includes (a ++ b) p = true.
Proof.
  induction a as [| c a IH]; cbn [Js.includes append].
  - rewrite orb_false_r. intros H. destruct p; [| discriminate H].
    apply includes_prefix. now destruct b.
  - intros H. apply orb_true_iff in H. destruct H as [H | H].
    + apply (prefix_app_l p (String c a) b) in H. cbn [append] in H.
      now rewrite H.
    + rewrite (IH H). apply orb_true_r.
Qed.

Lemma includes_app_r (a b p : string) :
  Js.includes b p = true -> Js.includes (a ++ b) p = true.
Proof.
  intros H. induction a as [| c a IH]; cbn [Js.includes append]; [exact H |].
  rewrite IH. apply orb_true_r.
Qed.

Lemma includes_join (sep : string) (l : list string) (x : string) :
  In x l -> Js.includes (Js.join sep l) x = true.
Proof.
  induction l as [| y l IH]; intros Hin; [destruct Hin |].
  destruct l as [| z l].
  - destruct Hin as [-> | []]. cbn. apply includes_prefix.
    clear. induction x as [| c x IH]; cbn; [reflexivity |].
    destruct (ascii_dec c c); [exact IH | congruence].
  - change (Js.join sep (y :: z :: l)) with (y ++ sep ++ Js.join sep (z :: l)).
    destruct Hin as [-> | Hin]; [apply includes_here |].
    apply includes_app_r, includes_app_r, IH, Hin.
Qed.

(** X8.  The block of references of the descriptor has one line per
    package, in the order of the packages, when no id or version holds a
    line break; for no package it is the empty string. *)
Theorem one_reference_line_per_package (packages : list Package) :
  generatePackageReferences [] = EmptyString
  /\ (packages <> [] ->
      forallb on_one_line packages = true ->
      Js.split "010" (generatePackageReferences packages)
      = map reference_line packages).
Proof.
  split; [reflexivity |]. intros Hne Hlines.
  unfold generatePackageReferences. fold reference_line.
  change (fun pkg : Package =>
            "    <PackageReference Include=" ++ Js.dquote ++ id pkg
            ++ Js.dquote ++ " Version=" ++ Js.dquote ++ version pkg
            ++ Js.dquote ++ " />") with reference_line.
  apply split_join.
  - destruct packages; [congruence | discriminate].
  - apply Forall_forall. intros line Hline. apply in_map_iff in Hline.
    destruct Hline as (pkg & <- & Hpkg).
    rewrite forallb_forall in Hlines. specialize (Hlines pkg Hpkg).
    unfold on_one_line in Hlines. apply andb_prop in Hlines.
    destruct Hlines as [Hi Hv]. unfold reference_line.
    rewrite !free_of_app, Hi, Hv. reflexivity.
Qed.

(** X9.  The descriptor begins with the project element; it holds the
    target framework it is given and the directive to restore with a lock
    file; when the framework was explicit in the manifest and begins with
    [net4], it holds the whole fallback directive, from its opening to its
    closing tag with the list of frameworks between them, on a line of its
    own that ends the group of properties, and otherwise the descriptor is
    the one written for a framework that is not explicit; and it holds the
    reference line of every package. *)
Theorem descriptor_holds_framework_and_references
    (packages : list Package) (tfm : string) (hasExplicitTfm : bool) :
  let descriptor := generateCsproj packages tfm hasExplicitTfm in
  Js.startsWith descriptor
    ("<Project Sdk=" ++ Js.dquote ++ "Microsoft.NET.Sdk" ++ Js.dquote ++ ">")
  = true
  /\ Js.includes descriptor
       ("<TargetFramework>" ++ tfm ++ "</TargetFramework>") = true
  /\ Js.includes descriptor
       "<RestorePackagesWithLockFile>true</RestorePackagesWithLockFile>" = true
  /\ (hasExplicitTfm && Js.startsWith tfm "net4" = true ->
      Js.includes descriptor
        (Js.nl
         ++ "    <AssetTargetFallback>$(AssetTargetFallback);net40;net45;net46;net461;net462;net20</AssetTargetFallback>"
         ++ Js.nl ++ "  </PropertyGroup>") = true)
  /\ (forall pkg, In pkg packages ->
        Js.includes descriptor (reference_line pkg) = true)
  /\ (hasExplicitTfm && Js.startsWith tfm "net4" = false ->
      descriptor = generateCsproj packages tfm false).
Proof.
  cbv zeta.
  assert (Hwithout : hasExplicitTfm && Js.startsWith tfm "net4" = false ->
                     generateCsproj packages tfm hasExplicitTfm
                     = generateCsproj packages tfm false).
  { intros H. unfold generateCsproj. rewrite H. reflexivity. }
  revert Hwithout. unfold generateCsproj at 1 2 3 4 5 6. intros Hwithout.
  set (plain := "    <TargetFramework>" ++ tfm ++ "</TargetFramework>" ++ Js.nl
                ++ "    <RestorePackagesWithLockFile>true</RestorePackagesWithLockFile>").
  set (properties := if hasExplicitTfm && Js.startsWith tfm "net4"
                     then _ else plain).
  assert (Hframework : Js.includes plain
                         ("<TargetFramework>" ++ tfm ++ "</TargetFramework>")
                       = true).
  { replace plain
      with ("    " ++ ("<TargetFramework>" ++ tfm ++ "</TargetFramework>")
            ++ Js.nl
            ++ "    <RestorePackagesWithLockFile>true</RestorePackagesWithLockFile>")
      by (unfold plain; rewrite !string_app_assoc; reflexivity).
    apply includes_app_r, includes_here. }
  assert (Hlock : Js.includes plain
                    "<RestorePackagesWithLockFile>true</RestorePackagesWithLockFile>"
                  = true).
  { unfold plain. do 4 apply includes_app_r.
    replace "    <RestorePackagesWithLockFile>true</RestorePackagesWithLockFile>"
      with ("    "
            ++ "<RestorePackagesWithLockFile>true</RestorePackagesWithLockFile>"
            ++ EmptyString) at 1 by reflexivity.
    apply includes_app_r, includes_here. }
  assert (Hplain : forall p, Js.includes plain p = true ->
                             Js.includes properties p = true).
  { intros p Hp. unfold properties.
    destruct (hasExplicitTfm && Js.startsWith tfm "net4"); [| exact Hp].
    now apply includes_app_l. }
  split; [| split; [| split; [| split; [| split; [| exact Hwithout]]]]].
  - unfold Js.startsWith.
    match goal with
    | |- String.prefix ?p ?d = true =>
        replace d with (p ++ Js.nl ++ "  <PropertyGroup>" ++ Js.nl ++ properties
                        ++ Js.nl ++ "  </PropertyGroup>" ++ Js.nl
                        ++ "  <ItemGroup>" ++ Js.nl
                        ++ generatePackageReferences packages ++ Js.nl
                        ++ "  </ItemGroup>" ++ Js.nl ++ "</Project>")
          by (rewrite !string_app_assoc; reflexivity)
    end.
    apply prefix_app.
  - do 8 apply includes_app_r. apply includes_app_l, Hplain, Hframework.
  - do 8 apply includes_app_r. apply includes_app_l, Hplain, Hlock.
  - intros Hfallback. do 8 apply includes_app_r.
    unfold properties. rewrite Hfallback. unfold plain.
    match goal with
    | |- Js.includes ?d ?directive = true =>
        replace d
          with (("    <TargetFramework>" ++ tfm ++ "</TargetFramework>" ++ Js.nl
                 ++ "    <RestorePackagesWithLockFile>true</RestorePackagesWithLockFile>")
                ++ directive
                ++ Js.nl ++ "  <ItemGroup>" ++ Js.nl
                ++ generatePackageReferences packages ++ Js.nl
                ++ "  </ItemGroup>" ++ Js.nl ++ "</Project>")
          by (rewrite !string_app_assoc; reflexivity)
    end.
    apply includes_app_r, includes_here.
  - intros pkg Hpkg. do 14 apply includes_app_r. apply includes_app_l.
    unfold generatePackageReferences. apply includes_join.
    apply in_map_iff. exists pkg. split; [reflexivity | exact Hpkg].
Qed.

(** X8 at the two packages of the example manifest. *)
Lemma reference_lines_at_example :
  ([Example.A1; Example.B2] <> []
   /\ forallb on_one_line [Example.A1; Example.B2] = true)
  /\ Js.split "010" (generatePackageReferences [Example.A1; Example.B2])
     = [reference_line Example.A1; reference_line Example.B2].
Proof.
  assert (H1 : [Example.A1; Example.B2] <> []) by discriminate.
  assert (H2 : forallb on_one_line [Example.A1; Example.B2] = true)
    by reflexivity.
  split; [split; [exact H1 | exact H2] |].
  exact (proj2 (one_reference_line_per_package [Example.A1; Example.B2]) H1 H2).
Defined.

(** X9 at the example manifest with an explicit [net45] framework. *)
Lemma descriptor_at_example :
  (true && Js.startsWith "net45" "net4" = true /\ In Example.B2 [Example.A1; Example.B2])
  /\ Js.includes (generateCsproj [Example.A1; Example.B2] "net45" true)
                 (Js.nl
                  ++ "    <AssetTargetFallback>$(AssetTargetFallback);net40;net45;net46;net461;net462;net20</AssetTargetFallback>"
                  ++ Js.nl ++ "  </PropertyGroup>") = true
  /\ Js.includes (generateCsproj [Example.A1; Example.B2] "net45" true)
                 (reference_line Example.B2) = true.
Proof.
  assert (H1 : true && Js.startsWith "net45" "net4" = true) by reflexivity.
  assert (H2 : In Example.B2 [Example.A1; Example.B2]) by (right; now left).
  split; [split; [exact H1 | exact H2] |].
  destruct (descriptor_holds_framework_and_references
              [Example.A1; Example.B2] "net45" true)
    as (_ & _ & _ & Hf & Hr & _).
  split; [exact (Hf H1) | exact (Hr _ H2)].
Defined.

(** ** The framework of a manifest *)

Lemma short_tfm_truthy (tf : string) :
  Js.truthy tf = true -> Js.truthy (short_tfm tf) = true.
Proof.
  intros H. unfold short_tfm. now destruct (Js.startsWith tf "netframework").
Qed.

Lemma replace_at_head (s p r : string) :
  String.prefix p s = true ->
  Js.replace s p r = r ++ Js.drop (String.length p) s.
Proof. intros H. destruct s; cbn [Js.replace]; now rewrite H. Qed.

Lemma parse_step_framework (acc : ParsedConfig) (pkg : XmlNode) :
  targetFramework (parse_step acc pkg)
  = if negb (truthy_opt (targetFramework acc)) && states_framework pkg
    then Some (short_tfm (or_empty (attr_targetFramework pkg)))
    else targetFramework acc.
Proof.
  unfold parse_step, states_framework, is_candidate.
  destruct (truthy_opt (attr_id pkg) && truthy_opt (attr_version pkg));
    [| now rewrite andb_false_r].
  cbn [andb].
  now destruct (negb (truthy_opt (targetFramework acc))
                && truthy_opt (attr_targetFramework pkg)).
Qed.

Lemma fold_parse_step_framework (l : list XmlNode) (acc : ParsedConfig) :
  targetFramework (fold_left parse_step l acc)
  = if truthy_opt (targetFramework acc) then targetFramework acc
    else match find states_framework l with
         | Some pkg => Some (short_tfm (or_empty (attr_targetFramework pkg)))
         | None => targetFramework acc
         end.
Proof.
  revert acc. induction l as [| pkg l IH]; intros acc; cbn [fold_left find].
  - now destruct (truthy_opt (targetFramework acc)).
  - rewrite IH, parse_step_framework.
    destruct (truthy_opt (targetFramework acc)) eqn:Eacc; cbn [negb andb].
    + now rewrite Eacc.
    + destruct (states_framework pkg) eqn:Epkg; [| now rewrite Eacc].
      cbn [truthy_opt]. rewrite short_tfm_truthy; [reflexivity |].
      unfold states_framework in Epkg. apply andb_prop in Epkg.
      destruct Epkg as [_ Htf].
      now destruct (attr_targetFramework pkg).
Qed.

(** X10.  The framework of a parsed manifest is the tag of the first entry
    that has an id, a version and a non-empty tag, after the rewriting of
    the long form; there is none when no such entry exists.  It is never
    the empty string, and the rewriting of a tag that begins with
    [netframework] drops these twelve characters and every dot, and puts
    [net] in front. *)
Theorem first_stated_framework_wins (result : XmlResult) :
  targetFramework (collectPackages result)
  = option_map (fun pkg => short_tfm (or_empty (attr_targetFramework pkg)))
               (find states_framework (entries_of result))
  /\ (forall tf, targetFramework (collectPackages result) = Some tf ->
                 Js.truthy tf = true)
  /\ (forall tf, Js.startsWith tf "netframework" = true ->
                 short_tfm tf = "net" ++ Js.remove_all "." (Js.drop 12 tf)).
Proof.
  assert (Hfirst : targetFramework (collectPackages result)
                   = option_map
                       (fun pkg => short_tfm (or_empty (attr_targetFramework pkg)))
                       (find states_framework (entries_of result))).
  { destruct result as [| [| pkg | pkgs]]; try reflexivity;
      unfold collectPackages, entries_of; rewrite fold_parse_step_framework;
      cbn [targetFramework truthy_opt];
      now destruct (find states_framework _). }
  split; [exact Hfirst |]. split.
  - intros tf Htf. rewrite Hfirst in Htf.
    destruct (find states_framework (entries_of result)) as [pkg |] eqn:E;
      [| discriminate].
    cbn in Htf. injection Htf as <-. apply find_some in E.
    destruct E as [_ E]. unfold states_framework in E.
    apply andb_prop in E. destruct E as [_ E]. apply short_tfm_truthy.
    now destruct (attr_targetFramework pkg).
  - intros tf Htf. unfold short_tfm. rewrite Htf.
    unfold Js.startsWith in Htf. now rewrite (replace_at_head _ _ _ Htf).
Qed.

(** X10 at a manifest whose first entry has no version and whose second
    states the long form. *)
Lemma first_stated_framework_at_example :
  let result :=
    PackagesObject
      (PackageArray
         [ {| attr_id := Some "A"; attr_version := None;
              attr_targetFramework := Some "net35" |};
           {| attr_id := Some "B"; attr_version := Some "2.0";
              attr_targetFramework := Some "netframework4.5" |};
           {| attr_id := Some "C"; attr_version := Some "3.0";
              attr_targetFramework := Some "net48" |} ]) in
  targetFramework (collectPackages result) = Some "net45"
  /\ Js.truthy "net45" = true
  /\ Js.startsWith "netframework4.5" "netframework" = true
  /\ short_tfm "netframework4.5" = "net45".
Proof.
  cbv zeta.
  assert (H1 : targetFramework
                 (collectPackages
                    (PackagesObject
                       (PackageArray
                          [ {| attr_id := Some "A"; attr_version := None;
                               attr_targetFramework := Some "net35" |};
                            {| attr_id := Some "B"; attr_version := Some "2.0";
                               attr_targetFramework := Some "netframework4.5" |};
                            {| attr_id := Some "C"; attr_version := Some "3.0";
                               attr_targetFramework := Some "net48" |} ])))
               = Some "net45") by reflexivity.
  assert (H2 : Js.startsWith "netframework4.5" "netframework" = true)
    by reflexivity.
  destruct (first_stated_framework_wins
              (PackagesObject
                 (PackageArray
                    [ {| attr_id := Some "A"; attr_version := None;
                         attr_targetFramework := Some "net35" |};
                      {| attr_id := Some "B"; attr_version := Some "2.0";
                         attr_targetFramework := Some "netframework4.5" |};
                      {| attr_id := Some "C"; attr_version := Some "3.0";
                         attr_targetFramework := Some "net48" |} ])))
    as (_ & Htruthy & Hshort).
  split; [exact H1 |]. split; [exact (Htruthy _ H1) |].
  split; [exact H2 | exact (Hshort _ H2)].
Defined.

(** ** The events of processing one manifest *)

Section Traces.

Context {X A B : Type}.

Lemma fst_bind (m : Eff X A) (k : A -> Eff X B) :
  fst (bind m k)
  = (fst m ++ match snd m with inl _ => [] | inr a => fst (k a) end)%list.
Proof.
  destruct m as [t [x | a]]; cbn; [now rewrite app_nil_r |].
  now destruct (k a).
Qed.

Lemma fst_try_catch {Y} (m : Eff X A) (h : X -> Eff Y A) :
  fst (try_catch m h)
  = (fst m ++ match snd m with inl x => fst (h x) | inr _ => [] end)%list.
Proof.
  destruct m as [t [x | a]]; cbn; [| now rewrite app_nil_r].
  now destruct (h x).
Qed.

Lemma fst_try_finally (m : Eff X A) (f : Eff X unit) :
  fst (try_finally m f) = (fst m ++ fst f)%list.
Proof. now destruct m as [t r], f as [t' [x | u]]. Qed.

Lemma fst_catch_all (m : Eff X A) (h : X -> list Event * A) :
  fst (catch_all m h)
  = (fst m ++ match snd m with inl x => fst (h x) | inr _ => [] end)%list.
Proof.
  destruct m as [t [x | a]]; cbn; [| now rewrite app_nil_r].
  now destruct (h x).
Qed.

Lemma fst_after (t : list Event) (m : list Event * A) :
  fst (after t m) = (t ++ fst m)%list.
Proof. now destruct m. Qed.

Lemma snd_try_catch {Y} (m : Eff X A) (h : X -> Eff Y A) :
  snd (try_catch m h) = match snd m with inl x => snd (h x) | inr a => inr a end.
Proof. destruct m as [t [x | a]]; cbn; [| reflexivity]. now destruct (h x). Qed.

End Traces.

Section LoopEvents.

Variable w : ManifestWorld.
Variables (csprojPath workdir tfm : string).
Variables (hasExplicitTfm failOnSkipped : bool).

Local Notation "'body'" :=
  (loop_body w csprojPath workdir tfm hasExplicitTfm failOnSkipped).
Local Notation "'loop'" :=
  (while_loop w csprojPath workdir tfm hasExplicitTfm failOnSkipped).
Local Notation "'running'" :=
  (runs w csprojPath workdir tfm hasExplicitTfm failOnSkipped).

Lemma catch_block_events (v : Vars.t) (err : JsError) :
  forallb is_loop_event (fst (catch_block v err)) = true.
Proof.
  unfold catch_block.
  set (shown := if negb (Js.truthy _) && Js.truthy (message err) then _ else _).
  assert (Hshown : forallb is_loop_event shown = true)
    by (unfold shown; now destruct (_ && _)).
  repeat match goal with
         | |- context [if ?b then _ else _] => destruct b
         end; exact Hshown.
Qed.

Lemma attempt_events (v : Vars.t) :
  forallb is_loop_event
          (fst (attempt w csprojPath workdir tfm hasExplicitTfm v)) = true.
Proof.
  unfold attempt. rewrite fst_bind. unfold perform, answer_of.
  now destruct (writeFile w _ _).
Qed.

Lemma loop_body_events (v : Vars.t) :
  forallb is_loop_event (fst (body v)) = true.
Proof.
  unfold loop_body. pose proof (attempt_events v) as Ha.
  destruct (attempt w csprojPath workdir tfm hasExplicitTfm v)
    as [t0 [err | []]]; cbn [fst] in Ha.
  - rewrite fst_after, forallb_app, Ha. apply catch_block_events.
  - destruct (0 <? _)%nat; [destruct failOnSkipped |]; cbn [fst].
    + rewrite fst_after, !forallb_app, Ha, catch_block_events. reflexivity.
    + rewrite forallb_app, Ha. reflexivity.
    + exact Ha.
Qed.

Lemma runs_events (v : Vars.t) t v' :
  running v t v' -> forallb is_loop_event t = true.
Proof.
  induction 1 as [v Hc | v t v' Hc Hb | v t v1 t' v' Hc Hb _ IH].
  - reflexivity.
  - pose proof (loop_body_events v) as H. now rewrite Hb in H.
  - pose proof (loop_body_events v) as H. rewrite Hb in H. cbn [fst] in H.
    now rewrite forallb_app, H, IH.
Qed.

(** The loop writes descriptors, runs the resolver and prints: it creates
    and removes nothing, reads and copies nothing. *)
Lemma while_loop_events (v : Vars.t) :
  forallb is_loop_event (fst (loop v)) = true.
Proof. exact (runs_events (while_loop_runs _ _ _ _ _ _ v)). Qed.



End LoopEvents.

Lemma loop_events_are_not_temp (t : list Event) :
  forallb is_loop_event t = true -> filter is_temp t = [].
Proof.
  induction t as [| e t IH]; [reflexivity |]. cbn [forallb filter].
  intros H. apply andb_prop in H. destruct H as [He Ht].
  rewrite (IH Ht). now destruct e.
Qed.

Section TempDirectory.

Variable api : NodeApi.
Variable w : ManifestWorld.

Lemma findCsprojFile_temp (dir : string) :
  filter is_temp (fst (findCsprojFile api w dir)) = [].
Proof.
  unfold findCsprojFile, perform.
  destruct (readdir w) as [err | entries]; cbn.
  - now destruct (Js.includes (message err) "Multiple .csproj files").
  - destruct (csprojFiles api dir entries) as [| a [| b l]]; reflexivity.
Qed.

Lemma use_existing_temp (dir lockFilePath existingCsproj : string) :
  filter is_temp (fst (use_existing api w dir lockFilePath existingCsproj)) = [].
Proof.
  unfold use_existing, perform, answer_of.
  destruct (restore_existing w) as [err |]; cbn.
  - unfold print_text.
    destruct (stdout err) as [o |], (stderr err) as [e |]; cbn;
      repeat match goal with
             | |- context [Js.truthy ?s] => destruct (Js.truthy s); cbn
             end; reflexivity.
  - destruct (copy_lock w); [destruct (copy_obj_lock w) |]; reflexivity.
Qed.

Lemma parsePackagesConfig_temp (packagesConfigPath : string) :
  filter is_temp (fst (parsePackagesConfig api w packagesConfigPath)) = [].
Proof.
  unfold parsePackagesConfig, perform.
  destruct (readFile w) as [err | xml]; cbn; [reflexivity |].
  now destruct (xml_parse api xml).
Qed.

Lemma after_loop_temp (workdir lockFilePath : string) (v : Vars.t) :
  filter is_temp (fst (after_loop api w workdir lockFilePath v)) = [].
Proof.
  unfold after_loop, perform, answer_of.
  destruct (Vars.restoreSuccess v); cbn.
  - now destruct (copy_generated_lock w).
  - destruct (Vars.lastError v) as [[m [o |] [e |]] |]; reflexivity.
Qed.

(** The fallback creates one temporary directory at most, and removes the
    one it has created. *)
Lemma generate_and_restore_temp
    (packagesConfigPath lockFilePath defaultTfm : string) (failOnSkipped : bool) :
  let t := fst (generate_and_restore api w packagesConfigPath lockFilePath
                                     defaultTfm failOnSkipped) in
  filter is_temp t = []
  \/ (exists err, mkdtemp w = inl err
                  /\ filter is_temp t = [Mkdtemp (temp_prefix api)])
  \/ (exists dir, mkdtemp w = inr dir
                  /\ filter is_temp t = [Mkdtemp (temp_prefix api); Rm dir]).
Proof.
  cbv zeta. unfold generate_and_restore.
  rewrite fst_bind, filter_app, parsePackagesConfig_temp. cbn [app].
  destruct (snd (parsePackagesConfig api w packagesConfigPath))
    as [err | parsed]; [now left |].
  destruct (List.length (packages parsed) =? 0)%nat; [now left |].
  rewrite fst_bind, filter_app.
  match goal with
  | |- context [if ?c then console_log _ else ret tt] => destruct c
  end;
    cbn [fst snd console_log emit ret filter is_temp app].
  all: rewrite fst_bind, filter_app; fold (temp_prefix api).
  all: destruct (mkdtemp w) as [err | dir];
    cbn [perform fst snd filter is_temp app];
    [ right; left; exists err; now split | ].
  all: right; right; exists dir; split; [reflexivity |].
  all: rewrite fst_try_finally, filter_app, fst_bind, filter_app, lift_fst.
  all: rewrite (loop_events_are_not_temp _ (while_loop_events _ _ _ _ _ _ _)).
  all: rewrite snd_lift, after_loop_temp; reflexivity.
Qed.

End TempDirectory.

(** X11.  Processing a manifest creates one temporary directory at most,
    and removes the directory it has created, that one only and once:
    among its events the creations and removals of directories are none,
    or a creation that failed, or a creation followed by the removal of
    the directory created. *)
Theorem temporary_directory_is_removed
    (api : NodeApi) (w : ManifestWorld)
    (packagesConfigPath defaultTfm : string) (failOnSkipped : bool) :
  let t := fst (processPackagesConfig api w packagesConfigPath defaultTfm
                                      failOnSkipped) in
  filter is_temp t = []
  \/ (exists err, mkdtemp w = inl err
                  /\ filter is_temp t = [Mkdtemp (temp_prefix api)])
  \/ (exists dir, mkdtemp w = inr dir
                  /\ filter is_temp t = [Mkdtemp (temp_prefix api); Rm dir]).
Proof.
  cbv zeta. unfold processPackagesConfig.
  rewrite fst_after, filter_app, fst_catch_all, filter_app. cbn [filter is_temp app].
  match goal with
  | |- context [match snd ?m with inl x => fst (@?h x) | inr _ => [] end] =>
      replace (filter is_temp
                 (match snd m with inl x => fst (h x) | inr _ => [] end))
        with (@nil Event)
        by (destruct (snd m) as [err | r]; [| reflexivity];
            cbn beta; now destruct (failOnSkipped && _))
  end.
  rewrite app_nil_r, fst_bind, filter_app, fst_try_catch, filter_app,
    fst_bind, filter_app, findCsprojFile_temp.
  cbn [app].
  replace (filter is_temp
             (match snd (findCsprojFile api w (path_dirname api packagesConfigPath))
              with
              | inl _ => []
              | inr a => fst (ret (X := JsError) (inr (A := Result) a))
              end)) with (@nil Event)
    by (now destruct (snd (findCsprojFile api w _))).
  cbn [app]. rewrite snd_bind, snd_try_catch, snd_bind.
  destruct (snd (findCsprojFile api w (path_dirname api packagesConfigPath)))
    as [err | found]; cbn [snd ret].
  - destruct (Js.includes (message err) "Multiple .csproj files"); now left.
  - cbn [filter app fst]. destruct (truthy_opt found).
    + rewrite use_existing_temp. now left.
    + apply generate_and_restore_temp.
Qed.


(** ** Processing one manifest, case by case *)

Section ManifestRuns.

Variable api : NodeApi.
Variable w : ManifestWorld.
Variables (packagesConfigPath defaultTfm : string) (failOnSkipped : bool).

Local Notation "'dir'" := (path_dirname api packagesConfigPath).
Local Notation "'found'" := (findCsprojFile api w (path_dirname api packagesConfigPath)).

(** The run of [processPackagesConfig] by what the search for a descriptor
    gives: an error of the search is reported whatever its message; with
    a descriptor the resolver runs on it, without one the fallback runs. *)
Lemma processPackagesConfig_cases :
  processPackagesConfig api w packagesConfigPath defaultTfm failOnSkipped
  = after (ConsoleLog ("Processing: " ++ packagesConfigPath) :: fst found)
      match snd found with
      | inl err => reported err
      | inr existingCsproj =>
          catch_all
            (if truthy_opt existingCsproj
             then use_existing api w dir (lock_path api packagesConfigPath)
                               (or_empty existingCsproj)
             else generate_and_restore api w packagesConfigPath
                    (lock_path api packagesConfigPath) defaultTfm failOnSkipped)
            reported
      end.
Proof.
  unfold processPackagesConfig, reported. fold (lock_path api packagesConfigPath).
  destruct found as [t [err | existingCsproj]]; cbn [fst snd bind try_catch ret].
  - destruct (Js.includes (message err) "Multiple .csproj files");
      cbn [bind try_catch ret abort console_error emit catch_all after app].
    + now rewrite !app_nil_r.
    + destruct (failOnSkipped && _); now rewrite !app_nil_r.
  - rewrite app_nil_r.
    match goal with
    | |- context [if truthy_opt existingCsproj then ?a else ?b] =>
        destruct (if truthy_opt existingCsproj then a else b) as [t' [err | r]]
    end; cbn [catch_all after app].
    + destruct (failOnSkipped && _); now rewrite app_assoc.
    + reflexivity.
Qed.

End ManifestRuns.


Section Fallback.

Variable api : NodeApi.
Variable w : ManifestWorld.
Variables (packagesConfigPath lockFilePath defaultTfm : string).
Variable failOnSkipped : bool.

(** The fallback once the manifest is parsed and the temporary directory
    created: the loop, the statements after it, the removal of the
    directory, whose failure replaces the result. *)
Lemma generate_and_restore_runs_loop
    (t0 : list Event) (parsed : ParsedConfig) (workdir : string) :
  parsePackagesConfig api w packagesConfigPath = (t0, inr parsed) ->
  packages parsed <> [] ->
  mkdtemp w = inr workdir ->
  let lp :=
    while_loop w (path_join api [workdir; "TempLockProject.csproj"]) workdir
               (framework_of parsed defaultTfm) (stated parsed) failOnSkipped
               (initial (packages parsed)) in
  let fin := after_loop api w workdir lockFilePath (snd lp) in
  generate_and_restore api w packagesConfigPath lockFilePath defaultTfm
                       failOnSkipped
  = ((t0 ++ framework_note parsed defaultTfm
         ++ Mkdtemp (temp_prefix api)
         :: fst lp ++ fst fin ++ [Rm workdir])%list,
     match rm w with Some err => inl err | None => snd fin end).
Proof.
  intros Hparse Hpkgs Hmk. cbv zeta.
  unfold generate_and_restore. rewrite Hparse. cbn [bind].
  destruct (packages parsed) as [| pkg rest] eqn:Epk; [congruence |].
  cbn [List.length Nat.eqb]. rewrite <- Epk.
  unfold framework_note, framework_of, stated, temp_prefix.
  rewrite Hmk.
  match goal with
  | |- context [if ?c then console_log _ else ret tt] => destruct c
  end;
    cbn [bind console_log emit ret perform fst snd app].
  all: match goal with
       | |- context [while_loop ?a ?b ?c ?d ?e ?f ?g] =>
           destruct (while_loop a b c d e f g) as [tl v]
       end.
  all: cbn [lift bind fst snd].
  all: destruct (after_loop api w workdir lockFilePath v) as [ta ra].
  all: destruct (rm w) as [err |];
    cbn [try_finally answer_of perform fst snd app];
    rewrite <- ?app_assoc; reflexivity.
Qed.

End Fallback.



Section Success.

Variable api : NodeApi.
Variable w : ManifestWorld.



End Success.




(** ** Errors on the way to the resolver *)

(** X13.  A manifest that cannot be read, in a directory without
    descriptor, fails with the message of the read error as it is: the
    file is read, one error line is printed, nothing else is done. *)
Theorem unreadable_manifest_fails_with_raw_message
    (api : NodeApi) (w : ManifestWorld)
    (packagesConfigPath defaultTfm : string) (failOnSkipped : bool)
    (err : JsError) :
  snd (findCsprojFile api w (path_dirname api packagesConfigPath)) = inr None ->
  readFile w = inl err ->
  processPackagesConfig api w packagesConfigPath defaultTfm failOnSkipped
  = ((ConsoleLog ("Processing: " ++ packagesConfigPath)
        :: fst (findCsprojFile api w (path_dirname api packagesConfigPath)))
       ++ [ReadFile packagesConfigPath;
           ConsoleError ("  Error: " ++ message err)],
     failed)%list.
Proof.
  intros Hfound Hread. rewrite processPackagesConfig_cases, Hfound.
  cbn [truthy_opt]. unfold generate_and_restore, parsePackagesConfig, perform.
  rewrite Hread. reflexivity.
Qed.

(** X13 at a manifest that may not be opened. *)
Lemma unreadable_manifest_at_example :
  let api := Example.api Example.manifest_text Example.manifest in
  snd (processPackagesConfig api Sample.unreadable "/repo/app/packages.config"
                             "net472" false) = failed
  /\ last (fst (processPackagesConfig api Sample.unreadable
                  "/repo/app/packages.config" "net472" false))
          (ConsoleLog EmptyString)
     = ConsoleError "  Error: EACCES: permission denied, open '/repo/app/packages.config'".
Proof.
  cbv zeta.
  rewrite (@unreadable_manifest_fails_with_raw_message
             (Example.api Example.manifest_text Example.manifest)
             Sample.unreadable "/repo/app/packages.config" "net472" false
             (Error "EACCES: permission denied, open '/repo/app/packages.config'")
             eq_refl eq_refl).
  split; reflexivity.
Defined.

(** X14.  A manifest the XML parser rejects, in a directory without
    descriptor, fails with the parser's message behind
    [Failed to parse packages.config: ]: the file is read, one error
    line is printed, nothing else is done. *)
Theorem malformed_manifest_fails_with_parse_message
    (api : NodeApi) (w : ManifestWorld)
    (packagesConfigPath defaultTfm : string) (failOnSkipped : bool)
    (xml : string) (err : JsError) :
  snd (findCsprojFile api w (path_dirname api packagesConfigPath)) = inr None ->
  readFile w = inr xml ->
  xml_parse api xml = inl err ->
  processPackagesConfig api w packagesConfigPath defaultTfm failOnSkipped
  = ((ConsoleLog ("Processing: " ++ packagesConfigPath)
        :: fst (findCsprojFile api w (path_dirname api packagesConfigPath)))
       ++ [ReadFile packagesConfigPath;
           ConsoleError ("  Error: Failed to parse packages.config: "
                         ++ message err)],
     failed)%list.
Proof.
  intros Hfound Hread Hparse. rewrite processPackagesConfig_cases, Hfound.
  cbn [truthy_opt]. unfold generate_and_restore, parsePackagesConfig, perform.
  rewrite Hread. cbn [bind]. rewrite Hparse. reflexivity.
Qed.

(** X14 at a manifest that is cut short. *)
Lemma malformed_manifest_at_example :
  let api := Example.api Example.manifest_text Example.manifest in
  processPackagesConfig api Sample.malformed "/repo/app/packages.config"
                        "net472" false
  = ([ConsoleLog "Processing: /repo/app/packages.config";
      Readdir "/repo/app";
      ReadFile "/repo/app/packages.config";
      ConsoleError "  Error: Failed to parse packages.config: Unexpected end of input"],
     failed).
Proof.
  cbv zeta.
  exact (@malformed_manifest_fails_with_parse_message
           (Example.api Example.manifest_text Example.manifest)
           Sample.malformed "/repo/app/packages.config" "net472" false
           "<packages><package id=" (Error "Unexpected end of input")
           eq_refl eq_refl eq_refl).
Defined.

Lemma bind_ext {X A B} (m : Eff X A) (k k' : A -> Eff X B) :
  (forall a, k a = k' a) -> bind m k = bind m k'.
Proof. intros H. destruct m as [t [x | a]]; cbn; [reflexivity |]. now rewrite H. Qed.

Lemma runs_no_entries (w : ManifestWorld) (csprojPath workdir tfm : string)
    (hasExplicitTfm failOnSkipped : bool) (v : Vars.t) t v' :
  runs w csprojPath workdir tfm hasExplicitTfm failOnSkipped v t v' ->
  runs (no_entries w) csprojPath workdir tfm hasExplicitTfm failOnSkipped v t v'.
Proof.
  induction 1 as [v Hc | v t v' Hc Hb | v t v1 t' v' Hc Hb _ IH].
  - now apply runs_exit.
  - apply runs_break; [exact Hc | exact Hb].
  - eapply runs_continue; [exact Hc | exact Hb | exact IH].
Qed.

(** The loop does not look at the listing of the directory. *)
Lemma while_loop_no_entries (w : ManifestWorld) (csprojPath workdir tfm : string)
    (hasExplicitTfm failOnSkipped : bool) (v : Vars.t) :
  while_loop (no_entries w) csprojPath workdir tfm hasExplicitTfm
             failOnSkipped v
  = while_loop w csprojPath workdir tfm hasExplicitTfm failOnSkipped v.
Proof.
  rewrite (surjective_pairing
             (while_loop w csprojPath workdir tfm hasExplicitTfm
                         failOnSkipped v)).
  apply runs_while_loop, runs_no_entries, while_loop_runs.
Qed.

Lemma generate_and_restore_no_entries (api : NodeApi) (w : ManifestWorld)
    (packagesConfigPath lockFilePath defaultTfm : string)
    (failOnSkipped : bool) :
  generate_and_restore api (no_entries w) packagesConfigPath lockFilePath
                       defaultTfm failOnSkipped
  = generate_and_restore api w packagesConfigPath lockFilePath defaultTfm
                         failOnSkipped.
Proof.
  unfold generate_and_restore.
  change (parsePackagesConfig api (no_entries w) packagesConfigPath)
    with (parsePackagesConfig api w packagesConfigPath).
  apply bind_ext. intros parsed.
  destruct (List.length (packages parsed) =? 0)%nat; [reflexivity |].
  apply bind_ext. intros _.
  change (mkdtemp (no_entries w)) with (mkdtemp w).
  apply bind_ext. intros workdir.
  rewrite while_loop_no_entries. reflexivity.
Qed.

(** X15.  A directory that cannot be listed is taken as a directory
    without descriptor: the manifest is processed as it is where the
    listing is empty, unless the message of the error holds
    [Multiple .csproj files]. *)
Theorem unlistable_directory_is_taken_as_empty
    (api : NodeApi) (w : ManifestWorld)
    (packagesConfigPath defaultTfm : string) (failOnSkipped : bool)
    (err : JsError) :
  readdir w = inl err ->
  Js.includes (message err) "Multiple .csproj files" = false ->
  processPackagesConfig api w packagesConfigPath defaultTfm failOnSkipped
  = processPackagesConfig api (no_entries w) packagesConfigPath defaultTfm
                          failOnSkipped.
Proof.
  intros Hread Hmsg. rewrite !processPackagesConfig_cases.
  assert (E : findCsprojFile api w (path_dirname api packagesConfigPath)
              = ([Readdir (path_dirname api packagesConfigPath)], inr None)).
  { unfold findCsprojFile, perform. rewrite Hread. cbn [bind try_catch].
    rewrite Hmsg. reflexivity. }
  rewrite E.
  change (findCsprojFile api (no_entries w)
            (path_dirname api packagesConfigPath))
    with ([Readdir (path_dirname api packagesConfigPath)],
          @inr JsError (option string) None).
  cbn [fst snd truthy_opt]. now rewrite generate_and_restore_no_entries.
Qed.

(** X15 at a directory that may not be listed. *)
Lemma unlistable_directory_at_example :
  let api := Example.api Example.manifest_text Example.manifest in
  let w := Sample.unlisted "EACCES: permission denied, scandir '/repo/app'" in
  processPackagesConfig api w "/repo/app/packages.config" "net472" false
  = processPackagesConfig api (no_entries w) "/repo/app/packages.config"
                          "net472" false.
Proof.
  cbv zeta.
  exact (@unlistable_directory_is_taken_as_empty
           (Example.api Example.manifest_text Example.manifest)
           (Sample.unlisted "EACCES: permission denied, scandir '/repo/app'")
           "/repo/app/packages.config" "net472" false
           (Error "EACCES: permission denied, scandir '/repo/app'")
           eq_refl eq_refl).
Defined.

(** X16.  The listing error is told from the ambiguity error by its
    message alone: when the directory cannot be listed and the message
    of that error holds [Multiple .csproj files], the manifest fails as
    if it had several descriptors, and it is not read. *)
Theorem listing_error_can_pass_for_ambiguity
    (api : NodeApi) (w : ManifestWorld)
    (packagesConfigPath defaultTfm : string) (failOnSkipped : bool)
    (err : JsError) :
  readdir w = inl err ->
  Js.includes (message err) "Multiple .csproj files" = true ->
  processPackagesConfig api w packagesConfigPath defaultTfm failOnSkipped
  = ([ConsoleLog ("Processing: " ++ packagesConfigPath);
      Readdir (path_dirname api packagesConfigPath);
      ConsoleError ("  Error: " ++ message err)],
     failed).
Proof.
  intros Hread Hmsg. rewrite processPackagesConfig_cases.
  unfold findCsprojFile, perform. rewrite Hread. cbn [bind try_catch].
  rewrite Hmsg. reflexivity.
Qed.

(** X16 at a directory whose name holds the phrase. *)
Lemma listing_error_at_example :
  let api := Example.api Example.manifest_text Example.manifest in
  let msg := "ENOENT: no such file or directory, scandir '/repo/Multiple .csproj files'" in
  processPackagesConfig api (Sample.unlisted msg)
    "/repo/Multiple .csproj files/packages.config" "net472" false
  = ([ConsoleLog "Processing: /repo/Multiple .csproj files/packages.config";
      Readdir "/repo/Multiple .csproj files";
      ConsoleError ("  Error: " ++ msg)],
     failed).
Proof.
  cbv zeta.
  exact (@listing_error_can_pass_for_ambiguity
           (Example.api Example.manifest_text Example.manifest)
           (Sample.unlisted "ENOENT: no such file or directory, scandir '/repo/Multiple .csproj files'")
           "/repo/Multiple .csproj files/packages.config" "net472" false
           (Error "ENOENT: no such file or directory, scandir '/repo/Multiple .csproj files'")
           eq_refl eq_refl).
Defined.


(** ** The resolver on an existing descriptor *)

(** X17.  With one descriptor beside the manifest, the manifest is a
    success exactly when the restore succeeds and the lock file can be
    copied from the directory or, failing that, from [obj]; the resolver
    runs once and nothing is skipped either way. *)
Theorem existing_descriptor_succeeds_iff
    (api : NodeApi) (w : ManifestWorld)
    (packagesConfigPath defaultTfm : string) (failOnSkipped : bool)
    (entries : list Dirent) (e : Dirent) :
  readdir w = inr entries ->
  filter is_csproj entries = [e] ->
  let run := processPackagesConfig api w packagesConfigPath defaultTfm
                                   failOnSkipped in
  (success (snd run) = true
   <-> restore_existing w = None
       /\ (copy_lock w = None \/ copy_obj_lock w = None))
  /\ skippedPackages (snd run) = []
  /\ restore_count (fst run) = 1.
Proof.
  intros Hread Hone. cbv zeta. rewrite processPackagesConfig_cases.
  rewrite (findCsprojFile_one api w _ Hread Hone).
  cbn [fst snd truthy_opt or_empty]. rewrite path_join_truthy.
  unfold use_existing, perform, answer_of.
  destruct (restore_existing w) as [err |]; cbn.
  - unfold print_text.
    destruct (stdout err) as [o |], (stderr err) as [e' |]; cbn;
      repeat match goal with
             | |- context [Js.truthy ?s] => destruct (Js.truthy s); cbn
             end;
      (split; [split; [discriminate | intros [H _]; discriminate] |]);
      split; reflexivity.
  - destruct (copy_lock w) as [e1 |]; [destruct (copy_obj_lock w) as [e2 |] |];
      cbn; (split; [split |]); try (split; reflexivity);
      try discriminate; try (intros _; split; [reflexivity |]; tauto).
    intros [_ [H | H]]; discriminate.
Qed.

(** X17 at a restore that leaves the lock file under [obj]. *)
Lemma existing_descriptor_succeeds_at_example :
  let api := Example.api Example.manifest_text Example.manifest in
  let run := processPackagesConfig api Sample.restored_into_obj
               "/repo/app/packages.config" "net472" false in
  (success (snd run) = true
   <-> restore_existing Sample.restored_into_obj = None
       /\ (copy_lock Sample.restored_into_obj = None
           \/ copy_obj_lock Sample.restored_into_obj = None))
  /\ skippedPackages (snd run) = []
  /\ restore_count (fst run) = 1.
Proof.
  cbv zeta.
  exact (@existing_descriptor_succeeds_iff
           (Example.api Example.manifest_text Example.manifest)
           Sample.restored_into_obj "/repo/app/packages.config" "net472" false
           [ {| name := "packages.config"; isFile := true |};
             {| name := "App.csproj"; isFile := true |} ]
           {| name := "App.csproj"; isFile := true |}
           eq_refl eq_refl).
Defined.

(** ** The narrowing loop, again *)

Section LoopBounds.

Variable w : ManifestWorld.
Variables (csprojPath workdir tfm : string).
Variables (hasExplicitTfm failOnSkipped : bool).

Local Notation "'body'" :=
  (loop_body w csprojPath workdir tfm hasExplicitTfm failOnSkipped).
Local Notation "'loop'" :=
  (while_loop w csprojPath workdir tfm hasExplicitTfm failOnSkipped).
Local Notation "'running'" :=
  (runs w csprojPath workdir tfm hasExplicitTfm failOnSkipped).

(** Every iteration that continues has one candidate less at least, so
    the resolver runs once per candidate at most. *)
Lemma runs_candidates (v : Vars.t) t v' :
  running v t v' ->
  restore_count t <= List.length (Vars.compatiblePackages v)
  /\ Vars.retryCount v' + List.length (Vars.compatiblePackages v')
     <= Vars.retryCount v + List.length (Vars.compatiblePackages v).
Proof.
  induction 1 as [v Hc | v t v' Hc Hb | v t v1 t' v' Hc Hb _ IH].
  - cbn. lia.
  - apply loop_body_inv in Hb. destruct Hb as (Hone & Hcp & _ & Hr).
    unfold loop_cond in Hc. apply andb_prop in Hc. destruct Hc as [_ Hl].
    apply Nat.ltb_lt in Hl. rewrite Hcp, Hr. lia.
  - apply loop_body_inv in Hb.
    destruct Hb as (Hone & _ & inc & _ & Hlt & _ & Hr).
    rewrite restore_count_app. lia.
Qed.

(** Once an iteration has run, a restore has succeeded or an error is
    kept in [lastError]. *)
Lemma loop_body_lastError (v : Vars.t) t c v' :
  body v = (t, (c, v')) ->
  Vars.restoreSuccess v' = true \/ exists err, Vars.lastError v' = Some err.
Proof.
  unfold loop_body.
  destruct (attempt w csprojPath workdir tfm hasExplicitTfm v)
    as [t0 [err | []]].
  - unfold after. destruct (catch_block v err) as [s [c0 r]] eqn:E.
    intros H; injection H as <- <- <-.
    apply catch_block_inv in E. destruct E as (_ & _ & Hl & _).
    right. now exists err.
  - destruct (0 <? _)%nat; [destruct failOnSkipped |];
      intros H; injection H as <- <- <-; now left.
Qed.

Lemma runs_lastError (v : Vars.t) t v' :
  running v t v' ->
  loop_cond v = true
  \/ (Vars.restoreSuccess v = true \/ exists err, Vars.lastError v = Some err) ->
  Vars.restoreSuccess v' = true \/ exists err, Vars.lastError v' = Some err.
Proof.
  induction 1 as [v Hc | v t v' Hc Hb | v t v1 t' v' Hc Hb _ IH]; intros Hv.
  - destruct Hv as [Hv | Hv]; [congruence | exact Hv].
  - exact (loop_body_lastError _ Hb).
  - apply IH. right. exact (loop_body_lastError _ Hb).
Qed.

End LoopBounds.

(** X18.  The loop runs the resolver once per candidate at most: its
    invocations are no more than the packages it starts from, and the
    retries counted and the candidates left are together no more than
    these. *)
Theorem resolver_runs_once_per_candidate_at_most
    (w : ManifestWorld) (csprojPath workdir tfm : string)
    (hasExplicitTfm failOnSkipped : bool) (original : list Package) :
  let run := while_loop w csprojPath workdir tfm hasExplicitTfm failOnSkipped
                        (initial original) in
  restore_count (fst run) <= List.length original
  /\ Vars.retryCount (snd run)
     + List.length (Vars.compatiblePackages (snd run))
     <= List.length original.
Proof.
  cbv zeta.
  exact (runs_candidates
           (while_loop_runs w csprojPath workdir tfm hasExplicitTfm
                            failOnSkipped (initial original))).
Qed.

(** X19.  The statements after the loop throw one error only, that of
    the copy of the lock file after a restore that has succeeded: when
    the loop has started from one package at least, [lastError] is set
    whenever no restore has succeeded. *)
Theorem after_loop_throws_only_the_copy_error
    (api : NodeApi) (w : ManifestWorld)
    (csprojPath workdir tfm lockFilePath : string)
    (hasExplicitTfm failOnSkipped : bool) (original : list Package)
    (err : JsError) :
  original <> [] ->
  let v := snd (while_loop w csprojPath workdir tfm hasExplicitTfm
                           failOnSkipped (initial original)) in
  snd (after_loop api w workdir lockFilePath v) = inl err ->
  Vars.restoreSuccess v = true /\ copy_generated_lock w = Some err.
Proof.
  intros Hne. cbv zeta.
  pose proof (runs_lastError
                (while_loop_runs w csprojPath workdir tfm hasExplicitTfm
                                 failOnSkipped (initial original))) as Hlast.
  assert (Hcond : loop_cond (initial original) = true).
  { destruct original as [| p l]; [congruence | reflexivity]. }
  specialize (Hlast (or_introl Hcond)).
  unfold after_loop, perform, answer_of.
  destruct (Vars.restoreSuccess _) eqn:Hrs; cbn [negb].
  - destruct (copy_generated_lock w) as [e |]; cbn; [| discriminate].
    intros [= ->]. now split.
  - destruct Hlast as [H | [e He]]; [discriminate |]. rewrite He.
    destruct e as [m [o |] [e' |]]; cbn; discriminate.
Qed.

(** X19 at a world where the copy of the generated lock file fails. *)
Lemma after_loop_throws_at_example :
  let v := snd (while_loop Ending.copy_fails
                  "/tmp/convert-nuget-Xa1/TempLockProject.csproj"
                  "/tmp/convert-nuget-Xa1" "net472" false false
                  (initial [Example.A1; Example.B2])) in
  Vars.restoreSuccess v = true
  /\ copy_generated_lock Ending.copy_fails
     = Some (Error "ENOENT: no such file or directory, copyfile").
Proof.
  cbv zeta.
  apply (@after_loop_throws_only_the_copy_error
           (Example.api Example.manifest_text Example.manifest)
           Ending.copy_fails
           "/tmp/convert-nuget-Xa1/TempLockProject.csproj"
           "/tmp/convert-nuget-Xa1" "net472" "/repo/app/packages.lock.json"
           false false [Example.A1; Example.B2]
           (Error "ENOENT: no such file or directory, copyfile")).
  - discriminate.
  - vm_compute. reflexivity.
Defined.

(** ** The end of the fallback *)

Lemma temp_event_in_trace (e : Event) (t : list Event) :
  In e t -> is_temp e = true -> filter is_temp t <> [].
Proof.
  intros Hin He Hnil.
  assert (H : In e (filter is_temp t)) by (apply filter_In; now split).
  rewrite Hnil in H. exact H.
Qed.

(** X20.  When the temporary directory has been created and cannot be
    removed, the manifest fails whatever the resolver has done, and the
    last line printed is the error of the removal. *)
Theorem failed_cleanup_fails_the_manifest
    (api : NodeApi) (w : ManifestWorld)
    (packagesConfigPath defaultTfm : string) (failOnSkipped : bool)
    (workdir : string) (err : JsError) :
  let run := processPackagesConfig api w packagesConfigPath defaultTfm
                                   failOnSkipped in
  In (Mkdtemp (temp_prefix api)) (fst run) ->
  mkdtemp w = inr workdir ->
  rm w = Some err ->
  snd run = failed
  /\ exists before,
      fst run = (before ++ [Rm workdir;
                            ConsoleError ("  Error: " ++ message err)])%list.
Proof.
  cbv zeta. rewrite processPackagesConfig_cases.
  rewrite fst_after, snd_after.
  intros Hin Hmk Hrm.
  assert (Hhead : ~ In (Mkdtemp (temp_prefix api))
                    (ConsoleLog ("Processing: " ++ packagesConfigPath)
                     :: fst (findCsprojFile api w
                               (path_dirname api packagesConfigPath)))).
  { intros [H | H]; [discriminate |].
    exact (temp_event_in_trace _ _ H eq_refl (findCsprojFile_temp api w _)). }
  apply in_app_or in Hin. destruct Hin as [Hin | Hin]; [contradiction |].
  destruct (snd (findCsprojFile api w (path_dirname api packagesConfigPath)))
    as [e | existingCsproj].
  { destruct Hin as [H | []]. discriminate. }
  destruct (truthy_opt existingCsproj).
  { exfalso. rewrite fst_catch_all in Hin. apply in_app_or in Hin.
    destruct Hin as [Hin | Hin].
    - exact (temp_event_in_trace _ _ Hin eq_refl (use_existing_temp api w _ _ _)).
    - destruct (snd (use_existing _ _ _ _ _)); [| exact Hin].
      destruct Hin as [H | []]. discriminate. }
  destruct (parsePackagesConfig api w packagesConfigPath)
    as [t0 [e | parsed]] eqn:Hp.
  { exfalso. revert Hin. unfold generate_and_restore. rewrite Hp.
    cbn [bind catch_all reported fst]. intros Hin.
    apply in_app_or in Hin. destruct Hin as [Hin | [H | []]]; [| discriminate].
    pose proof (parsePackagesConfig_temp api w packagesConfigPath) as Ht.
    rewrite Hp in Ht. exact (temp_event_in_trace _ _ Hin eq_refl Ht). }
  destruct (packages parsed) as [| pkg rest] eqn:Epk.
  { exfalso. revert Hin. unfold generate_and_restore. rewrite Hp.
    cbn [bind]. rewrite Epk. cbn. rewrite ?app_nil_r. intros Hin.
    apply in_app_or in Hin. destruct Hin as [Hin | Hin];
      [| destruct Hin as [H | Hin]; [discriminate | exact Hin]].
    pose proof (parsePackagesConfig_temp api w packagesConfigPath) as Ht.
    rewrite Hp in Ht. exact (temp_event_in_trace _ _ Hin eq_refl Ht). }
  assert (Hne : packages parsed <> []) by (rewrite Epk; discriminate).
  rewrite (generate_and_restore_runs_loop api w packagesConfigPath
             (lock_path api packagesConfigPath) defaultTfm failOnSkipped
             Hp Hne Hmk).
  rewrite Hrm. cbn [catch_all reported fst snd]. split; [reflexivity |].
  match goal with
  | |- context [(?t0 ++ ?note ++ ?m :: ?tl ++ ?ta ++ [Rm workdir])%list] =>
      exists ((ConsoleLog ("Processing: " ++ packagesConfigPath)
               :: fst (findCsprojFile api w
                         (path_dirname api packagesConfigPath)))
              ++ t0 ++ note ++ m :: tl ++ ta)%list;
      generalize tl; generalize ta
  end.
  intros ta tl.
  repeat (rewrite <- app_assoc || rewrite <- app_comm_cons).
  reflexivity.
Qed.

(** X20 at a world where the removal fails after a restore that has
    succeeded. *)
Lemma failed_cleanup_at_example :
  let run :=
    processPackagesConfig
      (Example.api Example.manifest_text Example.manifest)
      Ending.cleanup_fails "/repo/app/packages.config" "net472" false in
  snd run = failed
  /\ exists before,
      fst run
      = (before ++ [Rm "/tmp/convert-nuget-Xa1";
                    ConsoleError "  Error: EBUSY: resource busy or locked, rm"])%list.
Proof.
  cbv zeta.
  apply (@failed_cleanup_fails_the_manifest
           (Example.api Example.manifest_text Example.manifest)
           Ending.cleanup_fails "/repo/app/packages.config" "net472" false
           "/tmp/convert-nuget-Xa1"
           (Error "EBUSY: resource busy or locked, rm")).
  - vm_compute. do 3 right. left. reflexivity.
  - reflexivity.
  - reflexivity.
Defined.


(** ** The run *)

Section Checks.

Variable api : NodeApi.
Variable mw : MainWorld.

Lemma fst_main : fst (main api mw) = fst (main_body api mw).
Proof. unfold main. now destruct (main_body api mw) as [t [c | u]]. Qed.

Lemma snd_main :
  snd (main api mw)
  = match snd (main_body api mw) with inl code => code | inr _ => 0 end.
Proof. unfold main. now destruct (main_body api mw) as [t [c | u]]. Qed.

(** The search for the program looks at paths and runs what it finds for
    its version. *)
Lemma probe_events (paths : list string) :
  forallb is_check_event (fst (probe mw paths)) = true.
Proof.
  induction paths as [| p rest IH]; [reflexivity |].
  cbn [probe]. unfold perform, answer_of, bind.
  destruct (access mw p); [now rewrite fst_after, forallb_app, IH |].
  destruct (dotnet_version mw p); cbn [app].
  - rewrite fst_after, forallb_app, IH. cbn.
    now rewrite andb_false_r.
  - cbn. now rewrite andb_false_r.
Qed.

(** The search succeeds when some path works. *)
Lemma probe_works (paths : list string) :
  snd (probe mw paths) = existsb (works mw) paths.
Proof.
  induction paths as [| p rest IH]; [reflexivity |].
  cbn [probe existsb]. unfold works, perform, answer_of, bind.
  destruct (access mw p); [now rewrite snd_after |].
  destruct (dotnet_version mw p); [now rewrite snd_after | reflexivity].
Qed.

(** A run whose checks fail. *)
Lemma main_not_ready (args : Args) :
  parseArgs (argv mw) (cwd mw) = ([], inr args) ->
  ready api mw args = false ->
  snd (main api mw) = 1
  /\ forallb is_check_event (fst (main api mw)) = true.
Proof.
  intros Hparse Hready. rewrite snd_main, fst_main. unfold main_body.
  rewrite fst_bind, snd_bind, Hparse. cbn [fst snd app].
  unfold ready, suspicious, is_directory, dotnet_found in Hready.
  rewrite fst_bind, snd_bind.
  destruct (Js.includes (path_resolve api (rootDir args)) ".."
            || (Js.includes (path_resolve api (rootDir args)) "~"
                && negb (Js.startsWith (path_resolve api (rootDir args))
                                       (or_empty (HOME mw))))).
  { split; reflexivity. }
  cbn [negb andb] in Hready. cbn [fst snd ret app].
  rewrite fst_bind, snd_bind. cbn [emit fst snd app].
  rewrite fst_bind, snd_bind.
  destruct (stat_isDirectory mw) as [e | [|]]; try (split; reflexivity).
  cbn [fst snd ret app forallb is_check_event andb].
  rewrite fst_bind, snd_bind, lift_fst, snd_lift, forallb_app, probe_events.
  cbn [andb]. rewrite fst_bind, snd_bind.
  destruct (snd (probe mw (commonPaths api mw))); [discriminate |].
  cbn [orb negb] in *.
  destruct (dotnet_version mw "dotnet"); [| discriminate].
  split; reflexivity.
Qed.

End Checks.


Section Counters.

(** The counters after a series of results. *)
Lemma count_results (results : list Result) (acc : Tally) :
  let tally := fold_left count results acc in
  successCount tally
  = successCount acc + List.length (filter success results)
  /\ failCount tally
     = failCount acc
       + List.length (filter (fun r => negb (success r)) results)
  /\ totalSkippedPackages tally
     = (totalSkippedPackages acc ++ concat (map skippedPackages results))%list.
Proof.
  cbv zeta. revert acc.
  induction results as [| r results IH]; intros acc.
  - cbn. rewrite app_nil_r. repeat split; lia.
  - cbn [fold_left map concat filter].
    destruct (IH (count acc r)) as (Hs & Hf & Hk). rewrite Hs, Hf, Hk.
    unfold count. cbn [successCount failCount totalSkippedPackages].
    destruct (success r); cbn [negb List.length];
      (split; [lia |]); (split; [lia |]);
      destruct (skippedPackages r) as [| p l]; cbn [List.length Nat.ltb Nat.leb];
      rewrite <- ?app_assoc; reflexivity.
Qed.

End Counters.

(** X21.  A run whose arguments are read but whose root directory is
    suspicious, missing or no directory, or for which no [dotnet]
    program is found, exits with status 1 before any search: it has
    looked at the root and for the program and printed errors, and has
    done nothing else. *)
Theorem failed_checks_exit_1_before_any_search
    (api : NodeApi) (mw : MainWorld) (args : Args) :
  snd (parseArgs (argv mw) (cwd mw)) = inr args ->
  ready api mw args = false ->
  snd (main api mw) = 1
  /\ forallb is_check_event (fst (main api mw)) = true.
Proof.
  intros Hparse Hready. apply main_not_ready with (args := args); [| exact Hready].
  destruct (parseArgs (argv mw) (cwd mw)) as [t r] eqn:E. cbn [snd] in Hparse.
  subst r. unfold parseArgs in E.
  pose proof (parseArgs_from_outcome
                (argv mw) {| tfm := DEFAULT_TFM; rootDir := cwd mw;
                             failOnSkipped := false |} (Nat.le_refl _)) as Hout.
  rewrite E in Hout. destruct Hout as [-> _]. reflexivity.
Qed.

(** X21 at a root directory that does not exist. *)
Lemma failed_checks_at_example :
  let api := Example.api Example.manifest_text Example.manifest in
  let mw := Runs.tree ["--root"; "/nowhere"]
                      (inl (Error "ENOENT: no such file or directory, stat"))
                      (fun _ => Example.refuses_B) in
  snd (main api mw) = 1
  /\ forallb is_check_event (fst (main api mw)) = true.
Proof.
  cbv zeta.
  exact (@failed_checks_exit_1_before_any_search
           (Example.api Example.manifest_text Example.manifest)
           (Runs.tree ["--root"; "/nowhere"]
                      (inl (Error "ENOENT: no such file or directory, stat"))
                      (fun _ => Example.refuses_B))
           {| tfm := "net472"; rootDir := "/nowhere"; failOnSkipped := false |}
           eq_refl eq_refl).
Defined.

Section Status.

Variable api : NodeApi.
Variable mw : MainWorld.

(** The status of a run whose checks pass. *)
Lemma main_ready (args : Args) :
  snd (parseArgs (argv mw) (cwd mw)) = inr args ->
  ready api mw args = true ->
  snd (main api mw)
  = status_of args
      (snd (process_all api mw (tfm args) (failOnSkipped args)
              (snd (findPackagesConfigFiles api mw
                      (path_resolve api (rootDir args))))
              no_tally)).
Proof.
  intros Hparse Hready. unfold ready in Hready.
  apply andb_prop in Hready. destruct Hready as [Hready Hdotnet].
  apply andb_prop in Hready. destruct Hready as [Hroot Hdir].
  apply negb_true_iff in Hroot.
  apply main_exit_status; [exact Hparse | exact Hroot | |].
  - unfold is_directory in Hdir.
    destruct (stat_isDirectory mw) as [e | [|]]; try discriminate. reflexivity.
  - unfold dotnet_found in Hdotnet. apply orb_prop in Hdotnet.
    destruct Hdotnet as [H | H]; [now left | right].
    now destruct (dotnet_version mw "dotnet").
Qed.

Lemma status_of_bound (args : Args) (tally : Tally) : status_of args tally <= 2.
Proof.
  unfold status_of. destruct (0 <? failCount tally)%nat; [lia |].
  destruct (failOnSkipped args && _); lia.
Qed.

(** The ways a run ends, by what [parseArgs] and the checks give. *)
Lemma main_cases :
  match parseArgs (argv mw) (cwd mw) with
  | (_, inl code) => snd (main api mw) = code /\ (code = 0 \/ code = 2)
  | (_, inr args) =>
      if ready api mw args
      then snd (main api mw)
           = status_of args
               (snd (process_all api mw (tfm args) (failOnSkipped args)
                       (snd (findPackagesConfigFiles api mw
                               (path_resolve api (rootDir args))))
                       no_tally))
      else snd (main api mw) = 1
  end.
Proof.
  destruct (parseArgs (argv mw) (cwd mw)) as [t [code | args]] eqn:E.
  - split.
    + rewrite snd_main. unfold main_body. now rewrite snd_bind, E.
    + unfold parseArgs in E.
      pose proof (parseArgs_from_outcome
                    (argv mw) {| tfm := DEFAULT_TFM; rootDir := cwd mw;
                                 failOnSkipped := false |} (Nat.le_refl _))
        as Hout.
      rewrite E in Hout. destruct Hout as [[H _] | [H _]]; [now left | now right].
  - assert (Hparse : snd (parseArgs (argv mw) (cwd mw)) = inr args)
      by now rewrite E.
    destruct (ready api mw args) eqn:Hready.
    + exact (@main_ready args Hparse Hready).
    + assert (Ht : t = []).
      { unfold parseArgs in E.
        pose proof (parseArgs_from_outcome
                      (argv mw) {| tfm := DEFAULT_TFM; rootDir := cwd mw;
                                   failOnSkipped := false |} (Nat.le_refl _))
          as Hout.
        rewrite E in Hout. now destruct Hout as [-> _]. }
      subst t. exact (proj1 (@main_not_ready api mw args E Hready)).
Qed.

End Status.

(** X22.  The script exits with status 0, 1 or 2, whatever the arguments
    and whatever the file system and the resolver do. *)
Theorem exit_status_is_0_1_or_2 (api : NodeApi) (mw : MainWorld) :
  snd (main api mw) <= 2.
Proof.
  pose proof (main_cases api mw) as H.
  destruct (parseArgs (argv mw) (cwd mw)) as [t [code | args]].
  - destruct H as [-> [-> | ->]]; lia.
  - destruct (ready api mw args); rewrite H; [apply status_of_bound | lia].
Qed.

(** X23.  Status 2 has two causes only: arguments that cannot be read,
    or the strict flag on a run in which the checks pass, no manifest
    fails and some package is skipped. *)
Theorem status_2_is_bad_usage_or_strict_skip
    (api : NodeApi) (mw : MainWorld) :
  snd (main api mw) = 2 ->
  snd (parseArgs (argv mw) (cwd mw)) = inl 2
  \/ exists args,
      snd (parseArgs (argv mw) (cwd mw)) = inr args
      /\ failOnSkipped args = true
      /\ ready api mw args = true
      /\ let results :=
           map (fun f => snd (processPackagesConfig api (world_of mw f) f
                                (tfm args) true))
               (snd (findPackagesConfigFiles api mw
                       (path_resolve api (rootDir args)))) in
         Forall (fun r => success r = true) results
         /\ Exists (fun r => skippedPackages r <> []) results.
Proof.
  intros H2. pose proof (main_cases api mw) as H.
  destruct (parseArgs (argv mw) (cwd mw)) as [t [code | args]]; cbn [snd].
  - left. destruct H as [Hc _]. congruence.
  - right. exists args. split; [reflexivity |].
    destruct (ready api mw args); [| congruence].
    rewrite H in H2. unfold status_of in H2.
    rewrite process_all_tally in H2.
    match type of H2 with
    | context [fold_left count ?rs no_tally] =>
        destruct (count_results rs no_tally) as (_ & Hf & Hk)
    end.
    cbv zeta in Hf, Hk. rewrite Hf, Hk in H2. cbn [no_tally failCount
      totalSkippedPackages app Nat.add] in H2.
    destruct (0 <? _)%nat eqn:Hfail in H2; [discriminate |].
    destruct (failOnSkipped args) eqn:Hflag; [| discriminate].
    cbn [andb] in H2.
    destruct (0 <? List.length (concat _))%nat eqn:Hskip in H2;
      [| discriminate].
    split; [reflexivity |]. split; [reflexivity |]. cbv zeta. split.
    + apply Nat.ltb_ge in Hfail. apply Forall_forall. intros r Hr.
      destruct (success r) eqn:Hs; [reflexivity | exfalso].
      assert (Hin : In r (filter (fun r => negb (success r))
                            (map (fun f => snd (processPackagesConfig api
                                    (world_of mw f) f (tfm args) true))
                                 (snd (findPackagesConfigFiles api mw
                                         (path_resolve api (rootDir args)))))))
        by (apply filter_In; split; [exact Hr | now rewrite Hs]).
      destruct (filter _ _); [exact Hin | cbn in Hfail; lia].
    + apply Nat.ltb_lt in Hskip. clear -Hskip.
      induction (map (fun f => snd (processPackagesConfig api (world_of mw f)
                                      f (tfm args) true)) _)
        as [| r rs IH]; [cbn in Hskip; lia |].
      destruct (skippedPackages r) as [| p l] eqn:Hr.
      * apply Exists_cons_tl, IH. cbn [map concat] in Hskip.
        now rewrite Hr in Hskip.
      * apply Exists_cons_hd. congruence.
Qed.

(** X23 at the run with the strict flag in which one package is
    skipped. *)
Lemma status_2_at_example :
  let api := Example.api Example.manifest_text Example.manifest in
  let mw := Example.strict_run (fun _ => Example.names_a_stranger) in
  snd (main api mw) = 2
  /\ (snd (parseArgs (argv mw) (cwd mw)) = inl 2
      \/ exists args,
          snd (parseArgs (argv mw) (cwd mw)) = inr args
          /\ failOnSkipped args = true
          /\ ready api mw args = true
          /\ let results :=
               map (fun f => snd (processPackagesConfig api (world_of mw f) f
                                    (tfm args) true))
                   (snd (findPackagesConfigFiles api mw
                           (path_resolve api (rootDir args)))) in
             Forall (fun r => success r = true) results
             /\ Exists (fun r => skippedPackages r <> []) results).
Proof.
  cbv zeta.
  assert (H : snd (main (Example.api Example.manifest_text Example.manifest)
                        (Example.strict_run (fun _ => Example.names_a_stranger)))
              = 2) by (vm_compute; reflexivity).
  split; [exact H |].
  exact (@status_2_is_bad_usage_or_strict_skip
           (Example.api Example.manifest_text Example.manifest)
           (Example.strict_run (fun _ => Example.names_a_stranger)) H).
Defined.

(** X24.  On a run whose checks pass, the status is 1 exactly when some
    manifest fails, with or without the strict flag and whatever is
    skipped. *)
Theorem status_1_iff_some_manifest_fails
    (api : NodeApi) (mw : MainWorld) (args : Args) :
  snd (parseArgs (argv mw) (cwd mw)) = inr args ->
  ready api mw args = true ->
  snd (main api mw) = 1
  <-> exists f,
      In f (snd (findPackagesConfigFiles api mw
                   (path_resolve api (rootDir args))))
      /\ success (snd (processPackagesConfig api (world_of mw f) f (tfm args)
                         (failOnSkipped args))) = false.
Proof.
  intros Hparse Hready. rewrite (@main_ready api mw args Hparse Hready).
  unfold status_of. rewrite process_all_tally.
  match goal with
  | |- context [fold_left count ?rs no_tally] =>
      destruct (count_results rs no_tally) as (_ & Hf & _)
  end.
  cbv zeta in Hf. rewrite Hf. cbn [no_tally failCount Nat.add]. clear Hf.
  set (files := snd (findPackagesConfigFiles api mw _)).
  set (outcome := fun f => snd (processPackagesConfig api (world_of mw f) f
                                  (tfm args) (failOnSkipped args))).
  assert (Hex : (0 <? List.length (filter (fun r => negb (success r))
                                    (map outcome files)))%nat = true
                <-> exists f, In f files /\ success (outcome f) = false).
  { rewrite Nat.ltb_lt. split.
    - intros Hlen.
      destruct (filter _ (map outcome files)) as [| r l] eqn:E;
        [cbn in Hlen; lia |].
      assert (Hin : In r (filter (fun r => negb (success r))
                            (map outcome files)))
        by (rewrite E; now left).
      apply filter_In in Hin. destruct Hin as [Hin Hs].
      apply in_map_iff in Hin. destruct Hin as (f & <- & Hf).
      exists f. split; [exact Hf |]. now apply negb_true_iff.
    - intros (f & Hf & Hs).
      assert (Hin : In (outcome f) (filter (fun r => negb (success r))
                                      (map outcome files))).
      { apply filter_In. split; [now apply in_map |]. now rewrite Hs. }
      destruct (filter _ _); [destruct Hin | cbn; lia]. }
  refine (iff_trans _ Hex).
  destruct (0 <? _)%nat; [tauto |].
  destruct (failOnSkipped args && _); split; discriminate.
Qed.

(** X24 at a tree whose one manifest lists no package. *)
Lemma status_1_at_example :
  let api := Example.api "<packages />" PackagesFalsy in
  let mw := Runs.tree ["--fail-on-skipped"] (inr true)
                      (fun _ => Example.empty_manifest) in
  snd (main api mw) = 1
  <-> exists f,
      In f (snd (findPackagesConfigFiles api mw "/repo"))
      /\ success (snd (processPackagesConfig api (world_of mw f) f "net472"
                         true)) = false.
Proof.
  cbv zeta.
  exact (@status_1_iff_some_manifest_fails
           (Example.api "<packages />" PackagesFalsy)
           (Runs.tree ["--fail-on-skipped"] (inr true)
                      (fun _ => Example.empty_manifest))
           {| tfm := "net472"; rootDir := "/repo"; failOnSkipped := true |}
           eq_refl eq_refl).
Defined.

(** X25.  Every manifest is counted once, as a success or as a failure,
    and the packages skipped are those of the results, in the order of
    the manifests. *)
Theorem every_manifest_is_counted_once
    (api : NodeApi) (mw : MainWorld) (tfm : string) (failOnSkipped : bool)
    (files : list string) :
  let tally := snd (process_all api mw tfm failOnSkipped files no_tally) in
  let results :=
    map (fun f => snd (processPackagesConfig api (world_of mw f) f tfm
                         failOnSkipped)) files in
  successCount tally + failCount tally = List.length files
  /\ successCount tally = List.length (filter success results)
  /\ totalSkippedPackages tally = concat (map skippedPackages results).
Proof.
  cbv zeta. rewrite process_all_tally.
  match goal with
  | |- context [fold_left count ?rs no_tally] =>
      destruct (count_results rs no_tally) as (Hs & Hf & Hk);
      set (results := rs) in *
  end.
  cbv zeta in Hs, Hf, Hk. rewrite Hs, Hf, Hk.
  cbn [no_tally successCount failCount totalSkippedPackages app Nat.add].
  split; [| now split].
  replace (List.length files) with (List.length results)
    by (unfold results; apply length_map).
  clear. induction results as [| r rs IH]; [reflexivity |].
  cbn [filter]. destruct (success r); cbn [negb List.length]; lia.
Qed.


(** ** The search for the program *)

(** X26.  The paths are tried in order and the search stops at the first
    that works: after the paths that do not work, a path that can be
    accessed and runs [--version] ends the search with the program
    found, and the paths behind it are not looked at. *)
Theorem probe_stops_at_first_working_path
    (mw : MainWorld) (before : list string) (testPath : string)
    (rest : list string) :
  existsb (works mw) before = false ->
  works mw testPath = true ->
  probe mw (before ++ testPath :: rest)
  = ((fst (probe mw before)
        ++ [Access testPath; ExecFile testPath ["--version"] None])%list,
     true).
Proof.
  intros Hbefore Hworks. induction before as [| q before IH].
  - cbn [app probe fst]. unfold works in Hworks. unfold perform, answer_of, bind.
    destruct (access mw testPath); [discriminate |].
    destruct (dotnet_version mw testPath); [discriminate | reflexivity].
  - cbn [existsb] in Hbefore. apply orb_false_elim in Hbefore.
    destruct Hbefore as [Hq Hbefore]. specialize (IH Hbefore).
    cbn [app probe]. rewrite IH. unfold works in Hq.
    unfold perform, answer_of, bind.
    destruct (access mw q).
    + unfold after. now destruct (probe mw before).
    + destruct (dotnet_version mw q); [| discriminate].
      unfold after. now destruct (probe mw before).
Qed.

(** X26 at a machine with the program under [/usr/local/bin] only. *)
Lemma probe_stops_at_example :
  probe Runs.local_dotnet
        (commonPaths (Example.api Example.manifest_text Example.manifest)
                     Runs.local_dotnet)
  = ([Access "/usr/bin/dotnet"; Access "/usr/local/bin/dotnet";
      ExecFile "/usr/local/bin/dotnet" ["--version"] None],
     true).
Proof.
  exact (@probe_stops_at_first_working_path Runs.local_dotnet
           ["/usr/bin/dotnet"] "/usr/local/bin/dotnet"
           ["/usr/share/dotnet/dotnet"] eq_refl eq_refl).
Defined.

(** ** The packages skipped, each once *)

Section UniqueSkipped.

Lemma map_set_In (m : list (string * Package)) (key : string) (value : Package)
    (k : string) :
  In k (map fst (map_set m key value)) <-> k = key \/ In k (map fst m).
Proof.
  induction m as [| [k0 old] m IH]; cbn [map_set map fst In].
  - split; [intros [H | []]; now left | intros [H | []]; now left].
  - destruct (String.eqb k0 key) eqn:E; cbn [map fst In].
    + apply String.eqb_eq in E. subst k0. split; [tauto |].
      intros [H | H]; [left; congruence | exact H].
    + rewrite IH. tauto.
Qed.

Lemma map_set_NoDup (m : list (string * Package)) (key : string)
    (value : Package) :
  NoDup (map fst m) -> NoDup (map fst (map_set m key value)).
Proof.
  induction m as [| [k0 old] m IH]; cbn [map_set map fst]; intros H.
  - constructor; [intros [] | constructor].
  - destruct (String.eqb k0 key) eqn:E; cbn [map fst]; [exact H |].
    inversion H as [| ? ? Hnotin Hrest]; subst. constructor.
    + rewrite map_set_In. intros [Hk | Hk]; [| contradiction].
      apply String.eqb_neq in E. congruence.
    + now apply IH.
Qed.

Lemma map_set_keyed (m : list (string * Package)) (value : Package) :
  keyed m -> keyed (map_set m (at_version value) value).
Proof.
  unfold keyed. induction m as [| [k0 old] m IH]; cbn [map_set]; intros H k v.
  - intros [[= <- <-] | []]. reflexivity.
  - destruct (String.eqb k0 (at_version value)) eqn:E.
    + intros [[= <- <-] | Hin].
      * now apply String.eqb_eq in E.
      * apply H. now right.
    + intros [[= <- <-] | Hin].
      * apply H. now left.
      * apply IH; [| exact Hin]. intros k' v' H'. apply H. now right.
Qed.

Lemma map_set_length (m : list (string * Package)) (key : string)
    (value : Package) :
  List.length (map_set m key value) <= S (List.length m).
Proof.
  induction m as [| [k0 old] m IH]; cbn [map_set List.length]; [lia |].
  destruct (String.eqb k0 key); cbn [List.length]; lia.
Qed.

Lemma keyed_keys (m : list (string * Package)) :
  keyed m -> map at_version (map snd m) = map fst m.
Proof.
  unfold keyed. induction m as [| [k v] m IH]; intros H; [reflexivity |].
  cbn [map fst snd]. rewrite (H k v) by now left.
  f_equal. apply IH. intros k' v' H'. apply H. now right.
Qed.

(** The map after all the packages are set. *)
Lemma fold_map_set (total : list Package) (m : list (string * Package)) :
  let m' := fold_left (fun m p => map_set m (at_version p) p) total m in
  (NoDup (map fst m) -> NoDup (map fst m'))
  /\ (keyed m -> keyed m')
  /\ (forall k, In k (map fst m')
                <-> In k (map fst m) \/ In k (map at_version total))
  /\ List.length m' <= List.length m + List.length total.
Proof.
  cbv zeta. revert m. induction total as [| p total IH]; intros m.
  - cbn. repeat split; try tauto. lia.
  - cbn [fold_left map In List.length].
    destruct (IH (map_set m (at_version p) p)) as (Hn & Hk & Hin & Hl).
    split; [| split; [| split]].
    + intros H. now apply Hn, map_set_NoDup.
    + intros H. now apply Hk, map_set_keyed.
    + intros k. rewrite Hin, map_set_In. intuition congruence.
    + pose proof (map_set_length m (at_version p) p). lia.
Qed.

End UniqueSkipped.

(** X27.  The packages of the summary are the packages skipped, each
    [id@version] once: no two of them have the same [id@version], every
    [id@version] skipped is among them and no other, and they are no
    more than the packages skipped. *)
Theorem unique_skipped_has_each_key_once (total : list Package) :
  NoDup (map at_version (uniqueSkipped total))
  /\ (forall k, In k (map at_version (uniqueSkipped total))
                <-> In k (map at_version total))
  /\ List.length (uniqueSkipped total) <= List.length total.
Proof.
  unfold uniqueSkipped.
  destruct (fold_map_set total []) as (Hn & Hk & Hin & Hl). cbv zeta in *.
  rewrite keyed_keys by (apply Hk; intros k v []).
  split; [apply Hn; constructor |]. split.
  - intros k. rewrite Hin. cbn. tauto.
  - rewrite length_map. exact Hl.
Qed.


(** ** The manifests, one after the other *)

Lemma loop_events_are_not_readdir (t : list Event) :
  forallb is_loop_event t = true -> filter is_readdir t = [].
Proof.
  induction t as [| e t IH]; [reflexivity |]. cbn [forallb filter].
  intros H. apply andb_prop in H. destruct H as [He Ht].
  rewrite (IH Ht). now destruct e.
Qed.

Section Listing.

Variable api : NodeApi.
Variable w : ManifestWorld.

Lemma findCsprojFile_readdir (dir : string) :
  filter is_readdir (fst (findCsprojFile api w dir)) = [Readdir dir].
Proof.
  unfold findCsprojFile, perform.
  destruct (readdir w) as [err | entries]; cbn.
  - now destruct (Js.includes (message err) "Multiple .csproj files").
  - destruct (csprojFiles api dir entries) as [| a [| b l]]; reflexivity.
Qed.

Lemma use_existing_readdir (dir lockFilePath existingCsproj : string) :
  filter is_readdir (fst (use_existing api w dir lockFilePath existingCsproj))
  = [].
Proof.
  unfold use_existing, perform, answer_of.
  destruct (restore_existing w) as [err |]; cbn.
  - unfold print_text.
    destruct (stdout err) as [o |], (stderr err) as [e |]; cbn;
      repeat match goal with
             | |- context [Js.truthy ?s] => destruct (Js.truthy s); cbn
             end; reflexivity.
  - destruct (copy_lock w); [destruct (copy_obj_lock w) |]; reflexivity.
Qed.

Lemma after_loop_readdir (workdir lockFilePath : string) (v : Vars.t) :
  filter is_readdir (fst (after_loop api w workdir lockFilePath v)) = [].
Proof.
  unfold after_loop, perform, answer_of.
  destruct (Vars.restoreSuccess v); cbn.
  - now destruct (copy_generated_lock w).
  - destruct (Vars.lastError v) as [[m [o |] [e |]] |]; reflexivity.
Qed.

Lemma generate_and_restore_readdir
    (packagesConfigPath lockFilePath defaultTfm : string) (failOnSkipped : bool) :
  filter is_readdir
         (fst (generate_and_restore api w packagesConfigPath lockFilePath
                                    defaultTfm failOnSkipped))
  = [].
Proof.
  destruct (parsePackagesConfig api w packagesConfigPath)
    as [t0 [e | parsed]] eqn:Hp.
  { unfold generate_and_restore. rewrite Hp. cbn [bind fst].
    revert Hp. unfold parsePackagesConfig, perform.
    destruct (readFile w) as [e' | xml]; cbn; [now intros [= <- _] |].
    destruct (xml_parse api xml); cbn; now intros [= <- _]. }
  assert (Ht0 : filter is_readdir t0 = []).
  { revert Hp. unfold parsePackagesConfig, perform.
    destruct (readFile w) as [e' | xml]; cbn; [discriminate |].
    destruct (xml_parse api xml); cbn; [discriminate |]. now intros [= <- _]. }
  destruct (packages parsed) as [| pkg rest] eqn:Epk.
  { unfold generate_and_restore. rewrite Hp. cbn [bind]. rewrite Epk. cbn.
    now rewrite filter_app, Ht0. }
  destruct (mkdtemp w) as [e | workdir] eqn:Hmk.
  { unfold generate_and_restore. rewrite Hp. cbn [bind]. rewrite Epk.
    cbn [List.length Nat.eqb]. rewrite Hmk.
    match goal with
    | |- context [if ?c then console_log _ else ret tt] => destruct c
    end; cbn; now rewrite filter_app, Ht0. }
  assert (Hne : packages parsed <> []) by (rewrite Epk; discriminate).
  rewrite (generate_and_restore_runs_loop api w packagesConfigPath lockFilePath
             defaultTfm failOnSkipped Hp Hne Hmk).
  cbn [fst]. rewrite !filter_app, Ht0. cbn [filter is_readdir app].
  rewrite !filter_app, after_loop_readdir.
  rewrite (loop_events_are_not_readdir _ (while_loop_events _ _ _ _ _ _ _)).
  unfold framework_note. now destruct (_ && _).
Qed.

(** Processing a manifest lists the directory of the manifest, once. *)
Lemma processPackagesConfig_readdir
    (packagesConfigPath defaultTfm : string) (failOnSkipped : bool) :
  filter is_readdir
         (fst (processPackagesConfig api w packagesConfigPath defaultTfm
                                     failOnSkipped))
  = [Readdir (path_dirname api packagesConfigPath)].
Proof.
  rewrite processPackagesConfig_cases, fst_after.
  rewrite filter_app. cbn [filter is_readdir]. rewrite findCsprojFile_readdir.
  destruct (snd (findCsprojFile api w (path_dirname api packagesConfigPath)))
    as [err | existingCsproj]; [reflexivity |].
  rewrite fst_catch_all, filter_app.
  match goal with
  | |- context [match snd ?m with inl x => fst (reported x) | inr _ => [] end] =>
      replace (filter is_readdir
                 (match snd m with
                  | inl x => fst (reported x)
                  | inr _ => []
                  end)) with (@nil Event)
        by (now destruct (snd m))
  end.
  destruct (truthy_opt existingCsproj).
  - now rewrite use_existing_readdir.
  - now rewrite generate_and_restore_readdir.
Qed.

End Listing.

(** X28.  The manifests are processed one after the other in the order
    they are given: the directories listed are those of the manifests,
    each once and in that order, and the resolver runs twenty times per
    manifest at most. *)
Theorem manifests_are_processed_in_order
    (api : NodeApi) (mw : MainWorld) (tfm : string) (failOnSkipped : bool)
    (files : list string) (acc : Tally) :
  let t := fst (process_all api mw tfm failOnSkipped files acc) in
  filter is_readdir t = map (fun f => Readdir (path_dirname api f)) files
  /\ restore_count t <= 20 * List.length files.
Proof.
  cbv zeta. revert acc. induction files as [| f files IH]; intros acc.
  - split; [reflexivity | cbn; lia].
  - cbn [process_all map].
    pose proof (processPackagesConfig_readdir api (world_of mw f) f tfm
                  failOnSkipped) as Hr.
    pose proof (processPackagesConfig_restore_count api (world_of mw f) f tfm
                  failOnSkipped) as Hn.
    destruct (processPackagesConfig api (world_of mw f) f tfm failOnSkipped)
      as [t r]. cbn [fst] in Hr, Hn.
    destruct (IH (count acc r)) as [IHr IHn].
    rewrite fst_after, filter_app, restore_count_app, Hr, IHr.
    split; [reflexivity |]. change maxRetries with 20 in Hn.
    cbn [List.length]. lia.
Qed.


(** ** The loop that does not get to a lock file *)

(** X29.  A descriptor that cannot be written is handled as a failure of
    the resolver: when the error carries no output with the code
    [NU1202], the loop ends at once without running the resolver, and
    what follows the loop prints the restore-failed line and returns a
    failure. *)
Theorem write_failure_is_reported_as_restore_failure
    (api : NodeApi) (w : ManifestWorld)
    (csprojPath workdir tfm lockFilePath : string)
    (hasExplicitTfm failOnSkipped : bool) (original : list Package)
    (err : JsError) :
  original <> [] ->
  writeFile w 0 (generateCsproj original tfm hasExplicitTfm) = Some err ->
  Js.includes (errorOutput err) "NU1202" = false ->
  let run := while_loop w csprojPath workdir tfm hasExplicitTfm failOnSkipped
                        (initial original) in
  fst run
  = WriteFile csprojPath (generateCsproj original tfm hasExplicitTfm)
    :: message_line err
  /\ after_loop api w workdir lockFilePath (snd run)
     = (ConsoleError "  Error: dotnet restore failed:" :: buffer_lines err,
        inr {| success := false; skippedPackages := [] |}).
Proof.
  intros Hne Hwrite Hcode. cbv zeta. rewrite while_loop_unroll.
  assert (Hcond : loop_cond (initial original) = true).
  { destruct original as [| p l]; [congruence | reflexivity]. }
  rewrite Hcond. unfold loop_body, attempt, perform, answer_of.
  cbn [initial Vars.compatiblePackages Vars.retryCount]. rewrite Hwrite.
  cbn [bind]. rewrite catch_block_no_progress by (left; exact Hcode).
  cbn [after fst snd app]. split; [reflexivity |].
  unfold after_loop, buffer_lines.
  cbn [Vars.restoreSuccess Vars.lastError Vars.skippedPackages negb].
  destruct err as [m [o |] [e |]]; reflexivity.
Qed.

(** X29 at a disk that is full. *)
Lemma write_failure_at_example :
  let run := while_loop Stuck.write_fails
               "/tmp/convert-nuget-Xa1/TempLockProject.csproj"
               "/tmp/convert-nuget-Xa1" "net472" false false
               (initial [Example.A1; Example.B2]) in
  fst run
  = WriteFile "/tmp/convert-nuget-Xa1/TempLockProject.csproj"
              (generateCsproj [Example.A1; Example.B2] "net472" false)
    :: message_line (Error "ENOSPC: no space left on device, write")
  /\ after_loop (Example.api Example.manifest_text Example.manifest)
                Stuck.write_fails "/tmp/convert-nuget-Xa1"
                "/repo/app/packages.lock.json" (snd run)
     = (ConsoleError "  Error: dotnet restore failed:"
        :: buffer_lines (Error "ENOSPC: no space left on device, write"),
        inr {| success := false; skippedPackages := [] |}).
Proof.
  cbv zeta.
  apply (@write_failure_is_reported_as_restore_failure
           (Example.api Example.manifest_text Example.manifest)
           Stuck.write_fails
           "/tmp/convert-nuget-Xa1/TempLockProject.csproj"
           "/tmp/convert-nuget-Xa1" "net472" "/repo/app/packages.lock.json"
           false false [Example.A1; Example.B2]
           (Error "ENOSPC: no space left on device, write")).
  - discriminate.
  - reflexivity.
  - reflexivity.
Defined.

Section NoCandidateLeft.

Variable w : ManifestWorld.
Variables (csprojPath workdir tfm : string).
Variables (hasExplicitTfm failOnSkipped : bool).

Local Notation "'running'" :=
  (runs w csprojPath workdir tfm hasExplicitTfm failOnSkipped).

(** A loop that ends without candidates has ended at the head of an
    iteration, after one that has skipped packages. *)
Lemma runs_no_candidate (v : Vars.t) t v' :
  running v t v' ->
  Vars.restoreSuccess v = false ->
  Vars.compatiblePackages v' = [] ->
  Vars.restoreSuccess v' = false
  /\ (Vars.compatiblePackages v <> [] -> Vars.skippedPackages v' <> []).
Proof.
  induction 1 as [v Hc | v t v' Hc Hb | v t v1 t' v' Hc Hb Hruns IH];
    intros Hfalse Hnil.
  - split; [exact Hfalse | congruence].
  - exfalso. apply loop_body_inv in Hb. destruct Hb as (_ & Hcp & _).
    unfold loop_cond in Hc. apply andb_prop in Hc. destruct Hc as [_ Hl].
    apply Nat.ltb_lt in Hl. rewrite <- Hcp, Hnil in Hl. cbn in Hl. lia.
  - pose proof Hb as Hb'. apply loop_body_inv in Hb'.
    destruct Hb' as (_ & Hr & inc & Hcp & Hlt & Hs & _).
    assert (Hfalse1 : Vars.restoreSuccess v1 = false) by congruence.
    destruct (IH Hfalse1 Hnil) as [Hr' _]. split; [exact Hr' |].
    intros _.
    assert (Hinc : inc <> []).
    { intros ->. rewrite Hcp in Hlt.
      rewrite (filter_ext _ (fun _ => true) still_compatible_nil) in Hlt.
      rewrite filter_true in Hlt. lia. }
    assert (Hgrow : forall u s u',
               running u s u' ->
               Vars.skippedPackages u <> [] -> Vars.skippedPackages u' <> []).
    { clear. induction 1 as [u Hc | u s u' Hc Hb | u s u1 s' u' Hc Hb _ IH];
        intros Hu.
      - exact Hu.
      - apply loop_body_inv in Hb. destruct Hb as (_ & _ & Hs & _). congruence.
      - apply IH. apply loop_body_inv in Hb.
        destruct Hb as (_ & _ & inc & _ & _ & Hs & _). rewrite Hs.
        intros H. apply app_eq_nil in H. destruct H as [H _]. contradiction. }
    apply (Hgrow _ _ _ Hruns). rewrite Hs. intros H.
    apply app_eq_nil in H. destruct H as [_ H]. contradiction.
Qed.

End NoCandidateLeft.

(** X30.  When the narrowing leaves no candidate, no restore has
    succeeded: no lock file is copied and the manifest fails, and its
    result carries the packages skipped, of which there is one at
    least. *)
Theorem no_candidate_left_fails_the_manifest
    (api : NodeApi) (w : ManifestWorld)
    (csprojPath workdir tfm lockFilePath : string)
    (hasExplicitTfm failOnSkipped : bool) (original : list Package) :
  original <> [] ->
  let v := snd (while_loop w csprojPath workdir tfm hasExplicitTfm
                           failOnSkipped (initial original)) in
  Vars.compatiblePackages v = [] ->
  Vars.skippedPackages v <> []
  /\ exists err,
      Vars.lastError v = Some err
      /\ after_loop api w workdir lockFilePath v
         = (ConsoleError "  Error: dotnet restore failed:" :: buffer_lines err,
            inr {| success := false;
                   skippedPackages := Vars.skippedPackages v |}).
Proof.
  intros Hne. cbv zeta. intros Hnil.
  pose proof (while_loop_runs w csprojPath workdir tfm hasExplicitTfm
                failOnSkipped (initial original)) as Hruns.
  destruct (runs_no_candidate Hruns eq_refl Hnil) as [Hfalse Hskip].
  split; [apply Hskip; exact Hne |].
  assert (Hcond : loop_cond (initial original) = true).
  { destruct original as [| p l]; [congruence | reflexivity]. }
  destruct (runs_lastError Hruns (or_introl Hcond)) as [H | [err Herr]];
    [congruence |].
  exists err. split; [exact Herr |].
  unfold after_loop, buffer_lines. rewrite Hfalse, Herr. cbn [negb].
  destruct err as [m [o |] [e |]]; reflexivity.
Qed.

(** X30 at a resolver that refuses both packages of the manifest. *)
Lemma no_candidate_left_at_example :
  let v := snd (while_loop Stuck.refuses_all
                  "/tmp/convert-nuget-Xa1/TempLockProject.csproj"
                  "/tmp/convert-nuget-Xa1" "net472" false false
                  (initial [Example.A1; Example.B2])) in
  Vars.compatiblePackages v = []
  /\ Vars.skippedPackages v <> []
  /\ exists err,
      Vars.lastError v = Some err
      /\ after_loop (Example.api Example.manifest_text Example.manifest)
                    Stuck.refuses_all "/tmp/convert-nuget-Xa1"
                    "/repo/app/packages.lock.json" v
         = (ConsoleError "  Error: dotnet restore failed:" :: buffer_lines err,
            inr {| success := false;
                   skippedPackages := Vars.skippedPackages v |}).
Proof.
  cbv zeta. split; [vm_compute; reflexivity |].
  apply (@no_candidate_left_fails_the_manifest
           (Example.api Example.manifest_text Example.manifest)
           Stuck.refuses_all
           "/tmp/convert-nuget-Xa1/TempLockProject.csproj"
           "/tmp/convert-nuget-Xa1" "net472" "/repo/app/packages.lock.json"
           false false [Example.A1; Example.B2]).
  - discriminate.
  - vm_compute. reflexivity.
Defined.
